(** * PyHeart workflow engine: a shallow embedding of [pyheart/core/workflow.py]

  The development follows the source file top-down: the Python values the
  engine manipulates ([Dict[str, Any]] configuration and variables), the
  pydantic data model ([Task], [ProcessDefinition], [WorkflowInstance],
  [TaskResult]), and the methods of [WorkflowEngine].  Theorems come after
  the definitions. *)

From Stdlib Require Import ZArith Floats.
From stdpp Require Import gmap strings list relations pretty.

Local Set Warnings "-register-all,-clear-no-such-hyp,-inexact-float".

(** ** Python values *)

Module Py.

Local Open Scope Z_scope.

(** [Any]: the JSON-like values found in task configuration, retry
    policies and instance variables.  A [float] is a binary64, as in
    CPython. *)
Inductive Value : Type :=
| VNone
| VBool (b : bool)
| VInt (n : Z)
| VFloat (x : float)
| VStr (s : string)
| VList (xs : list Value)
| VDict (kvs : list (string * Value)).

(** A [dict] keeps insertion order, so it is an association list whose keys
    are pairwise distinct; [dict_set] maintains that. *)
Abbreviation Dict := (list (string * Value)).

Fixpoint dict_lookup (k : string) (d : Dict) : option Value :=
  match d with
  | [] => None
  | (k', v) :: d' => if decide (k = k') then Some v else dict_lookup k d'
  end.

(** [d.get(k, default)] *)
Definition dict_get (d : Dict) (k : string) (default : Value) : Value :=
  match dict_lookup k d with Some v => v | None => default end.

(** [d[k] = v] *)
Fixpoint dict_set (k : string) (v : Value) (d : Dict) : Dict :=
  match d with
  | [] => [(k, v)]
  | (k', v') :: d' =>
      if decide (k = k') then (k, v) :: d' else (k', v') :: dict_set k v d'
  end.

(** The truth value of a [dict]: it is non-empty. *)
Definition dict_truthy (d : Dict) : bool :=
  match d with [] => false | _ :: _ => true end.

(** [{**a, **b}] *)
Definition dict_merge (a b : Dict) : Dict :=
  fold_left (fun acc kv => dict_set kv.1 kv.2 acc) b a.

(** Exceptions: the class and the text that [str(e)] gives. *)
Inductive ExnClass :=
| ValueError | TypeError | AttributeError | KeyError | ValidationError
| OverflowError | RecursionError | OtherException.

Record Exn := mkExn { exn_class : ExnClass; exn_str : string }.

Inductive Result (A : Type) : Type :=
| Ok (a : A)
| Raise (e : Exn).
Arguments Ok {A} a.
Arguments Raise {A} e.

Definition type_name (v : Value) : string :=
  match v with
  | VNone => "NoneType"
  | VBool _ => "bool"
  | VInt _ => "int"
  | VFloat _ => "float"
  | VStr _ => "str"
  | VList _ => "list"
  | VDict _ => "dict"
  end.

(** Numbers: [bool] is a subclass of [int]. *)
Inductive Num := NInt (n : Z) | NFloat (x : float).

Definition as_num (v : Value) : option Num :=
  match v with
  | VBool b => Some (NInt (Z.b2z b))
  | VInt n => Some (NInt n)
  | VFloat x => Some (NFloat x)
  | _ => None
  end.

(** CPython compares an [int] with a [float] exactly, not after rounding
    the [int].  [None] stands for unordered (the float is a NaN). *)
Definition Z_float_compare (n : Z) (x : float) : option comparison :=
  match Prim2SF x with
  | S754_nan => None
  | S754_zero _ => Some (n ?= 0)
  | S754_infinity neg => Some (if neg then Gt else Lt)
  | S754_finite neg m e =>
      let mz := if neg then Z.neg m else Z.pos m in
      Some (if 0 <=? e then n ?= mz * 2 ^ e else n * 2 ^ (- e) ?= mz)
  end.

Definition float_compare (x y : float) : option comparison :=
  match PrimFloat.compare x y with
  | FEq => Some Eq
  | FLt => Some Lt
  | FGt => Some Gt
  | FNotComparable => None
  end.

Definition num_compare (a b : Num) : option comparison :=
  match a, b with
  | NInt m, NInt n => Some (m ?= n)
  | NInt m, NFloat y => Z_float_compare m y
  | NFloat x, NInt n => CompOpp <$> Z_float_compare n x
  | NFloat x, NFloat y => float_compare x y
  end.

Inductive CmpOp := OpLt | OpLe | OpGt | OpGe.

Definition op_symbol (op : CmpOp) : string :=
  match op with OpLt => "<" | OpLe => "<=" | OpGt => ">" | OpGe => ">=" end.

Definition cmp_holds (op : CmpOp) (c : comparison) : bool :=
  match op, c with
  | OpLt, Lt | OpLe, Lt | OpLe, Eq | OpGt, Gt | OpGe, Gt | OpGe, Eq => true
  | _, _ => false
  end.

Definition opt_holds (op : CmpOp) (c : option comparison) : bool :=
  match c with Some c => cmp_holds op c | None => false end.

Definition string_compare (s t : string) : comparison := String.compare s t.

(** [a == b].  Containers compare element-wise; a [dict] compares as a
    mapping, whatever the insertion order.  (CPython first tests container
    elements for identity, which only shows for a NaN stored in a
    container; object identity of scalars is not part of this model.) *)
Fixpoint py_eq (a b : Value) {struct a} : bool :=
  match a, b with
  | VNone, VNone => true
  | VStr s, VStr t => bool_decide (s = t)
  | VList xs, VList ys =>
      (fix go (xs ys : list Value) {struct xs} : bool :=
         match xs, ys with
         | [], [] => true
         | x :: xs', y :: ys' => py_eq x y && go xs' ys'
         | _, _ => false
         end) xs ys
  | VDict d, VDict d' =>
      bool_decide (length d = length d') &&
      (fix go (d : Dict) {struct d} : bool :=
         match d with
         | [] => true
         | (k, v) :: r =>
             match dict_lookup k d' with
             | Some v' => py_eq v v' && go r
             | None => false
             end
         end) d
  | _, _ =>
      match as_num a, as_num b with
      | Some x, Some y => bool_decide (num_compare x y = Some Eq)
      | _, _ => false
      end
  end.

Definition not_supported (op : CmpOp) (a b : Value) : Exn :=
  mkExn TypeError
    ("'" +:+ op_symbol op +:+ "' not supported between instances of '"
         +:+ type_name a +:+ "' and '" +:+ type_name b +:+ "'").

(** [a < b], [a <= b], [a > b], [a >= b]: numbers by value, strings and
    lists lexicographically, anything else is a [TypeError]. *)
Fixpoint py_order (op : CmpOp) (a b : Value) {struct a} : Result bool :=
  match a, b with
  | VStr s, VStr t => Ok (cmp_holds op (string_compare s t))
  | VList xs, VList ys =>
      (fix go (xs ys : list Value) {struct xs} : Result bool :=
         match xs, ys with
         | x :: xs', y :: ys' =>
             if py_eq x y then go xs' ys' else py_order op x y
         | [], [] => Ok (cmp_holds op Eq)
         | [], _ :: _ => Ok (cmp_holds op Lt)
         | _ :: _, [] => Ok (cmp_holds op Gt)
         end) xs ys
  | _, _ =>
      match as_num a, as_num b with
      | Some x, Some y => Ok (opt_holds op (num_compare x y))
      | _, _ => Raise (not_supported op a b)
      end
  end.

Definition dquote : string := String (Ascii.ascii_of_nat 34) EmptyString.

Definition cannot_concatenate (ty : string) : string :=
  "can only concatenate " +:+ ty +:+ " (not " +:+ dquote +:+ "int" +:+ dquote
    +:+ ") to " +:+ ty.

(** [a + k] for an [int] literal [k]. *)
Definition py_add_int (a : Value) (k : Z) : Result Value :=
  match a with
  | VBool b => Ok (VInt (Z.b2z b + k))
  | VInt n => Ok (VInt (n + k))
  | VFloat x => Ok (VFloat (x + PrimFloat.of_uint63 (Uint63.of_Z k))%float)
  | VStr _ => Raise (mkExn TypeError (cannot_concatenate "str"))
  | VList _ => Raise (mkExn TypeError (cannot_concatenate "list"))
  | _ => Raise (mkExn TypeError
                  ("unsupported operand type(s) for +: '" +:+ type_name a +:+ "' and 'int'"))
  end.

End Py.

Import Py.

(** ** Data model *)

(** [class TaskStatus(str, Enum)] *)
Inductive TaskStatus :=
| PENDING | RUNNING | COMPLETED | FAILED | CANCELLED | SKIPPED.

#[global] Instance TaskStatus_eq_dec : EqDecision TaskStatus.
Proof. solve_decision. Defined.

(** [class TaskType(str, Enum)] *)
Inductive TaskType :=
| API_CALL | TRANSFORMATION | DECISION | NOTIFICATION
| HUMAN_TASK | SCRIPT | PARALLEL | SEQUENCE.

#[global] Instance TaskType_eq_dec : EqDecision TaskType.
Proof. solve_decision. Defined.

Definition TaskType_value (ty : TaskType) : string :=
  match ty with
  | API_CALL => "api_call"
  | TRANSFORMATION => "transformation"
  | DECISION => "decision"
  | NOTIFICATION => "notification"
  | HUMAN_TASK => "human_task"
  | SCRIPT => "script"
  | PARALLEL => "parallel"
  | SEQUENCE => "sequence"
  end.

(** [class Task(BaseModel)] *)
Module Task.
Record t := mk {
  id : string;
  name : string;
  type : TaskType;
  config : Dict;
  dependencies : list string;
  retry_policy : Dict;
  timeout : option Z
}.
End Task.
Abbreviation Task := Task.t.

#[global] Instance TaskType_countable : Countable TaskType.
Proof.
  refine (inj_countable'
    (λ ty, match ty with
           | API_CALL => 0 | TRANSFORMATION => 1 | DECISION => 2
           | NOTIFICATION => 3 | HUMAN_TASK => 4 | SCRIPT => 5
           | PARALLEL => 6 | SEQUENCE => 7
           end)
    (λ n, match n with
          | 0 => API_CALL | 1 => TRANSFORMATION | 2 => DECISION
          | 3 => NOTIFICATION | 4 => HUMAN_TASK | 5 => SCRIPT
          | 6 => PARALLEL | _ => SEQUENCE
          end) _).
  by intros [].
Defined.

(** What a handler hands back as [output]: a value, or, for the sequence
    composite, the list of the [TaskResult] objects of its sub-tasks (as
    references, see [Run] below). *)
Inductive Output :=
| OValue (v : Value)
| OResults (refs : list nat).

(** [@dataclass class TaskResult]; timestamps are readings of a logical
    clock. *)
Module TaskResult.
Record t := mk {
  status : TaskStatus;
  output : Output;
  error : option string;
  started_at : option nat;
  completed_at : option nat
}.
Definition set_status (s : TaskStatus) (r : t) : t :=
  mk s (output r) (error r) (started_at r) (completed_at r).
Definition set_output (o : Output) (r : t) : t :=
  mk (status r) o (error r) (started_at r) (completed_at r).
Definition set_error (e : string) (r : t) : t :=
  mk (status r) (output r) (Some e) (started_at r) (completed_at r).
Definition set_completed_at (n : nat) (r : t) : t :=
  mk (status r) (output r) (error r) (started_at r) (Some n).
End TaskResult.

(** [class ProcessDefinition(BaseModel)] *)
Module ProcessDefinition.
Record t := mk {
  id : string;
  name : string;
  version : string;
  description : option string;
  tasks : list Task;
  variables : Dict;
  triggers : list Dict;
  metadata : Dict
}.

(** [ProcessDefinition(id=..., name=..., tasks=..., ...)]: the pydantic
    constructor.  The class declares typed fields with defaults and no
    validator, so for arguments of the declared types nothing is checked
    and nothing can fail; the [Result] type keeps room for the
    [ValidationError] that the class never raises. *)
Definition new (id name : string) (tasks : list Task)
    (version : option string) (description : option string)
    (variables : option Dict) (triggers : option (list Dict))
    (metadata : option Dict) : Result t :=
  Ok (mk id name (default "1.0.0" version) description tasks
        (default [] variables) (default [] triggers) (default [] metadata)).
End ProcessDefinition.

(** [class WorkflowInstance(BaseModel)].  [task_results] maps a task
    identifier to a reference to a [TaskResult] object: the executor keeps
    mutating the object after it has stored it in the map. *)
Module WorkflowInstance.
Record t := mk {
  id : string;
  process_id : string;
  status : TaskStatus;
  variables : Dict;
  task_results : gmap string nat;
  created_at : nat;
  updated_at : nat
}.
Definition set_status (s : TaskStatus) (i : t) : t :=
  mk (id i) (process_id i) s (variables i) (task_results i)
     (created_at i) (updated_at i).
Definition set_variables (vs : Dict) (i : t) : t :=
  mk (id i) (process_id i) (status i) vs (task_results i)
     (created_at i) (updated_at i).
Definition set_task_results (m : gmap string nat) (i : t) : t :=
  mk (id i) (process_id i) (status i) (variables i) m
     (created_at i) (updated_at i).
Definition set_updated_at (n : nat) (i : t) : t :=
  mk (id i) (process_id i) (status i) (variables i) (task_results i)
     (created_at i) n.
End WorkflowInstance.

(** ** [WorkflowEngine._get_execution_order] *)

(** [next((t for t in tasks if t.id == dep_id), None)] *)
Definition find_task (tasks : list Task) (dep_id : string) : option Task :=
  List.find (fun t => bool_decide (Task.id t = dep_id)) tasks.

(** A [for] loop whose body threads a state and may give no result
    ([None]), which ends the loop. *)
Fixpoint for_each {A S : Type} (body : A → S → option S) (xs : list A) (s : S)
  : option S :=
  match xs with
  | [] => Some s
  | x :: xs' =>
      match body x s with
      | Some s' => for_each body xs' s'
      | None => None
      end
  end.

(** The closure [visit]; its captured variables [visited] and [order] are
    the threaded state.  The recursion is not structural, so it is bounded
    by [fuel]: the number of nested calls of [visit] that the interpreter's
    call stack has room for.  [None] means that this depth was reached, where
    the interpreter raises [RecursionError]. *)
Fixpoint visit (fuel : nat) (tasks : list Task) (task : Task)
    (s : gset string * list Task) : option (gset string * list Task) :=
  match fuel with
  | O => None
  | S fuel =>
      if decide (Task.id task ∈ s.1) then Some s
      else
        match
          for_each
            (fun dep_id s =>
               match find_task tasks dep_id with
               | Some dep_task => visit fuel tasks dep_task s
               | None => Some s
               end)
            (Task.dependencies task)
            ({[Task.id task]} ∪ s.1, s.2)
        with
        | Some s' => Some (s'.1, s'.2 ++ [task])
        | None => None
        end
  end.

Definition get_execution_order_fuel (fuel : nat) (tasks : list Task)
  : option (list Task) :=
  snd <$> for_each (visit fuel tasks) tasks (∅, []).

Definition recursion_error : Exn :=
  mkExn RecursionError "maximum recursion depth exceeded".

(** [WorkflowEngine._get_execution_order].  [depth] is the number of nested
    calls of [visit] that the interpreter's stack has room for when the
    method is called; a list whose dependency chains need more makes the
    method raise [RecursionError], and the local [visited] and [order] are
    lost.  The nesting is never deeper than the number of tasks plus one
    ([visit_enough_fuel] below). *)
Definition _get_execution_order (depth : nat) (tasks : list Task)
  : Result (list Task) :=
  match get_execution_order_fuel depth tasks with
  | Some order => Ok order
  | None => Raise recursion_error
  end.

(** *** Vocabulary for the scheduler's contract *)

(** [t] names [u] among its dependencies, both being tasks of the list. *)
Definition depends_on (tasks : list Task) (t u : Task) : Prop :=
  t ∈ tasks ∧ u ∈ tasks ∧ Task.id u ∈ Task.dependencies t.

(** No task transitively depends on itself. *)
Definition acyclic (tasks : list Task) : Prop :=
  ∀ t, ¬ tc (depends_on tasks) t t.

(** Every dependency identifier names a task of the list. *)
Definition references_present (tasks : list Task) : Prop :=
  ∀ t d, t ∈ tasks → d ∈ Task.dependencies t →
         ∃ u, u ∈ tasks ∧ Task.id u = d.

Definition distinct_ids (tasks : list Task) : Prop :=
  NoDup (Task.id <$> tasks).

(** [u] stands at a strictly smaller index than [t]. *)
Definition before (u t : Task) (order : list Task) : Prop :=
  ∃ i j, order !! i = Some u ∧ order !! j = Some t ∧ i < j.

Definition task_ids (tasks : list Task) : gset string :=
  list_to_set (Task.id <$> tasks).

(** What holds of the scheduler's state [(visited, order)] while the tasks
    whose identifiers are in [grey] are still on the call stack: the visited
    identifiers are those on the stack and those already placed. *)
Record sched_inv (tasks : list Task) (grey : gset string)
    (s : gset string * list Task) : Prop := {
  inv_visited : s.1 = grey ∪ task_ids s.2;
  inv_grey : grey ## task_ids s.2;
  inv_nodup : NoDup (Task.id <$> s.2);
  inv_tasks : ∀ u, u ∈ s.2 → u ∈ tasks
}.

(** Every placed task has its dependencies placed at smaller indices. *)
Definition closed (tasks order : list Task) : Prop :=
  ∀ j t u, order !! j = Some t → depends_on tasks t u →
           ∃ i, i < j ∧ order !! i = Some u.

(** ** Condition evaluation *)

#[global] Instance Result_ret : MRet Result := λ A a, Ok a.
#[global] Instance Result_bind : MBind Result := λ A B f m,
  match m with Ok a => f a | Raise e => Raise e end.

Definition no_attribute (v : Value) (attr : string) : Exn :=
  mkExn AttributeError
    ("'" +:+ type_name v +:+ "' object has no attribute '" +:+ attr +:+ "'").

(** [WorkflowEngine._get_variable_value].  The parameter is annotated
    [expr: str]; the method calls [expr.startswith], which only a string
    has. *)
Definition _get_variable_value (expr : Value) (variables : Dict)
  : Result Value :=
  match expr with
  | VStr s =>
      if String.prefix "$" s
      then Ok (dict_get variables (String.substring 1 (String.length s - 1) s) VNone)
      else Ok expr
  | _ => Raise (no_attribute expr "startswith")
  end.

(** [WorkflowEngine._evaluate_condition] *)
Definition _evaluate_condition (condition : Dict) (variables : Dict)
  : Result bool :=
  let operator := dict_get condition "operator" (VStr "eq") in
  let left := dict_get condition "left" (VStr "") in
  let right := dict_get condition "right" (VStr "") in
  left_value ← _get_variable_value left variables;
  right_value ← _get_variable_value right variables;
  if py_eq operator (VStr "eq") then Ok (py_eq left_value right_value)
  else if py_eq operator (VStr "ne") then Ok (negb (py_eq left_value right_value))
  else if py_eq operator (VStr "gt") then py_order OpGt left_value right_value
  else if py_eq operator (VStr "lt") then py_order OpLt left_value right_value
  else if py_eq operator (VStr "gte") then py_order OpGe left_value right_value
  else if py_eq operator (VStr "lte") then py_order OpLe left_value right_value
  else Ok false.

(** ** The executor *)

(** The state one instance run works on: the live [WorkflowInstance], the
    [TaskResult] objects allocated so far (a reference is an index into
    [results]), a logical clock for [datetime.utcnow()], and, as ghost
    state, the log of handler invocations. *)
Module Run.
Record t := mk {
  instance : WorkflowInstance.t;
  results : list TaskResult.t;
  clock : nat;
  invoked : list Task
}.
End Run.
Abbreviation Run := Run.t.

(** What a callable registered as a handler does with [(task, instance)]:
    it reads the instance and the results recorded so far, may rebind the
    instance's variables and status, and returns a value or raises. *)
Record Effect := mkEffect {
  new_variables : Dict;
  new_status : TaskStatus;
  returned : Result Value
}.

(** An entry of [task_handlers].  The sequence composite re-enters the
    executor and is interpreted below.  Every other handler is a callable:
    the handlers that talk to collaborators (HTTP transport, notifier,
    transformation), the decision handler, a handler registered by a caller,
    and the parallel composite, whose interleaving of sub-tasks at their
    suspension points is outside this sequential model. *)
Inductive Handler :=
| Callable (f : Task → WorkflowInstance.t → list TaskResult.t → Effect)
| HandleSequence.

(** Computations of the executor: they thread a [Run] and return or raise.
    They yield [None] where the model follows them no further: the depth
    bounding re-entrant calls is used up, or a sleep never ends. *)
Definition M (A : Type) : Type := Run → option (Result A * Run).

#[global] Instance M_ret : MRet M := λ A a r, Some (Ok a, r).
#[global] Instance M_bind : MBind M := λ A B f m r,
  match m r with
  | Some (Ok a, r') => f a r'
  | Some (Raise e, r') => Some (Raise e, r')
  | None => None
  end.

Definition raise {A : Type} (e : Exn) : M A := λ r, Some (Raise e, r).
Definition out_of_fuel {A : Type} : M A := λ _, None.
Definition lift {A : Type} (x : Result A) : M A := λ r, Some (x, r).
Definition get_run : M Run := λ r, Some (Ok r, r).
Definition modify (f : Run → Run) : M unit := λ r, Some (Ok tt, f r).

(** [try: ... except Exception as e: ...]: the mutations made before the
    exception stay. *)
Definition catch {A : Type} (m : M A) : M (Result A) := λ r,
  match m r with
  | Some (x, r') => Some (Ok x, r')
  | None => None
  end.

Definition set_instance (f : WorkflowInstance.t → WorkflowInstance.t) : M unit :=
  modify (λ r, Run.mk (f (Run.instance r)) (Run.results r) (Run.clock r) (Run.invoked r)).

(** [datetime.utcnow()] *)
Definition utcnow : M nat := λ r,
  Some (Ok (Run.clock r), Run.mk (Run.instance r) (Run.results r) (S (Run.clock r)) (Run.invoked r)).

(** [TaskResult(...)]: a new object; its reference is returned. *)
Definition new_TaskResult (res : TaskResult.t) : M nat := λ r,
  Some (Ok (length (Run.results r)),
        Run.mk (Run.instance r) (Run.results r ++ [res]) (Run.clock r) (Run.invoked r)).

(** [result.field = ...] through the reference. *)
Definition update_result (ref : nat) (f : TaskResult.t → TaskResult.t) : M unit :=
  modify (λ r, Run.mk (Run.instance r) (alter f ref (Run.results r)) (Run.clock r) (Run.invoked r)).

(** [instance.task_results[task_id] = result] *)
Definition set_task_result (task_id : string) (ref : nat) : M unit :=
  set_instance (λ i,
    WorkflowInstance.set_task_results (<[task_id := ref]> (WorkflowInstance.task_results i)) i).

(** [instance.variables[key] = v] *)
Definition set_variable (key : string) (v : Value) : M unit :=
  set_instance (λ i,
    WorkflowInstance.set_variables (dict_set key v (WorkflowInstance.variables i)) i).

Definition log_invocation (task : Task) : M unit :=
  modify (λ r, Run.mk (Run.instance r) (Run.results r) (Run.clock r) (Run.invoked r ++ [task])).

(** [result.status] read through the reference. *)
Definition result_status (r : Run) (ref : nat) : option TaskStatus :=
  TaskResult.status <$> Run.results r !! ref.

(** [dep_result = instance.task_results.get(dep_id)] followed by
    [not dep_result or dep_result.status != TaskStatus.COMPLETED], negated. *)
Definition dependency_completed (r : Run) (dep_id : string) : bool :=
  match WorkflowInstance.task_results (Run.instance r) !! dep_id with
  | Some ref => bool_decide (result_status r ref = Some COMPLETED)
  | None => false
  end.

(** The least [int] that has no [float]: converting it raises
    [OverflowError] (it rounds to [2 ^ 1024]). *)
Definition float_overflow_bound : Z := (2 ^ 1024 - 2 ^ 970)%Z.

(** [await asyncio.sleep(delay)].  The delay is first compared with zero,
    which raises for a delay that is not a number; a delay that is not
    positive only yields.  A positive delay is added to the loop's clock, a
    [float]: for an [int] too large for a [float] this raises
    [OverflowError].  Otherwise the coroutine resumes when the delay has
    passed.  It never does for an infinite delay, and what a NaN does depends
    on the version of the interpreter: for these two the model gives no
    outcome ([None]).  What other coroutines do while this one is suspended is
    not part of the model. *)
Definition asyncio_sleep (delay : Value) : M unit :=
  nonpositive ← lift (py_order OpLe delay (VInt 0));
  if nonpositive : bool then mret tt
  else
    match delay with
    | VInt n =>
        if bool_decide (float_overflow_bound ≤ n)%Z
        then raise (mkExn OverflowError "int too large to convert to float")
        else mret tt
    | VFloat x =>
        match Prim2SF x with
        | S754_finite _ _ _ | S754_zero _ => mret tt
        | _ => λ _, None
        end
    | _ => mret tt
    end.

(** [for x in v] *)
Definition py_iter (v : Value) : Result (list Value) :=
  match v with
  | VList xs => Ok xs
  | VDict d => Ok ((λ kv, VStr kv.1) <$> d)
  | VStr s => Ok ((λ c, VStr (String c EmptyString)) <$> String.list_ascii_of_string s)
  | _ => Raise (mkExn TypeError ("'" +:+ type_name v +:+ "' object is not iterable"))
  end.

Section executor.

(** Two things the interpreter and pydantic decide: how an enum member is
    rendered inside an f-string (its value before Python 3.11, its qualified
    name from 3.11 on), and what the constructor [Task] makes of a dictionary
    unpacked into keyword arguments (validation and coercion of the fields). *)
Context (format_TaskType : TaskType → string).
Context (Task_new : Dict → Result Task).

Context (task_handlers : gmap TaskType Handler).

(** The constructor [Task] applied to [subtask_config] unpacked into
    keyword arguments. *)
Definition Task_of_config (subtask_config : Value) : Result Task :=
  match subtask_config with
  | VDict d => Task_new d
  | _ => Raise (mkExn TypeError
                  ("Task() argument after ** must be a mapping, not "
                     +:+ type_name subtask_config))
  end.

(** [WorkflowEngine._handle_retry]; [execute_task] is the executor to
    re-enter. *)
Definition _handle_retry (execute_task : Task → M nat) (task : Task) : M unit :=
  let retry_policy := Task.retry_policy task in
  let max_retries := dict_get retry_policy "max_retries" (VInt 3) in
  let delay := dict_get retry_policy "delay" (VInt 5) in
  let retry_key := Task.id task +:+ "_retries" in
  r ← get_run;
  let current_retries :=
    dict_get (WorkflowInstance.variables (Run.instance r)) retry_key (VInt 0) in
  below ← lift (py_order OpLt current_retries max_retries);
  if below : bool then
    next ← lift (py_add_int current_retries 1);
    set_variable retry_key next;;
    asyncio_sleep delay;;
    _ ← execute_task task;
    mret tt
  else mret tt.

(** The loop of [WorkflowEngine._handle_sequence]. *)
Fixpoint sequence_loop (execute_task : Task → M nat)
    (subtasks : list Value) (results : list nat) : M (list nat) :=
  match subtasks with
  | [] => mret results
  | subtask_config :: rest =>
      subtask ← lift (Task_of_config subtask_config);
      result ← execute_task subtask;
      let results := results ++ [result] in
      r ← get_run;
      if bool_decide (result_status r result = Some FAILED)
      then mret results
      else sequence_loop execute_task rest results
  end.

(** [WorkflowEngine._handle_sequence] *)
Definition _handle_sequence (execute_task : Task → M nat) (task : Task)
  : M (list nat) :=
  subtasks ← lift (py_iter (dict_get (Task.config task) "tasks" (VList [])));
  sequence_loop execute_task subtasks [].

(** [await handler(task, instance)] *)
Definition call_handler (execute_task : Task → M nat) (handler : Handler)
    (task : Task) : M Output :=
  log_invocation task;;
  match handler with
  | Callable f =>
      r ← get_run;
      let eff := f task (Run.instance r) (Run.results r) in
      set_instance (λ i,
        WorkflowInstance.set_status (new_status eff)
          (WorkflowInstance.set_variables (new_variables eff) i));;
      v ← lift (returned eff);
      mret (OValue v)
  | HandleSequence =>
      refs ← _handle_sequence execute_task task;
      mret (OResults refs)
  end.

(** [WorkflowEngine._execute_task].  [fuel] is the depth of re-entrant calls
    (retries and sub-tasks of a sequence) that is followed.  The interpreter
    bounds that depth too, by its recursion limit; what a nest deeper than
    [fuel] does (a [RecursionError] raised somewhere inside it) is not
    followed: [None]. *)
Fixpoint _execute_task (fuel : nat) (task : Task) : M nat :=
  match fuel with
  | O => out_of_fuel
  | S fuel =>
      r ← get_run;
      match List.find (λ dep_id, negb (dependency_completed r dep_id))
              (Task.dependencies task) with
      | Some _ =>
          result ← new_TaskResult
                     (TaskResult.mk SKIPPED (OValue VNone) None None None);
          set_task_result (Task.id task) result;;
          mret result
      | None =>
          started ← utcnow;
          result ← new_TaskResult
                     (TaskResult.mk RUNNING (OValue VNone) None (Some started) None);
          set_task_result (Task.id task) result;;
          outcome ← catch
            match task_handlers !! Task.type task with
            | None =>
                raise (mkExn ValueError
                         ("No handler for task type "
                            +:+ format_TaskType (Task.type task)))
            | Some handler => call_handler (_execute_task fuel) handler task
            end;
          match outcome with
          | Ok output =>
              update_result result (TaskResult.set_status COMPLETED);;
              update_result result (TaskResult.set_output output);;
              completed ← utcnow;
              update_result result (TaskResult.set_completed_at completed);;
              mret result
          | Raise e =>
              update_result result (TaskResult.set_status FAILED);;
              update_result result (TaskResult.set_error (exn_str e));;
              completed ← utcnow;
              update_result result (TaskResult.set_completed_at completed);;
              (if dict_truthy (Task.retry_policy task)
               then _handle_retry (_execute_task fuel) task
               else mret tt);;
              mret result
          end
      end
  end.

(** The [for] loop of [_execute_instance], with its cancellation check. *)
Fixpoint run_tasks (fuel : nat) (order : list Task) : M unit :=
  match order with
  | [] => mret tt
  | task :: rest =>
      r ← get_run;
      if bool_decide (WorkflowInstance.status (Run.instance r) = CANCELLED)
      then mret tt
      else _ ← _execute_task fuel task; run_tasks fuel rest
  end.

End executor.

(** ** The engine *)

(** [class WorkflowEngine]: its three dictionaries. *)
Module WorkflowEngine.
Record t := mk {
  processes : gmap string ProcessDefinition.t;
  instances : gmap string WorkflowInstance.t;
  task_handlers : gmap TaskType Handler
}.
End WorkflowEngine.

(** What lives next to the engine object: the [TaskResult] objects, the
    clock, the invocation log, and the instance runs handed to the event
    loop by [asyncio.create_task] and not yet started. *)
Record World := mkWorld {
  engine : WorkflowEngine.t;
  objects : list TaskResult.t;
  time : nat;
  calls : list Task;
  scheduled : list string
}.

(** [WorkflowEngine._register_default_handlers]; the five handlers that are
    kept abstract are arguments. *)
Definition _register_default_handlers
    (api_call transformation decision notification parallel
       : Task → WorkflowInstance.t → list TaskResult.t → Effect)
  : gmap TaskType Handler :=
  <[SEQUENCE := HandleSequence]>
    (<[PARALLEL := Callable parallel]>
       (<[NOTIFICATION := Callable notification]>
          (<[DECISION := Callable decision]>
             (<[TRANSFORMATION := Callable transformation]>
                (<[API_CALL := Callable api_call]> ∅))))).

(** [WorkflowEngine.register_process] *)
Definition register_process (process : ProcessDefinition.t) (w : World) : World :=
  let e := engine w in
  mkWorld
    (WorkflowEngine.mk
       (<[ProcessDefinition.id process := process]> (WorkflowEngine.processes e))
       (WorkflowEngine.instances e) (WorkflowEngine.task_handlers e))
    (objects w) (time w) (calls w) (scheduled w).

Definition process_not_found (process_id : string) : Exn :=
  mkExn ValueError ("Process " +:+ process_id +:+ " not found").

(** [WorkflowEngine.start_process].  The new run is only handed to the
    event loop; the method returns before it starts. *)
Definition start_process (process_id : string) (variables : option Dict)
    (w : World) : Result string * World :=
  let e := engine w in
  match WorkflowEngine.processes e !! process_id with
  | None => (Raise (process_not_found process_id), w)
  | Some process =>
      let instance :=
        WorkflowInstance.mk
          (process_id +:+ "_" +:+ pretty (time w))
          process_id
          PENDING
          (dict_merge (ProcessDefinition.variables process) (default [] variables))
          ∅
          (S (time w))
          (S (S (time w))) in
      (Ok (WorkflowInstance.id instance),
       mkWorld
         (WorkflowEngine.mk
            (WorkflowEngine.processes e)
            (<[WorkflowInstance.id instance := instance]> (WorkflowEngine.instances e))
            (WorkflowEngine.task_handlers e))
         (objects w) (S (S (S (time w)))) (calls w)
         (scheduled w ++ [WorkflowInstance.id instance]))
  end.

Definition key_error (key : string) : Exn :=
  mkExn KeyError ("'" +:+ key +:+ "'").

Section instance_run.

Context (format_TaskType : TaskType → string).
Context (Task_new : Dict → Result Task).

(** The room on the interpreter's stack, in nested calls of [visit], when
    the run calls the scheduler. *)
Context (visit_depth : nat).

(** [WorkflowEngine._execute_instance].  The scheduler is called inside the
    [try] block, so its [RecursionError] ends the instance [FAILED].  [fuel]
    bounds the re-entrant calls of the executor, [None] means it was used
    up. *)
Definition _execute_instance (fuel : nat) (instance_id : string) (w : World)
  : option (Result unit * World) :=
  let e := engine w in
  match WorkflowEngine.instances e !! instance_id with
  | None => Some (Raise (key_error instance_id), w)
  | Some instance =>
      match WorkflowEngine.processes e !! WorkflowInstance.process_id instance with
      | None => Some (Raise (key_error (WorkflowInstance.process_id instance)), w)
      | Some process =>
          let r0 := Run.mk (WorkflowInstance.set_status RUNNING instance)
                      (objects w) (time w) (calls w) in
          match
            (order ← lift (_get_execution_order visit_depth
                             (ProcessDefinition.tasks process));
             run_tasks format_TaskType Task_new (WorkflowEngine.task_handlers e)
               fuel order;;
             r ← get_run;
             if bool_decide (WorkflowInstance.status (Run.instance r) = CANCELLED)
             then mret tt
             else set_instance (WorkflowInstance.set_status COMPLETED)) r0
          with
          | None => None
          | Some (outcome, r1) =>
              let status :=
                match outcome with
                | Ok _ => WorkflowInstance.status (Run.instance r1)
                | Raise _ => FAILED
                end in
              let final :=
                WorkflowInstance.set_updated_at (Run.clock r1)
                  (WorkflowInstance.set_status status (Run.instance r1)) in
              Some (Ok tt,
                    mkWorld
                      (WorkflowEngine.mk
                         (WorkflowEngine.processes e)
                         (<[instance_id := final]> (WorkflowEngine.instances e))
                         (WorkflowEngine.task_handlers e))
                      (Run.results r1) (S (Run.clock r1)) (Run.invoked r1)
                      (scheduled w))
          end
      end
  end.

End instance_run.

(** [WorkflowEngine.get_instance_status] *)
Definition get_instance_status (instance_id : string) (w : World)
  : option WorkflowInstance.t :=
  WorkflowEngine.instances (engine w) !! instance_id.

(** [WorkflowEngine.cancel_instance] *)
Definition cancel_instance (instance_id : string) (w : World) : bool * World :=
  let e := engine w in
  match WorkflowEngine.instances e !! instance_id with
  | Some instance =>
      if bool_decide (WorkflowInstance.status instance = RUNNING)
      then (true,
            mkWorld
              (WorkflowEngine.mk
                 (WorkflowEngine.processes e)
                 (<[instance_id := WorkflowInstance.set_status CANCELLED instance]>
                    (WorkflowEngine.instances e))
                 (WorkflowEngine.task_handlers e))
              (objects w) (time w) (calls w) (scheduled w))
      else (false, w)
  | None => (false, w)
  end.

(** ** Vocabulary for the executor's contract *)

(** The dependency has no recorded result, or one whose status is not
    [COMPLETED]. *)
Definition dependency_unmet (r : Run) (dep_id : string) : Prop :=
  match WorkflowInstance.task_results (Run.instance r) !! dep_id with
  | Some ref => result_status r ref ≠ Some COMPLETED
  | None => True
  end.

Definition dependencies_completed (r : Run) (task : Task) : Prop :=
  ∀ dep_id, dep_id ∈ Task.dependencies task →
            dependency_completed r dep_id = true.

(** The result object the instance records for a task. *)
Definition recorded_result (r : Run) (task_id : string) : option TaskResult.t :=
  ref ← WorkflowInstance.task_results (Run.instance r) !! task_id;
  Run.results r !! ref.

(** The text [_execute_task] puts in the [ValueError] for a task type
    without handler. *)
Definition no_handler_message (format_TaskType : TaskType → string)
    (task : Task) : string :=
  "No handler for task type " +:+ format_TaskType (Task.type task).

(** The run as a callable handler finds it when [_execute_task] calls it
    for [task]: the [RUNNING] result is allocated and recorded, the clock has
    been read once, the invocation is logged. *)
Definition attempt_started (task : Task) (r : Run) : Run :=
  Run.mk
    (WorkflowInstance.set_task_results
       (<[Task.id task := length (Run.results r)]>
          (WorkflowInstance.task_results (Run.instance r)))
       (Run.instance r))
    (Run.results r ++
       [TaskResult.mk RUNNING (OValue VNone) None (Some (Run.clock r)) None])
    (S (Run.clock r))
    (Run.invoked r ++ [task]).

(** What the callable [f] does there. *)
Definition attempt_effect
    (f : Task → WorkflowInstance.t → list TaskResult.t → Effect)
    (task : Task) (r : Run) : Effect :=
  f task (Run.instance (attempt_started task r))
    (Run.results (attempt_started task r)).

(** The run after the attempt, once the outcome is written to the result
    object (and before any retry handling). *)
Definition attempt_settled (task : Task) (r : Run) (eff : Effect)
    (settled : TaskResult.t) : Run :=
  Run.mk
    (WorkflowInstance.set_status (new_status eff)
       (WorkflowInstance.set_variables (new_variables eff)
          (Run.instance (attempt_started task r))))
    (Run.results r ++ [settled])
    (S (S (Run.clock r)))
    (Run.invoked r ++ [task]).

Definition completed_result (r : Run) (v : Value) : TaskResult.t :=
  TaskResult.mk COMPLETED (OValue v) None
    (Some (Run.clock r)) (Some (S (Run.clock r))).

Definition failed_result (r : Run) (e : Exn) : TaskResult.t :=
  TaskResult.mk FAILED (OValue VNone) (Some (exn_str e))
    (Some (Run.clock r)) (Some (S (Run.clock r))).

(** The instance variable that counts the retries of a task. *)
Definition retry_key (task : Task) : string := Task.id task +:+ "_retries".

(** On [task] the callable raises, whatever the instance looks like. *)
Definition always_raises
    (f : Task → WorkflowInstance.t → list TaskResult.t → Effect)
    (task : Task) : Prop :=
  ∀ i rs, ∃ e, returned (f task i rs) = Raise e.

(** On [task] the callable does not write the task's retry counter. *)
Definition keeps_retry_counter
    (f : Task → WorkflowInstance.t → list TaskResult.t → Effect)
    (task : Task) : Prop :=
  ∀ i rs,
    dict_lookup (retry_key task) (new_variables (f task i rs))
      = dict_lookup (retry_key task) (WorkflowInstance.variables i).

(** On [task] the callable returns a value whatever the instance looks
    like. *)
Definition always_returns
    (f : Task → WorkflowInstance.t → list TaskResult.t → Effect)
    (task : Task) : Prop :=
  ∀ i rs, ∃ v, returned (f task i rs) = Ok v.

(** The run with one instance variable rebound. *)
Definition with_variable (key : string) (v : Value) (r : Run) : Run :=
  Run.mk
    (WorkflowInstance.set_variables
       (dict_set key v (WorkflowInstance.variables (Run.instance r)))
       (Run.instance r))
    (Run.results r) (Run.clock r) (Run.invoked r).

(** ** Concrete task lists used in the examples below *)

Definition plain_task (id name : string) (deps : list string) : Task :=
  Task.mk id name API_CALL [] deps [] None.

(** Two different tasks carrying the same identifier. *)
Definition twin_first : Task := plain_task "a" "first" [].
Definition twin_second : Task := plain_task "a" "second" [].
Definition twins : list Task := [twin_first; twin_second].

(** The same shape with a third, unrelated task. *)
Definition twins_and_other : list Task :=
  [twin_first; plain_task "b" "other" []; twin_second].

(** [report] depends on [fetch], listed after it. *)
Definition fetch : Task := plain_task "fetch" "Fetch" [].
Definition report : Task := plain_task "report" "Report" ["fetch"].
Definition report_then_fetch : list Task := [report; fetch].

(** ** A concrete engine used in the examples below *)

(** Stand-ins for the abstract handlers: one that returns [None], one that
    raises; neither touches the instance. *)
Definition quiet_handler
  : Task → WorkflowInstance.t → list TaskResult.t → Effect :=
  λ _ i _, mkEffect (WorkflowInstance.variables i) (WorkflowInstance.status i)
             (Ok VNone).

Definition failing_handler
  : Task → WorkflowInstance.t → list TaskResult.t → Effect :=
  λ _ i _, mkEffect (WorkflowInstance.variables i) (WorkflowInstance.status i)
             (Raise (mkExn OtherException "boom")).

Definition default_handlers : gmap TaskType Handler :=
  _register_default_handlers
    quiet_handler quiet_handler quiet_handler quiet_handler quiet_handler.

Definition TaskType_of_value (s : string) : option TaskType :=
  List.find (λ ty, bool_decide (TaskType_value ty = s))
    [API_CALL; TRANSFORMATION; DECISION; NOTIFICATION;
     HUMAN_TASK; SCRIPT; PARALLEL; SEQUENCE].

Definition strings_of (v : Value) : list string :=
  match v with
  | VList xs => omap (λ x, match x with VStr s => Some s | _ => None end) xs
  | _ => []
  end.

Definition dict_of (v : Value) : Dict :=
  match v with VDict d => d | _ => [] end.

(** A stand-in for the pydantic constructor, for sub-task descriptors whose
    fields already have the declared types. *)
Definition decode_task (d : Dict) : Result Task :=
  match dict_lookup "id" d, dict_lookup "name" d, dict_lookup "type" d with
  | Some (VStr id), Some (VStr name), Some (VStr ty) =>
      match TaskType_of_value ty with
      | Some ty =>
          Ok (Task.mk id name ty
                (dict_of (dict_get d "config" VNone))
                (strings_of (dict_get d "dependencies" VNone))
                (dict_of (dict_get d "retry_policy" VNone))
                None)
      | None => Raise (mkExn ValidationError "type: not a valid enumeration member")
      end
  | _, _, _ => Raise (mkExn ValidationError "field required")
  end.

(** A stack with room for 64 nested calls of [visit], ample for the
    processes of the examples. *)
Definition ample_depth : nat := 64.

Definition empty_world : World :=
  mkWorld (WorkflowEngine.mk ∅ ∅ default_handlers) [] 0 [] [].

Definition empty_instance : WorkflowInstance.t :=
  WorkflowInstance.mk "p_0" "p" RUNNING [] ∅ 0 0.

Definition empty_run : Run := Run.mk empty_instance [] 0 [].

(** A process whose only task is a human task: the engine registers no
    handler for that type. *)
Definition approval : Task :=
  Task.mk "approve" "Approve" HUMAN_TASK [] [] [] None.

Definition approval_process : ProcessDefinition.t :=
  ProcessDefinition.mk "p" "Approval" "1.0.0" None [approval] [] [] [].

(** The approval process registered and started on a fresh engine; the
    instance run is scheduled and not yet started. *)
Definition approval_world : World :=
  (start_process "p" None (register_process approval_process empty_world)).2.

(** A task of a type that this engine handles with [failing_handler],
    to be retried twice without delay. *)
Definition flaky : Task :=
  Task.mk "flaky" "Flaky" SCRIPT [] []
    [("max_retries", VInt 2); ("delay", VInt 0)] None.

Definition handlers_with_failing_script : gmap TaskType Handler :=
  <[SCRIPT := Callable failing_handler]> default_handlers.


Definition fails_when_marked
  : Task → WorkflowInstance.t → list TaskResult.t → Effect :=
  λ _ i _,
    mkEffect (WorkflowInstance.variables i) (WorkflowInstance.status i)
      (match dict_lookup "marked" (WorkflowInstance.variables i) with
       | Some _ => Raise (mkExn OtherException "marked")
       | None => Ok VNone
       end).


(** A sequence of three sub-tasks: a notification, a script, a notification. *)
Definition descriptor (id name ty : string) : Dict :=
  [("id", VStr id); ("name", VStr name); ("type", VStr ty)].

Definition step_a : Task := Task.mk "a" "A" NOTIFICATION [] [] [] None.
Definition step_b : Task := Task.mk "b" "B" SCRIPT [] [] [] None.
Definition step_c : Task := Task.mk "c" "C" NOTIFICATION [] [] [] None.


(** The condition of the specification's example, with the literal [0.5] as
    right operand, and the same comparison with the threshold held in a
    variable. *)
Definition score_above_literal : Dict :=
  [("operator", VStr "gt"); ("left", VStr "$score"); ("right", VFloat 0.5)].

Definition score_above_threshold : Dict :=
  [("operator", VStr "gt"); ("left", VStr "$score"); ("right", VStr "$threshold")].

(** Two tasks of the list, at different positions, carry the same
    identifier. *)
Definition has_duplicate_id (tasks : list Task) : Prop :=
  ∃ i j t u, i ≠ j ∧ tasks !! i = Some t ∧ tasks !! j = Some u ∧
             Task.id t = Task.id u.

(** A second definition registered under the identifier of
    [approval_process]. *)
Definition approval_process_v2 : ProcessDefinition.t :=
  ProcessDefinition.mk "p" "Approval, revised" "2.0.0" None [] [] [] [].

(** A run whose instance already holds a retry counter for [flaky], as a
    caller can arrange through the variables given to [start_process]. *)
Definition seeded_run : Run :=
  Run.mk (WorkflowInstance.mk "p_0" "p" RUNNING [("flaky_retries", VInt 2)] ∅ 0 0)
    [] 0 [].

(** Two tasks that name each other as dependency. *)
Definition ping : Task := plain_task "ping" "Ping" ["pong"].
Definition pong : Task := plain_task "pong" "Pong" ["ping"].

(** The process of [report_then_fetch], registered and started on a fresh
    engine. *)
Definition report_process : ProcessDefinition.t :=
  ProcessDefinition.mk "r" "Report" "1.0.0" None report_then_fetch [] [] [].

Definition report_world : World :=
  (start_process "r" None (register_process report_process empty_world)).2.

(** ** Further vocabulary for the scheduler *)

(** The list is already in execution order: a dependency that names a task
    of the list names one standing at a smaller index. *)
Definition dependencies_earlier (tasks : list Task) : Prop :=
  ∀ i t d w, tasks !! i = Some t → d ∈ Task.dependencies t →
             find_task tasks d = Some w →
             ∃ j, j < i ∧ tasks !! j = Some w.

(** [fetch] listed before [report], which depends on it. *)
Definition fetch_then_report : list Task := [fetch; report].

(** ** Further vocabulary for the executor *)

(** Every result object of [b] is still there, unchanged, in [r]. *)
Definition results_kept (b r : Run) : Prop :=
  ∀ i x, Run.results b !! i = Some x → Run.results r !! i = Some x.

(** Every recorded reference points to an allocated result object. *)
Definition refs_valid (r : Run) : Prop :=
  ∀ k ref, WorkflowInstance.task_results (Run.instance r) !! k = Some ref →
           ref < length (Run.results r).

(** How a run may differ from an earlier run [b] of the same instance. *)
Record evolves (b r : Run) : Prop := {
  ev_results : results_kept b r;
  ev_invoked : Run.invoked b `prefix_of` Run.invoked r;
  ev_clock : Run.clock b ≤ Run.clock r;
  ev_id : WorkflowInstance.id (Run.instance r) = WorkflowInstance.id (Run.instance b);
  ev_process :
    WorkflowInstance.process_id (Run.instance r)
      = WorkflowInstance.process_id (Run.instance b);
  ev_created :
    WorkflowInstance.created_at (Run.instance r)
      = WorkflowInstance.created_at (Run.instance b);
  ev_recorded :
    dom (WorkflowInstance.task_results (Run.instance b))
      ⊆ dom (WorkflowInstance.task_results (Run.instance r));
  ev_valid : refs_valid b → refs_valid r
}.

(** A settled status: what [_execute_task] leaves in the result it returns. *)
Definition settled (s : TaskStatus) : Prop :=
  s = SKIPPED ∨ s = COMPLETED ∨ s = FAILED.

(** Partial correctness of an executor computation: from a run satisfying
    [P], a normal return satisfies [Q] and an exception satisfies [E]. *)
Definition hoare {A : Type} (P : Run → Prop) (m : M A)
    (Q : A → Run → Prop) (E : Exn → Run → Prop) : Prop :=
  ∀ r res r', P r → m r = Some (res, r') →
              match res with Ok a => Q a r' | Raise e => E e r' end.

Section executor_phases.
Context (format_TaskType : TaskType → string).
Context (Task_new : Dict → Result Task).
Context (task_handlers : gmap TaskType Handler).

(** The body of the [try] block of [_execute_task]: handler lookup and
    call. *)
Definition handler_phase (execute_task : Task → M nat) (task : Task) : M Output :=
  match task_handlers !! Task.type task with
  | None =>
      raise (mkExn ValueError
               ("No handler for task type " +:+ format_TaskType (Task.type task)))
  | Some handler => call_handler Task_new execute_task handler task
  end.

End executor_phases.

(** The run when [_execute_task] enters its [try] block for [task]: the
    [RUNNING] result is allocated and recorded. *)
Definition try_entered (task : Task) (r : Run) : Run :=
  Run.mk
    (WorkflowInstance.set_task_results
       (<[Task.id task := length (Run.results r)]>
          (WorkflowInstance.task_results (Run.instance r)))
       (Run.instance r))
    (Run.results r ++
       [TaskResult.mk RUNNING (OValue VNone) None (Some (Run.clock r)) None])
    (S (Run.clock r))
    (Run.invoked r).

(** The run when [_execute_task] returns early because of an unmet
    dependency. *)
Definition skipped_run (task : Task) (r : Run) : Run :=
  Run.mk
    (WorkflowInstance.set_task_results
       (<[Task.id task := length (Run.results r)]>
          (WorkflowInstance.task_results (Run.instance r)))
       (Run.instance r))
    (Run.results r ++ [TaskResult.mk SKIPPED (OValue VNone) None None None])
    (Run.clock r)
    (Run.invoked r).

(** The three assignments to the result object after the handler call. *)
Definition settle (ref : nat) (outcome : Result Output) (r : Run) : Run :=
  Run.mk (Run.instance r)
    (alter (TaskResult.set_completed_at (Run.clock r)) ref
       (match outcome with
        | Ok output =>
            alter (TaskResult.set_output output) ref
              (alter (TaskResult.set_status COMPLETED) ref (Run.results r))
        | Raise e =>
            alter (TaskResult.set_error (exn_str e)) ref
              (alter (TaskResult.set_status FAILED) ref (Run.results r))
        end))
    (S (Run.clock r))
    (Run.invoked r).

(** A handler that raises until the retry counter of [flaky] is set, and
    returns from then on. *)
Definition recovering_handler
  : Task → WorkflowInstance.t → list TaskResult.t → Effect :=
  λ _ i _,
    mkEffect (WorkflowInstance.variables i) (WorkflowInstance.status i)
      (match dict_lookup "flaky_retries" (WorkflowInstance.variables i) with
       | Some _ => Ok (VStr "recovered")
       | None => Raise (mkExn OtherException "boom")
       end).

Definition handlers_with_recovering_script : gmap TaskType Handler :=
  <[SCRIPT := Callable recovering_handler]> default_handlers.

(** A task retried on the default policy values: the policy only sets the
    delay. *)
Definition flaky_default : Task :=
  Task.mk "flaky" "Flaky" SCRIPT [] [] [("delay", VInt 0)] None.

(** A task retried on the default number of retries, half a minute
    apart. *)
Definition flaky_slow : Task :=
  Task.mk "flaky" "Flaky" SCRIPT [] [] [("delay", VInt 30)] None.

(** A task whose delay between retries is an [int] beyond every [float]. *)
Definition flaky_oversized : Task :=
  Task.mk "flaky" "Flaky" SCRIPT [] [] [("delay", VInt (10 ^ 400))] None.

(** A task whose retry policy gives [max_retries] as a string. *)
Definition flaky_text : Task :=
  Task.mk "flaky" "Flaky" SCRIPT [] [] [("max_retries", VStr "2")] None.

(** A handler that cancels the instance and returns. *)
Definition cancelling_handler
  : Task → WorkflowInstance.t → list TaskResult.t → Effect :=
  λ _ i _, mkEffect (WorkflowInstance.variables i) CANCELLED (Ok VNone).

Definition handlers_with_cancelling_script : gmap TaskType Handler :=
  <[SCRIPT := Callable cancelling_handler]> default_handlers.

Definition terminal (s : TaskStatus) : Prop :=
  s = COMPLETED ∨ s = CANCELLED ∨ s = FAILED.

(** The run after the first, failing attempt of [flaky] under
    [recovering_handler] and the increment of its retry counter, and the run
    after the retry that succeeds. *)
Definition flaky_first_failure : Run :=
  with_variable "flaky_retries" (VInt 1)
    (attempt_settled flaky empty_run
       (attempt_effect recovering_handler flaky empty_run)
       (failed_result empty_run (mkExn OtherException "boom"))).

Definition flaky_recovered : Run :=
  attempt_settled flaky flaky_first_failure
    (attempt_effect recovering_handler flaky flaky_first_failure)
    (completed_result flaky_first_failure (VStr "recovered")).

(** A process whose first task cancels the instance; a second task
    follows. *)
Definition stop_task : Task := Task.mk "stop" "Stop" SCRIPT [] [] [] None.

Definition stop_process : ProcessDefinition.t :=
  ProcessDefinition.mk "s" "Stop" "1.0.0" None [stop_task; fetch] [] [] [].

Definition stop_world : World :=
  (start_process "s" None
     (register_process stop_process
        (mkWorld (WorkflowEngine.mk ∅ ∅ handlers_with_cancelling_script)
           [] 0 [] []))).2.

(** The world after the run of the approval instance. *)
Definition approval_done : World :=
  (default (Ok tt, approval_world)
     (_execute_instance TaskType_value decode_task ample_depth 1 "p_0" approval_world)).2.

(** A sequence whose first sub-task waits for a task that never ran and
    whose second sub-task has no dependency. *)
Definition step_waiting : Task :=
  Task.mk "w" "W" NOTIFICATION [] ["missing"] [] None.

Definition waiting_descriptor : Dict :=
  [("id", VStr "w"); ("name", VStr "W"); ("type", VStr "notification");
   ("dependencies", VList [VStr "missing"])].

Definition wait_then_step : Task :=
  Task.mk "steps" "Steps" SEQUENCE
    [("tasks", VList [VDict waiting_descriptor;
                      VDict (descriptor "a" "A" "notification")])]
    [] [] None.

(** A sequence of two notifications. *)
Definition two_steps : Task :=
  Task.mk "steps" "Steps" SEQUENCE
    [("tasks", VList (VDict <$> [descriptor "a" "A" "notification";
                                 descriptor "c" "C" "notification"]))]
    [] [] None.

(** A sequence whose sub-tasks are given by name instead of by descriptor. *)
Definition steps_by_name : Task :=
  Task.mk "steps" "Steps" SEQUENCE
    [("tasks", VList [VStr "a"; VStr "b"])] [] [] None.

(** A process with default variables, started with a caller's variables
    that rebind one default and add a name. *)
Definition triage_process : ProcessDefinition.t :=
  ProcessDefinition.mk "t" "Triage" "1.0.0" None [approval]
    [("threshold", VInt 5); ("unit", VStr "mmol")] [] [].

Definition triage_registered : World :=
  register_process triage_process empty_world.

Definition triage_variables : Dict :=
  [("threshold", VInt 9); ("patient", VStr "p1")].

(** The approval instance in the state a handler sees it, [RUNNING]. *)
Definition approval_running : World :=
  mkWorld
    (WorkflowEngine.mk
       (WorkflowEngine.processes (engine approval_world))
       (WorkflowInstance.set_status RUNNING <$>
          WorkflowEngine.instances (engine approval_world))
       (WorkflowEngine.task_handlers (engine approval_world)))
    (objects approval_world) (time approval_world) (calls approval_world)
    (scheduled approval_world).

(** A process whose first task fails and declares a textual [max_retries]. *)
Definition flaky_text_process : ProcessDefinition.t :=
  ProcessDefinition.mk "f" "Flaky" "1.0.0" None [flaky_text; approval] [] [] [].

Definition flaky_text_world : World :=
  (start_process "f" None
     (register_process flaky_text_process
        (mkWorld (WorkflowEngine.mk ∅ ∅ handlers_with_failing_script)
           [] 0 [] []))).2.

(** ** Further vocabulary for conditions *)

(** The four operator names that [_evaluate_condition] maps to an ordering
    comparison. *)
Definition ordering_operator (name : string) : option CmpOp :=
  if decide (name = "gt") then Some OpGt
  else if decide (name = "lt") then Some OpLt
  else if decide (name = "gte") then Some OpGe
  else if decide (name = "lte") then Some OpLe
  else None.

(** The condition of the clinical decision example: a score held in a
    variable against a threshold written as text. *)
Definition risk_above_text : Dict :=
  [("operator", VStr "gt"); ("left", VStr "$risk_score"); ("right", VStr "0.8")].

(** ** The transformation handler *)

(** [s.split(sep)] for a one-character separator: the first piece and the
    pieces after it. *)
Fixpoint split_first (sep : Ascii.ascii) (s : string) : string * list string :=
  match s with
  | EmptyString => (EmptyString, [])
  | String c s' =>
      let '(p, ps) := split_first sep s' in
      if decide (c = sep) then (EmptyString, p :: ps) else (String c p, ps)
  end.

Definition str_split (sep : Ascii.ascii) (s : string) : list string :=
  let '(p, ps) := split_first sep s in p :: ps.

Definition dot : Ascii.ascii := Ascii.ascii_of_nat 46.

(** The loop of [_get_variable]: step into dictionaries part by part; a
    value that is not a dictionary ends the walk with [None]. *)
Fixpoint get_path (parts : list string) (value : Value) : Value :=
  match parts with
  | [] => value
  | part :: parts' =>
      match value with
      | VDict d => get_path parts' (dict_get d part VNone)
      | _ => VNone
      end
  end.

(** [WorkflowEngine._get_variable].  The parameter is annotated [path: str];
    the method calls [path.split], which only a string has. *)
Definition _get_variable (instance : WorkflowInstance.t) (path : Value)
  : Result Value :=
  match path with
  | VStr s =>
      Ok (get_path (str_split dot s) (VDict (WorkflowInstance.variables instance)))
  | _ => Raise (no_attribute path "split")
  end.

(** [v.get(key)] on a value that may not be a dictionary. *)
Definition py_get (v : Value) (key : string) (default : Value) : Result Value :=
  match v with
  | VDict d => Ok (dict_get d key default)
  | _ => Raise (no_attribute v "get")
  end.

(** [WorkflowEngine._transform_to_fhir] *)
Definition _transform_to_fhir (data transform : Value) : Value := data.

(** [WorkflowEngine._handle_transformation] *)
Definition _handle_transformation (task : Task) (instance : WorkflowInstance.t)
  : Result Value :=
  let config := Task.config task in
  let input_path := dict_get config "input" (VStr "") in
  let transform := dict_get config "transform" (VDict []) in
  input_data ← _get_variable instance input_path;
  type ← py_get transform "type" VNone;
  if py_eq type (VStr "fhir_mapping")
  then Ok (_transform_to_fhir input_data transform)
  else Ok input_data.

(** The transformation handler as an entry of [task_handlers]: it leaves the
    instance as it is. *)
Definition transformation_callable
  : Task → WorkflowInstance.t → list TaskResult.t → Effect :=
  λ task i _,
    mkEffect (WorkflowInstance.variables i) (WorkflowInstance.status i)
      (_handle_transformation task i).

(** The string has no occurrence of the character. *)
Fixpoint mentions (c : Ascii.ascii) (s : string) : bool :=
  match s with
  | EmptyString => false
  | String c' s' => bool_decide (c' = c) || mentions c s'
  end.

(** The default handlers with the transformation handler in its place. *)
Definition handlers_with_transformation : gmap TaskType Handler :=
  _register_default_handlers
    quiet_handler transformation_callable quiet_handler quiet_handler
    quiet_handler.

(** An instance holding a nested variable, and the risk assessment of the
    chronic care example reading from it. *)
Definition patient_instance : WorkflowInstance.t :=
  WorkflowInstance.mk "c_0" "c" RUNNING
    [("patient", VDict [("age", VInt 42)]); ("patient.age", VInt 7)] ∅ 0 0.

Definition patient_run : Run := Run.mk patient_instance [] 0 [].

Definition risk_assessment : Task :=
  Task.mk "ai-risk-assessment" "AI Risk Assessment" TRANSFORMATION
    [("input", VStr "patient.age");
     ("transform", VDict [("type", VStr "ai_risk_prediction");
                          ("model", VStr "chronic-disease-predictor")])]
    [] [] None.

(** ** The decision handler *)

Definition unhashable (v : Value) : Exn :=
  mkExn TypeError ("unhashable type: '" +:+ type_name v +:+ "'").

(** [WorkflowEngine._execute_action], on the instance's variables.  The
    variables are a dictionary with string keys here, so the assignment
    [instance.variables[var_name] = value] is covered for a [var_name] that
    is a string, and for a list or a dictionary, which Python refuses as a
    key; for any other [var_name] the result is [None]: the dictionary it
    gives has a key that is not a string. *)
Definition _execute_action (action : Value) (variables : Dict)
  : option (Result unit * Dict) :=
  match action with
  | VDict a =>
      let action_type := dict_get a "type" (VStr "") in
      if py_eq action_type (VStr "set_variable") then
        let var_name := dict_get a "variable" (VStr "") in
        let value := dict_get a "value" (VStr "") in
        match var_name with
        | VStr name => Some (Ok tt, dict_set name value variables)
        | VList _ | VDict _ => Some (Raise (unhashable var_name), variables)
        | _ => None
        end
      else Some (Ok tt, variables)
  | _ => Some (Raise (no_attribute action "get"), variables)
  end.

(** [for action in actions: await self._execute_action(action, instance)] *)
Fixpoint run_actions (actions : list Value) (variables : Dict)
  : option (Result unit * Dict) :=
  match actions with
  | [] => Some (Ok tt, variables)
  | action :: rest =>
      match _execute_action action variables with
      | Some (Ok _, variables') => run_actions rest variables'
      | Some (Raise e, variables') => Some (Raise e, variables')
      | None => None
      end
  end.

(** [self._evaluate_condition(condition, instance.variables)] for whatever
    the rule holds as its condition: the method calls [condition.get]. *)
Definition evaluate_rule_condition (condition : Value) (variables : Dict)
  : Result bool :=
  match condition with
  | VDict c => _evaluate_condition c variables
  | _ => Raise (no_attribute condition "get")
  end.

(** The loop over the rules of [_handle_decision]. *)
Fixpoint decision_loop (rules : list Value) (variables : Dict)
  : option (Result Value * Dict) :=
  match rules with
  | [] => Some (Ok (VBool false), variables)
  | rule :: rest =>
      match
        (condition ← py_get rule "condition" (VDict []);
         evaluate_rule_condition condition variables)
      with
      | Raise e => Some (Raise e, variables)
      | Ok false => decision_loop rest variables
      | Ok true =>
          match (actions ← py_get rule "actions" (VList []); py_iter actions) with
          | Raise e => Some (Raise e, variables)
          | Ok actions =>
              match run_actions actions variables with
              | Some (Ok _, variables') => Some (Ok (VBool true), variables')
              | Some (Raise e, variables') => Some (Raise e, variables')
              | None => None
              end
          end
      end
  end.

(** [WorkflowEngine._handle_decision], on the instance's variables: what it
    returns or raises, and the variables it leaves. *)
Definition _handle_decision (task : Task) (variables : Dict)
  : option (Result Value * Dict) :=
  match py_iter (dict_get (Task.config task) "rules" (VList [])) with
  | Raise e => Some (Raise e, variables)
  | Ok rules => decision_loop rules variables
  end.

(** What an action does to the variables: a [set_variable] action with a
    string name binds it, an action of any other type does nothing. *)
Inductive action_binds : Value → list (string * Value) → Prop :=
| binds_variable (a : Dict) (name : string) :
    dict_get a "type" (VStr "") = VStr "set_variable" →
    dict_get a "variable" (VStr "") = VStr name →
    action_binds (VDict a) [(name, dict_get a "value" (VStr ""))]
| binds_nothing (a : Dict) :
    py_eq (dict_get a "type" (VStr "")) (VStr "set_variable") = false →
    action_binds (VDict a) [].

(** The rule's condition evaluates to [outcome] on the variables. *)
Definition rule_evaluates (variables : Dict) (outcome : Result bool)
    (rule : Dict) : Prop :=
  ∃ c, dict_get rule "condition" (VDict []) = VDict c ∧
       _evaluate_condition c variables = outcome.

(** The decision task of the chronic care example, and the same rules with
    every operand held in a variable. *)
Definition clinical_decision : Task :=
  Task.mk "clinical-decision" "Clinical Decision Support" DECISION
    [("rules",
      VList
        [VDict
           [("condition",
             VDict [("operator", VStr "gt"); ("left", VStr "$risk_score");
                    ("right", VStr "0.8")]);
            ("actions",
             VList
               [VDict [("type", VStr "notification");
                       ("template", VStr "high_risk_alert")];
                VDict [("type", VStr "set_variable");
                       ("variable", VStr "priority");
                       ("value", VStr "urgent")]])];
         VDict
           [("condition",
             VDict [("operator", VStr "gt"); ("left", VStr "$risk_score");
                    ("right", VStr "0.6")]);
            ("actions",
             VList
               [VDict [("type", VStr "set_variable");
                       ("variable", VStr "priority");
                       ("value", VStr "moderate")]])]])]
    ["ai-risk-assessment"] [] None.

Definition urgent_rule : Dict :=
  [("condition",
    VDict [("operator", VStr "gt"); ("left", VStr "$risk_score");
           ("right", VStr "$high")]);
   ("actions",
    VList
      [VDict [("type", VStr "notification");
              ("template", VStr "high_risk_alert")];
       VDict [("type", VStr "set_variable");
              ("variable", VStr "priority");
              ("value", VStr "urgent")]])].

Definition moderate_rule : Dict :=
  [("condition",
    VDict [("operator", VStr "gt"); ("left", VStr "$risk_score");
           ("right", VStr "$medium")]);
   ("actions",
    VList
      [VDict [("type", VStr "set_variable");
              ("variable", VStr "priority");
              ("value", VStr "moderate")]])].

Definition graded_decision : Task :=
  Task.mk "clinical-decision" "Clinical Decision Support" DECISION
    [("rules", VList [VDict urgent_rule; VDict moderate_rule])]
    [] [] None.

Definition moderate_risk : Dict :=
  [("risk_score", VFloat 0.7); ("high", VFloat 0.8); ("medium", VFloat 0.6)].

Definition low_risk : Dict :=
  [("risk_score", VFloat 0.2); ("high", VFloat 0.8); ("medium", VFloat 0.6)].

(** ** Variable substitution *)

(** [s.replace(old, new)] for a non-empty [old]: the occurrences of [old]
    are found from left to right and do not overlap.  [skip] counts the
    characters of a matched occurrence still to be passed over. *)
Fixpoint replace_from (old new : string) (skip : nat) (s : string) : string :=
  match s with
  | EmptyString => EmptyString
  | String c s' =>
      match skip with
      | S k => replace_from old new k s'
      | O =>
          if String.prefix old (String c s')
          then new +:+ replace_from old new (String.length old - 1) s'
          else String c (replace_from old new 0 s')
      end
  end.

(** [s.replace(old, new)] for the empty [old] puts [new] before every
    character and at the end. *)
Fixpoint interleave (new s : string) : string :=
  match s with
  | EmptyString => new
  | String c s' => new +:+ String c (interleave new s')
  end.

(** [s.replace(old, new)] *)
Definition str_replace (old new s : string) : string :=
  match old with
  | EmptyString => interleave new s
  | String _ _ => replace_from old new 0 s
  end.

(** The text that stands for the variable [key] in a template. *)
Definition placeholder (key : string) : string := "${" +:+ key +:+ "}".

Section substitution.

(** [str(value)], which the interpreter decides. *)
Context (py_str : Value → string).

(** The loop over [variables.items()] on a string template. *)
Definition substitute_text (variables : Dict) (template : string) : string :=
  fold_left (λ t kv, str_replace (placeholder kv.1) (py_str kv.2) t)
    variables template.

(** [WorkflowEngine._substitute_variables] *)
Fixpoint _substitute_variables (template : Value) (variables : Dict) : Value :=
  match template with
  | VStr s => VStr (substitute_text variables s)
  | VDict d =>
      VDict (List.map (λ kv, (kv.1, _substitute_variables kv.2 variables)) d)
  | VList xs => VList (List.map (λ x, _substitute_variables x variables) xs)
  | _ => template
  end.

End substitution.

(** [old] occurs somewhere in [s]. *)
Fixpoint occurs (old s : string) : bool :=
  String.prefix old s ||
  match s with
  | EmptyString => false
  | String _ s' => occurs old s'
  end.

(** No string of the template, at any depth, contains [${]. *)
Fixpoint placeholder_free (template : Value) : bool :=
  match template with
  | VStr s => negb (occurs "${" s)
  | VDict d => forallb (λ kv, placeholder_free kv.2) d
  | VList xs => forallb placeholder_free xs
  | _ => true
  end.

Definition dollar : Ascii.ascii := Ascii.ascii_of_nat 36.
Definition closing_brace : Ascii.ascii := Ascii.ascii_of_nat 125.

(** A variable name that can stand in a placeholder without ambiguity. *)
Definition plain_name (key : string) : Prop :=
  mentions dollar key = false ∧ mentions closing_brace key = false.

(** A stand-in for [str] on the values the examples substitute: strings,
    integers, booleans and [None]. *)
Definition display (v : Value) : string :=
  match v with
  | VStr s => s
  | VInt n => pretty n
  | VBool true => "True"
  | VBool false => "False"
  | _ => "None"
  end.

(** The request body of an API call and the variables it is filled from. *)
Definition order_body : Value :=
  VDict [("resourceType", VStr "Observation");
         ("subject", VStr "Patient/${patient_id}");
         ("codes", VList [VStr "8867-4"; VInt 3])].

Definition order_variables : Dict :=
  [("physician", VStr "dr-7"); ("patient_id", VStr "p1"); ("ward", VInt 4)].

(** Induction on values that reaches into lists and dictionaries. *)
Section Value_induction.
Context (P : Value → Prop).
Context (HNone : P VNone) (HBool : ∀ b, P (VBool b)) (HInt : ∀ n, P (VInt n)).
Context (HFloat : ∀ x, P (VFloat x)) (HStr : ∀ s, P (VStr s)).
Context (HList : ∀ xs, Forall P xs → P (VList xs)).
Context (HDict : ∀ d, Forall (λ kv, P kv.2) d → P (VDict d)).

Fixpoint Value_nested_ind (v : Value) : P v :=
  match v with
  | VNone => HNone
  | VBool b => HBool b
  | VInt n => HInt n
  | VFloat x => HFloat x
  | VStr s => HStr s
  | VList xs =>
      HList xs
        ((fix go (xs : list Value) : Forall P xs :=
            match xs with
            | [] => @List.Forall_nil _ P
            | x :: xs' =>
                @List.Forall_cons _ P x xs' (Value_nested_ind x) (go xs')
            end) xs)
  | VDict d =>
      HDict d
        ((fix go (d : Dict) : Forall (λ kv, P kv.2) d :=
            match d with
            | [] => @List.Forall_nil _ (λ kv, P kv.2)
            | (k, x) :: d' =>
                @List.Forall_cons _ (λ kv, P kv.2) (k, x) d'
                  (Value_nested_ind x) (go d')
            end) d)
  end.

End Value_induction.

(** ** Vocabulary for the depth of the scheduler's recursion *)

(** Each task of the list depends on the task that follows it, and on
    nothing else. *)
Definition is_chain (tasks : list Task) : Prop :=
  ∀ i t, tasks !! i = Some t →
         Task.dependencies t
           = match tasks !! S i with Some u => [Task.id u] | None => [] end.

(** Three tasks in a chain: [load] needs [parse], which needs [read]. *)
Definition chain_of_three : list Task :=
  [plain_task "load" "Load" ["parse"]; plain_task "parse" "Parse" ["read"];
   plain_task "read" "Read" []].

(** A process without retry policies in which a script task fails and a
    human task has no handler. *)
Definition unlucky_process : ProcessDefinition.t :=
  ProcessDefinition.mk "q" "Unlucky" "1.0.0" None [step_b; approval] [] [] [].

Definition unlucky_world : World :=
  (start_process "q" None
     (register_process unlucky_process
        (mkWorld (WorkflowEngine.mk ∅ ∅ handlers_with_failing_script)
           [] 0 [] []))).2.

Definition unlucky_done : World :=
  (default (Ok tt, unlucky_world)
     (_execute_instance TaskType_value decode_task ample_depth 1 "q_0"
        unlucky_world)).2.

(** The chain of three tasks as a process, started. *)
Definition chain_process : ProcessDefinition.t :=
  ProcessDefinition.mk "c" "Chain" "1.0.0" None chain_of_three [] [] [].

Definition chain_world : World :=
  (start_process "c" None (register_process chain_process empty_world)).2.

(** A run in which [fetch] has completed, and that run after the
    execution of [flaky], whose handler fails on each of its three
    attempts. *)
Definition busy_run : Run :=
  Run.mk (WorkflowInstance.mk "p_0" "p" RUNNING [] {[ "fetch" := 0 ]} 0 0)
    [TaskResult.mk COMPLETED (OValue (VStr "fetched")) None (Some 0) (Some 1)]
    2 [fetch].

Definition busy_run_retried : Run :=
  (default (Ok 0, busy_run)
     (_execute_task TaskType_value decode_task handlers_with_failing_script 3
        flaky busy_run)).2.

(** * Theorems *)

(** ** Python values: a few readings *)

Example py_order_floats :
  py_order OpGt (VFloat 0.8) (VFloat 0.5) = Ok true ∧
  py_order OpGt (VFloat 0.3) (VFloat 0.5) = Ok false.
Proof. split; by vm_compute. Qed.

(** An [int] is compared with a [float] exactly: [2**53 + 1] is greater
    than [2.0**53], although rounding it to a float would give equality. *)
Example py_order_int_float :
  py_order OpGt (VInt 9007199254740993) (VFloat 9007199254740992) = Ok true ∧
  py_eq (VInt 9007199254740993) (VFloat 9007199254740992) = false ∧
  py_eq (VInt 1) (VFloat 1) = true ∧
  py_eq (VBool true) (VInt 1) = true ∧
  py_order OpLt (VInt 1) (VFloat 1.5) = Ok true.
Proof. split_and!; by vm_compute. Qed.

Example py_order_mixed :
  py_order OpGt (VFloat 0.8) (VStr "0.5")
    = Raise (mkExn TypeError
               "'>' not supported between instances of 'float' and 'str'") ∧
  py_order OpLt (VList [VInt 1; VInt 2]) (VList [VInt 1; VInt 3]) = Ok true ∧
  py_eq (VDict [("a", VInt 1); ("b", VInt 2)])
        (VDict [("b", VInt 2); ("a", VInt 1)]) = true.
Proof. split_and!; by vm_compute. Qed.






(** ** The scheduler *)

Lemma for_each_invariant {A S : Type} (P : S → Prop)
    (body : A → S → option S) (xs : list A) :
  (∀ x s s', x ∈ xs → P s → body x s = Some s' → P s') →
  ∀ s s', P s → for_each body xs s = Some s' → P s'.
Proof.
  induction xs as [|x xs IH]; intros Hbody s s' Hs Hrun; simpl in Hrun.
  - by simplify_eq.
  - destruct (body x s) as [s1|] eqn:Hx; [|done].
    apply (IH (λ y a b Hy, Hbody y a b (list_elem_of_further _ _ _ Hy)) s1 s');
      [|done].
    eapply Hbody; [apply list_elem_of_here|done..].
Qed.

Lemma for_each_total {A S : Type} (P : S → Prop)
    (body : A → S → option S) (xs : list A) :
  (∀ x s, x ∈ xs → P s → ∃ s', body x s = Some s' ∧ P s') →
  ∀ s, P s → ∃ s', for_each body xs s = Some s' ∧ P s'.
Proof.
  induction xs as [|x xs IH]; intros Hbody s Hs; simpl.
  - eauto.
  - destruct (Hbody x s (list_elem_of_here _ _) Hs) as (s1 & -> & Hs1).
    apply IH; [|done]. intros y a Hy. apply Hbody. by apply list_elem_of_further.
Qed.

Lemma for_each_ext {A S : Type} (body body' : A → S → option S) (xs : list A) :
  (∀ x s r, body x s = Some r → body' x s = Some r) →
  ∀ s r, for_each body xs s = Some r → for_each body' xs s = Some r.
Proof.
  intros Hext. induction xs as [|x xs IH]; intros s r; simpl; [done|].
  destruct (body x s) as [s1|] eqn:Hx; [|done].
  rewrite (Hext _ _ _ Hx). apply IH.
Qed.

Lemma find_task_Some tasks d w :
  find_task tasks d = Some w → w ∈ tasks ∧ Task.id w = d.
Proof.
  intros H. apply find_some in H as [Hin Hid].
  split; [by apply list_elem_of_In|]. by apply bool_decide_eq_true in Hid.
Qed.

Lemma find_task_distinct tasks u :
  distinct_ids tasks → u ∈ tasks → find_task tasks (Task.id u) = Some u.
Proof.
  unfold distinct_ids, find_task.
  induction tasks as [|t tasks IH]; intros Hnd Hu; [by apply elem_of_nil in Hu|].
  simpl in *. apply NoDup_cons in Hnd as [Hnotin Hnd].
  case_bool_decide as Heq.
  - apply elem_of_cons in Hu as [->|Hu]; [done|].
    exfalso. apply Hnotin. rewrite Heq. by apply list_elem_of_fmap_2.
  - apply elem_of_cons in Hu as [->|Hu]; [done|]. by apply IH.
Qed.

Lemma same_id_same_task tasks t u :
  distinct_ids tasks → t ∈ tasks → u ∈ tasks → Task.id t = Task.id u → t = u.
Proof.
  intros Hnd Ht Hu Hid.
  pose proof (find_task_distinct _ _ Hnd Ht) as H1.
  pose proof (find_task_distinct _ _ Hnd Hu) as H2.
  rewrite Hid in H1. congruence.
Qed.

(** More fuel never changes a result. *)
Lemma visit_fuel_mono tasks n :
  ∀ m t s r, n ≤ m → visit n tasks t s = Some r → visit m tasks t s = Some r.
Proof.
  induction n as [|n IH]; intros m t s r Hle Hrun; [done|].
  destruct m as [|m]; [lia|]. simpl in *.
  destruct (decide (Task.id t ∈ s.1)); [done|].
  match type of Hrun with
  | match ?loop with _ => _ end = _ => destruct loop as [s'|] eqn:Hloop; [|done]
  end.
  erewrite for_each_ext; [exact Hrun| |exact Hloop].
  intros d a b. simpl. destruct (find_task tasks d); [|done].
  apply IH. lia.
Qed.

(** The stack depth is bounded by the number of identifiers not yet
    visited, whatever the dependency graph looks like. *)
Lemma visit_enough_fuel tasks fuel :
  ∀ t s, size (task_ids tasks ∖ s.1) < fuel →
         Task.id t ∈ task_ids tasks →
         ∃ s', visit fuel tasks t s = Some s' ∧ s.1 ⊆ s'.1.
Proof.
  induction fuel as [|fuel IH]; intros t s Hfuel Ht; [lia|].
  simpl. destruct (decide (Task.id t ∈ s.1)) as [|Hnew]; [by eauto|].
  set (s1 := ({[Task.id t]} ∪ s.1, s.2)).
  assert (size (task_ids tasks ∖ s1.1) < fuel) as Hfuel1.
  { assert (task_ids tasks ∖ s1.1 ⊂ task_ids tasks ∖ s.1) as Hsub
      by (subst s1; simpl; set_solver).
    apply subset_size in Hsub. lia. }
  destruct (for_each_total (λ a, s1.1 ⊆ a.1)
              (λ dep_id a, match find_task tasks dep_id with
                           | Some dep_task => visit fuel tasks dep_task a
                           | None => Some a
                           end)
              (Task.dependencies t)) with (s := s1) as (s2 & -> & Hs2); [|done|].
  - intros d a _ Ha. destruct (find_task tasks d) as [w|] eqn:Hw; [|by eauto].
    apply find_task_Some in Hw as [Hw _].
    destruct (IH w a) as (a' & Hrun & Hsub).
    + assert (task_ids tasks ∖ a.1 ⊆ task_ids tasks ∖ s1.1) as Hle by set_solver.
      apply subseteq_size in Hle. lia.
    + unfold task_ids. apply elem_of_list_to_set. by apply list_elem_of_fmap_2.
    + exists a'. split; [done|]. set_solver.
  - eexists. split; [done|]. simpl. subst s1. simpl in Hs2. set_solver.
Qed.

Lemma for_each_post {A S : Type} (P : S → Prop) (R : relation S)
    `{!PreOrder R} (Q : A → S → Prop)
    (body : A → S → option S) (xs : list A) :
  (∀ x s s', x ∈ xs → P s → body x s = Some s' → P s' ∧ R s s' ∧ Q x s') →
  (∀ x s s', Q x s → R s s' → Q x s') →
  ∀ s s', P s → for_each body xs s = Some s' →
          P s' ∧ R s s' ∧ ∀ x, x ∈ xs → Q x s'.
Proof.
  intros Hbody Hmono. induction xs as [|x xs IH]; intros s s' Hs Hrun;
    simpl in Hrun.
  - simplify_eq. split_and!; [done..|]. intros x Hx. by apply elem_of_nil in Hx.
  - destruct (body x s) as [s1|] eqn:Hx; [|done].
    destruct (Hbody x s s1) as (Hs1 & HR1 & HQ1); [apply list_elem_of_here|done..|].
    destruct IH with (s := s1) (s' := s') as (Hs' & HR' & HQ'); [|done..|].
    { intros y a b Hy. apply Hbody. by apply list_elem_of_further. }
    split_and!; [done|by etrans|].
    intros y [->|Hy]%elem_of_cons; [by eapply Hmono|by apply HQ'].
Qed.

Lemma task_ids_snoc (order : list Task) (t : Task) :
  task_ids (order ++ [t]) = task_ids order ∪ {[Task.id t]}.
Proof.
  unfold task_ids. rewrite fmap_app, list_to_set_app_L. simpl. set_solver.
Qed.

Lemma elem_of_task_ids (order : list Task) (i : string) :
  i ∈ task_ids order ↔ ∃ u, u ∈ order ∧ Task.id u = i.
Proof.
  unfold task_ids. rewrite elem_of_list_to_set, list_elem_of_fmap. naive_solver.
Qed.

#[local] Instance prefix_on_order : PreOrder (λ a b : gset string * list Task, a.2 `prefix_of` b.2).
Proof. split; [by intros ?|]. intros a b c ??. by etrans. Qed.

(** [visit] keeps the invariant, only appends, and leaves its task visited;
    this needs no assumption on the dependency graph. *)
Lemma visit_inv tasks fuel :
  ∀ t s s' grey,
    visit fuel tasks t s = Some s' → t ∈ tasks → sched_inv tasks grey s →
    sched_inv tasks grey s' ∧ s.2 `prefix_of` s'.2 ∧ Task.id t ∈ s'.1.
Proof.
  induction fuel as [|fuel IH]; intros t s s' grey Hrun Ht Hinv; [done|].
  simpl in Hrun. destruct (decide (Task.id t ∈ s.1)) as [Hseen|Hnew].
  { by simplify_eq. }
  match type of Hrun with
  | match ?loop with _ => _ end = _ => destruct loop as [s2|] eqn:Hloop; [|done]
  end.
  simplify_eq. destruct Hinv as [Hv Hg Hnd Hin].
  apply (for_each_invariant
           (λ a, sched_inv tasks ({[Task.id t]} ∪ grey) a ∧ s.2 `prefix_of` a.2))
    in Hloop as [[Hv2 Hg2 Hnd2 Hin2] Hpre].
  - simpl in *. split_and!.
    + split; simpl.
      * rewrite task_ids_snoc, Hv2. set_solver.
      * rewrite task_ids_snoc. set_solver.
      * rewrite fmap_app. apply NoDup_app. split_and!; [done| |apply NoDup_singleton].
        intros i Hi ->%list_elem_of_singleton.
        apply (Hg2 (Task.id t)); [set_solver|].
        unfold task_ids. by apply elem_of_list_to_set.
      * intros u [Hu| ->%list_elem_of_singleton]%elem_of_app; auto.
    + by apply prefix_app_r.
    + rewrite Hv2. set_solver.
  - intros d a a' _ [Ha Hpa] Hbody.
    destruct (find_task tasks d) as [w|] eqn:Hw; [|by simplify_eq].
    apply find_task_Some in Hw as [Hw _].
    destruct (IH _ _ _ _ Hbody Hw Ha) as (Ha' & Hpre & _).
    split; [done|by etrans].
  - split; [|done]. split; simpl; [rewrite Hv; set_solver|set_solver|done..].
Qed.

(** What the scheduler returns for any task list, cyclic or not, and
    whether or not identifiers repeat. *)
Lemma get_execution_order_fuel_spec tasks fuel order :
  get_execution_order_fuel fuel tasks = Some order →
  NoDup (Task.id <$> order) ∧ (∀ u, u ∈ order → u ∈ tasks) ∧
  task_ids order = task_ids tasks.
Proof.
  unfold get_execution_order_fuel. intros Hrun.
  destruct (for_each (visit fuel tasks) tasks (∅, [])) as [s|] eqn:Hloop;
    [|done].
  simpl in Hrun. simplify_eq.
  apply (for_each_post (sched_inv tasks ∅) (λ a b, a.2 `prefix_of` b.2)
           (λ t a, Task.id t ∈ task_ids a.2)) in Hloop
    as ([Hv Hg Hnd Hin] & _ & Hall).
  - split_and!; [done..|]. apply set_eq. intros i. rewrite !elem_of_task_ids.
    split; [naive_solver|].
    intros (t & Ht & <-). apply elem_of_task_ids. by apply Hall.
  - intros t a a' Ht Ha Hbody.
    destruct (visit_inv _ _ _ _ _ _ Hbody Ht Ha) as (Ha' & Hpre & Hid).
    split_and!; [done..|]. destruct Ha' as [Hv' _ _ _]. rewrite Hv' in Hid.
    set_solver.
  - intros t a a' Hq [k Hk]. rewrite Hk, elem_of_task_ids in *.
    destruct Hq as (u & Hu & Hid). exists u. split; [|done].
    apply elem_of_app. by left.
  - split; simpl; [set_solver|set_solver|apply NoDup_nil_2|].
    intros u Hu. by apply elem_of_nil in Hu.
Qed.

Lemma size_task_ids_le tasks : size (task_ids tasks) ≤ length tasks.
Proof.
  unfold task_ids. induction tasks as [|t tasks IH].
  - rewrite fmap_nil, list_to_set_nil, size_empty. done.
  - rewrite fmap_cons, list_to_set_cons, size_union_alt, size_singleton.
    assert (size (list_to_set (Task.id <$> tasks) ∖ {[Task.id t]} : gset string)
            ≤ size (list_to_set (Task.id <$> tasks) : gset string)) as H3
      by (apply subseteq_size; set_solver).
    simpl. lia.
Qed.

Lemma get_execution_order_fuel_total tasks fuel :
  length tasks < fuel → is_Some (get_execution_order_fuel fuel tasks).
Proof.
  intros Hfuel. unfold get_execution_order_fuel.
  destruct (for_each_total (λ _, True) (visit fuel tasks) tasks)
    with (s := (∅ : gset string, [] : list Task)) as (s & -> & _); [|done|by eexists].
  intros t s Ht _.
  destruct (visit_enough_fuel tasks fuel t s) as (s' & -> & _); [| |by eauto].
  - assert (size (task_ids tasks ∖ s.1) ≤ size (task_ids tasks)) as H1
      by (apply subseteq_size; set_solver).
    pose proof (size_task_ids_le tasks). lia.
  - apply elem_of_task_ids. eauto.
Qed.

Lemma get_execution_order_fuel_mono tasks n m order :
  n ≤ m → get_execution_order_fuel n tasks = Some order →
  get_execution_order_fuel m tasks = Some order.
Proof.
  unfold get_execution_order_fuel. intros Hle Hrun.
  destruct (for_each (visit n tasks) tasks (∅, [])) as [s|] eqn:Hloop; [|done].
  erewrite for_each_ext; [exact Hrun| |exact Hloop].
  intros t a b. by apply visit_fuel_mono.
Qed.

Lemma distinct_ids_permutation tasks order :
  distinct_ids tasks →
  NoDup (Task.id <$> order) → (∀ u, u ∈ order → u ∈ tasks) →
  task_ids order = task_ids tasks →
  order ≡ₚ tasks.
Proof.
  intros Hd Hnd Hin Hids. apply NoDup_Permutation.
  - by apply NoDup_fmap_1 in Hnd.
  - by apply NoDup_fmap_1 in Hd.
  - intros t. split; [apply Hin|]. intros Ht.
    assert (Task.id t ∈ task_ids order) as (u & Hu & Hid)%elem_of_task_ids.
    { rewrite Hids. apply elem_of_task_ids. eauto. }
    by rewrite <- (same_id_same_task tasks u t Hd (Hin _ Hu) Ht Hid).
Qed.

Lemma closed_snoc tasks order t :
  closed tasks order →
  (∀ u, depends_on tasks t u → u ∈ order) →
  closed tasks (order ++ [t]).
Proof.
  intros Hc Hdeps j x u Hj Hdep.
  apply lookup_app_Some in Hj as [Hj|[Hlen Hj]].
  - destruct (Hc _ _ _ Hj Hdep) as (i & Hi & Hu).
    exists i. split; [done|]. by apply lookup_app_l_Some.
  - apply list_lookup_singleton_Some in Hj as [Hj ->].
    apply Hdeps, list_elem_of_lookup in Hdep as [i Hi].
    exists i. split; [|by apply lookup_app_l_Some].
    apply lookup_lt_Some in Hi. lia.
Qed.

Section acyclic_schedule.
Context (tasks : list Task).
Hypothesis Hdistinct : distinct_ids tasks.
Hypothesis Hacyclic : acyclic tasks.

(** On an acyclic list a dependency is never found on the call stack, so by
    the time a task is appended all its dependencies have been placed. *)
Lemma visit_closed fuel :
  ∀ t s s' grey,
    visit fuel tasks t s = Some s' → t ∈ tasks → sched_inv tasks grey s →
    closed tasks s.2 →
    (∀ g, g ∈ grey →
          ∃ a, a ∈ tasks ∧ Task.id a = g ∧ tc (depends_on tasks) a t) →
    closed tasks s'.2 ∧ t ∈ s'.2.
Proof.
  induction fuel as [|fuel IH]; intros t s s' grey Hrun Ht Hinv Hcl Hstack;
    [done|].
  simpl in Hrun. destruct (decide (Task.id t ∈ s.1)) as [Hseen|Hnew].
  { simplify_eq. split; [done|].
    rewrite (inv_visited _ _ _ Hinv) in Hseen.
    apply elem_of_union in Hseen as [Hg|Hplaced].
    - destruct (Hstack _ Hg) as (a & Ha & Hid & Hreach).
      apply (same_id_same_task tasks a t Hdistinct Ha Ht) in Hid as ->.
      by destruct (Hacyclic t).
    - apply elem_of_task_ids in Hplaced as (u & Hu & Hid).
      by rewrite <- (same_id_same_task tasks u t Hdistinct
                       (inv_tasks _ _ _ Hinv _ Hu) Ht Hid). }
  match type of Hrun with
  | match ?loop with _ => _ end = _ => destruct loop as [s2|] eqn:Hloop; [|done]
  end.
  simplify_eq. simpl.
  apply (for_each_post
           (λ a, sched_inv tasks ({[Task.id t]} ∪ grey) a ∧ closed tasks a.2)
           (λ a b, a.2 `prefix_of` b.2)
           (λ d a, ∀ w, find_task tasks d = Some w → w ∈ a.2))
    in Hloop as ([Hinv2 Hcl2] & _ & Hdeps).
  - split; [|apply elem_of_app; right; apply list_elem_of_here].
    apply closed_snoc; [done|].
    intros u (_ & Hu & Hid). eapply Hdeps; [done|].
    by apply find_task_distinct.
  - intros d a a' Hd [Ha Hca] Hbody.
    destruct (find_task tasks d) as [w|] eqn:Hfind; [|by simplify_eq].
    pose proof Hfind as [Hw Hwid]%find_task_Some.
    destruct (visit_inv _ _ _ _ _ _ Hbody Hw Ha) as (Ha' & Hpre & _).
    destruct (IH _ _ _ _ Hbody Hw Ha Hca) as [Hca' Hwin].
    { assert (depends_on tasks t w) as Hedge by (by rewrite <- Hwid in Hd).
      intros g [->%elem_of_singleton|Hg]%elem_of_union.
      - exists t. split_and!; [done..|]. by apply tc_once.
      - destruct (Hstack _ Hg) as (b & Hb & Hbid & Hreach).
        exists b. split_and!; [done..|]. by eapply tc_r. }
    split_and!; [done..|]. by intros ? [= <-].
  - intros d a a' Hq [k Hk] w Hw. rewrite Hk. apply elem_of_app. left. by apply Hq.
  - split; [|done]. destruct Hinv as [Hv Hg Hnd Hin].
    split; simpl; [rewrite Hv; set_solver|set_solver|done..].
Qed.

Lemma get_execution_order_fuel_closed fuel order :
  get_execution_order_fuel fuel tasks = Some order → closed tasks order.
Proof.
  unfold get_execution_order_fuel. intros Hrun.
  destruct (for_each (visit fuel tasks) tasks (∅, [])) as [s|] eqn:Hloop;
    [|done].
  simpl in Hrun. simplify_eq.
  apply (for_each_invariant (λ a, sched_inv tasks ∅ a ∧ closed tasks a.2))
    in Hloop as [_ Hcl]; [done| |].
  - intros t a a' Ht [Ha Hca] Hbody. split.
    + by destruct (visit_inv _ _ _ _ _ _ Hbody Ht Ha).
    + eapply visit_closed; [done..|]. intros g Hg. by apply elem_of_empty in Hg.
  - split.
    + split; simpl; [set_solver|set_solver|apply NoDup_nil_2|].
      intros u Hu. by apply elem_of_nil in Hu.
    + intros j t u Hj. simpl in Hj. by rewrite lookup_nil in Hj.
Qed.

End acyclic_schedule.

Lemma closed_tc tasks order :
  closed tasks order →
  ∀ t u, tc (depends_on tasks) t u →
         ∀ j, order !! j = Some t → ∃ i, i < j ∧ order !! i = Some u.
Proof.
  intros Hcl t u Hreach.
  induction Hreach as [t u Hedge|t w u Hedge _ IH]; intros j Hj.
  - by apply (Hcl _ _ _ Hj).
  - destruct (Hcl _ _ _ Hj Hedge) as (i & Hi & Hw).
    destruct (IH _ Hw) as (i' & Hi' & Hu).
    exists i'. split; [lia|done].
Qed.

Lemma tc_depends_on_source tasks t u :
  tc (depends_on tasks) t u → t ∈ tasks.
Proof. intros H. by destruct H as [?? [? _]|??? [? _]]. Qed.

Lemma closed_before tasks order :
  closed tasks order → (∀ t, t ∈ tasks → t ∈ order) →
  ∀ t u, tc (depends_on tasks) t u → before u t order.
Proof.
  intros Hcl Hall t u Hreach.
  pose proof (tc_depends_on_source _ _ _ Hreach) as [j Hj]%Hall%list_elem_of_lookup.
  destruct (closed_tc _ _ Hcl _ _ Hreach _ Hj) as (i & Hi & Hu).
  by exists i, j.
Qed.

Lemma acyclic_by_rank tasks (rank : Task → nat) :
  (∀ t u, depends_on tasks t u → rank u < rank t) → acyclic tasks.
Proof.
  intros Hrank t Hloop.
  assert (∀ a b, tc (depends_on tasks) a b → rank b < rank a) as Hlt.
  { intros a b H. induction H as [a b H|a b c H _ IH].
    - by apply Hrank.
    - apply Hrank in H. lia. }
  apply Hlt in Hloop. lia.
Qed.

Lemma acyclic_no_dependencies tasks :
  (∀ t, t ∈ tasks → Task.dependencies t = []) → acyclic tasks.
Proof.
  intros Hnone. apply (acyclic_by_rank _ (λ _, 0)).
  intros t u (Ht & _ & Hdep). rewrite (Hnone _ Ht) in Hdep.
  by apply elem_of_nil in Hdep.
Qed.

Lemma get_execution_order_Ok (depth : nat) (tasks order : list Task) :
  _get_execution_order depth tasks = Ok order
  ↔ get_execution_order_fuel depth tasks = Some order.
Proof.
  unfold _get_execution_order.
  destruct (get_execution_order_fuel depth tasks); split; congruence.
Qed.

Lemma get_execution_order_enough_depth (depth : nat) (tasks : list Task) :
  length tasks < depth →
  ∃ order, _get_execution_order depth tasks = Ok order.
Proof.
  intros Hdepth.
  destruct (get_execution_order_fuel_total tasks depth Hdepth) as [order Hrun].
  exists order. by apply get_execution_order_Ok.
Qed.

(** Whatever the depth, the scheduler either returns or raises
    [RecursionError]. *)
Lemma get_execution_order_Raise (depth : nat) (tasks : list Task) (e : Exn) :
  _get_execution_order depth tasks = Raise e →
  e = recursion_error ∧ get_execution_order_fuel depth tasks = None.
Proof.
  unfold _get_execution_order.
  destruct (get_execution_order_fuel depth tasks); [done|].
  by intros [= <-].
Qed.

(** On a chain of tasks with distinct identifiers, [visit] on the task at
    index [i] nests as deep as the rest of the chain is long. *)
Lemma visit_chain_too_deep (tasks : list Task) :
  distinct_ids tasks → is_chain tasks →
  ∀ fuel i t s,
    tasks !! i = Some t → fuel < length tasks - i →
    (∀ j u, i ≤ j → tasks !! j = Some u → Task.id u ∉ s.1) →
    visit fuel tasks t s = None.
Proof.
  intros Hdistinct Hchain. induction fuel as [|fuel IH]; intros i t s Ht Hfuel Hnew;
    [done|].
  cbn [visit]. rewrite decide_False by (by apply (Hnew i)).
  rewrite (Hchain _ _ Ht).
  destruct (tasks !! S i) as [u|] eqn:Hu.
  - cbn [for_each].
    assert (find_task tasks (Task.id u) = Some u) as ->.
    { apply find_task_distinct; [done|by eapply list_elem_of_lookup_2]. }
    rewrite (IH (S i) u); [done|done|lia|].
    intros j w Hj Hw. cbn [fst].
    apply not_elem_of_union. split; [|apply (Hnew j); [lia|done]].
    intros Heq%elem_of_singleton.
    unfold distinct_ids in Hdistinct.
    assert (j = i); [|lia].
    eapply NoDup_lookup; [exact Hdistinct| |];
      rewrite list_lookup_fmap; [by rewrite Hw|by rewrite Ht; cbn; rewrite Heq].
  - apply lookup_ge_None in Hu. lia.
Qed.

Lemma get_execution_order_chain_too_deep (depth : nat) (tasks : list Task) :
  distinct_ids tasks → is_chain tasks → depth < length tasks →
  _get_execution_order depth tasks = Raise recursion_error.
Proof.
  intros Hdistinct Hchain Hdepth.
  unfold _get_execution_order, get_execution_order_fuel.
  destruct tasks as [|t tasks]; [simpl in Hdepth; lia|].
  cbn [for_each].
  rewrite (visit_chain_too_deep (t :: tasks) Hdistinct Hchain depth 0 t); [done|done| |].
  - simpl in *. lia.
  - intros j u _ _. cbn. apply not_elem_of_empty.
Qed.

(** C1, as stated, fails on a list in which two tasks share an identifier:
    the list is acyclic and has no dangling reference, yet the second twin
    is left out, so the result is not a permutation of the input. *)
Lemma get_execution_order_twins :
  acyclic twins ∧ references_present twins ∧
  _get_execution_order ample_depth twins = Ok [twin_first] ∧
  ¬ ([twin_first] ≡ₚ twins).
Proof.
  split_and!.
  - apply acyclic_no_dependencies.
    intros t [->|[->|[]%elem_of_nil]%elem_of_cons]%elem_of_cons; done.
  - intros t d [->|[->|[]%elem_of_nil]%elem_of_cons]%elem_of_cons Hd;
      by apply elem_of_nil in Hd.
  - by vm_compute.
  - intros Hperm. by apply Permutation_length in Hperm.
Qed.

(** C1, amended: for every task list with pairwise distinct identifiers
    whose dependency references are acyclic and name tasks of the list,
    called with room on the interpreter's stack for more nested calls of
    [visit] than the list has tasks, [_get_execution_order] returns a
    permutation of the input, each task exactly once, in which every task
    stands strictly after all the tasks it transitively depends on.  (With
    less room it raises [RecursionError] on a long dependency chain,
    [get_execution_order_chain_too_deep].) *)
Theorem get_execution_order_topological (depth : nat) (tasks : list Task) :
  distinct_ids tasks → acyclic tasks → references_present tasks →
  length tasks < depth →
  ∃ order,
    _get_execution_order depth tasks = Ok order ∧
    order ≡ₚ tasks ∧ NoDup order ∧
    ∀ t u, tc (depends_on tasks) t u → before u t order.
Proof.
  intros Hdistinct Hacyclic _ Hdepth.
  destruct (get_execution_order_fuel_total tasks depth Hdepth) as [order Hrun].
  exists order. split; [by apply get_execution_order_Ok|].
  destruct (get_execution_order_fuel_spec _ _ _ Hrun) as (Hnd & Hin & Hids).
  pose proof (distinct_ids_permutation _ _ Hdistinct Hnd Hin Hids) as Hperm.
  split_and!; [done|by apply NoDup_fmap_1 in Hnd|].
  apply closed_before.
  - by eapply get_execution_order_fuel_closed.
  - intros t Ht. by rewrite Hperm.
Qed.

Lemma get_execution_order_topological_witness :
  ∃ order,
    _get_execution_order ample_depth report_then_fetch = Ok order ∧
    order ≡ₚ report_then_fetch ∧ NoDup order ∧
    ∀ t u, tc (depends_on report_then_fetch) t u → before u t order.
Proof.
  apply (get_execution_order_topological ample_depth report_then_fetch).
  - unfold distinct_ids. simpl. apply NoDup_cons. split.
    + by intros [= ]%list_elem_of_singleton.
    + apply NoDup_singleton.
  - apply (acyclic_by_rank _ (λ t, length (Task.dependencies t))).
    intros t u (Ht & Hu & Hdep).
    apply elem_of_cons in Ht as [->|[->|[]%elem_of_nil]%elem_of_cons]; simpl in *.
    + apply list_elem_of_singleton in Hdep.
      apply elem_of_cons in Hu as [->|[->|[]%elem_of_nil]%elem_of_cons];
        [done|simpl; lia].
    + by apply elem_of_nil in Hdep.
  - intros t d Ht Hd.
    apply elem_of_cons in Ht as [->|[->|[]%elem_of_nil]%elem_of_cons]; simpl in *.
    + apply list_elem_of_singleton in Hd as ->. exists fetch.
      split; [|done]. apply list_elem_of_further, list_elem_of_here.
    + by apply elem_of_nil in Hd.
  - unfold ample_depth. simpl. lia.
Defined.

(** On a cyclic list the scheduler still returns; the order places [pong]
    before [ping] although each depends on the other. *)
Example get_execution_order_cycle :
  _get_execution_order ample_depth [ping; pong] = Ok [pong; ping].
Proof. by vm_compute. Qed.

(** A chain of three tasks needs three nested calls of [visit]: with room
    for two the scheduler raises, with room for three it returns the chain
    reversed. *)
Example get_execution_order_chain_of_three :
  _get_execution_order 2 chain_of_three = Raise recursion_error ∧
  _get_execution_order 3 chain_of_three = Ok (reverse chain_of_three).
Proof. split; by vm_compute. Qed.

(** C10, as stated, fails when identifiers repeat: the second twin does not
    appear in the result at all. *)
Lemma get_execution_order_omits_second_twin :
  _get_execution_order ample_depth twins_and_other
    = Ok [twin_first; plain_task "b" "other" []] ∧
  twin_second ∈ twins_and_other ∧
  twin_second ∉ [twin_first; plain_task "b" "other" []].
Proof.
  split_and!.
  - by vm_compute.
  - apply list_elem_of_further, list_elem_of_further, list_elem_of_here.
  - intros [[=]|[[=]|[]%elem_of_nil]%elem_of_cons]%elem_of_cons.
Qed.

(** C10, amended: a cyclic reference never makes [_get_execution_order]
    recurse without end, but the depth of its recursion grows with the
    dependency chains.  For every finite task list, cyclic or not, there is
    one list [order] of tasks of the input, in which each identifier of the
    input appears exactly once (each input task exactly once when the
    identifiers are pairwise distinct), such that the method returns [order]
    whenever the interpreter's stack has room for more nested calls of
    [visit] than there are tasks, and with any room either returns [order] or
    raises [RecursionError]; it does raise on a chain of distinct tasks
    longer than the room. *)
Theorem get_execution_order_terminates (tasks : list Task) :
  (∃ order,
     (∀ depth, length tasks < depth →
               _get_execution_order depth tasks = Ok order) ∧
     (∀ depth, _get_execution_order depth tasks = Ok order ∨
               _get_execution_order depth tasks = Raise recursion_error) ∧
     NoDup (Task.id <$> order) ∧
     task_ids order = task_ids tasks ∧
     (∀ u, u ∈ order → u ∈ tasks) ∧
     (distinct_ids tasks → order ≡ₚ tasks ∧ NoDup order)) ∧
  (∀ depth, distinct_ids tasks → is_chain tasks → depth < length tasks →
            _get_execution_order depth tasks = Raise recursion_error).
Proof.
  split; [|intros depth; apply get_execution_order_chain_too_deep].
  destruct (get_execution_order_fuel_total tasks (S (length tasks)))
    as [order Hrun]; [lia|].
  exists order.
  destruct (get_execution_order_fuel_spec _ _ _ Hrun) as (Hnd & Hin & Hids).
  split_and!; [| |done..|].
  - intros depth Hdepth. apply get_execution_order_Ok.
    eapply get_execution_order_fuel_mono; [|done]. lia.
  - intros depth. unfold _get_execution_order.
    destruct (get_execution_order_fuel depth tasks) as [order'|] eqn:Hrun';
      [left|by right].
    f_equal.
    pose proof (get_execution_order_fuel_mono _ _ (depth + S (length tasks)) _
                  (Nat.le_add_r _ _) Hrun') as H1.
    pose proof (get_execution_order_fuel_mono _ _ (depth + S (length tasks)) _
                  (Nat.le_add_l _ _) Hrun) as H2.
    congruence.
  - intros Hdistinct. split; [by apply distinct_ids_permutation|].
    by apply NoDup_fmap_1 in Hnd.
Qed.

(** ** The executor *)

Ltac run_step :=
  cbn;
  unfold mbind, mret, M_bind, M_ret, catch, call_handler, lift, raise,
    log_invocation, set_instance, set_variable, update_result, modify,
    get_run, utcnow, new_TaskResult, asyncio_sleep;
  cbn.

Lemma find_unmet_None (r : Run) (task : Task) :
  dependencies_completed r task →
  List.find (λ dep_id, negb (dependency_completed r dep_id))
    (Task.dependencies task) = None.
Proof.
  unfold dependencies_completed.
  induction (Task.dependencies task) as [|d ds IH]; intros Hall; [done|].
  simpl. rewrite (Hall d) by apply list_elem_of_here. simpl.
  apply IH. intros d' Hd'. by apply Hall, list_elem_of_further.
Qed.

Lemma find_unmet_Some (r : Run) (task : Task) (dep_id : string) :
  dep_id ∈ Task.dependencies task → dependency_unmet r dep_id →
  is_Some (List.find (λ dep_id, negb (dependency_completed r dep_id))
             (Task.dependencies task)).
Proof.
  intros Hin Hunmet.
  destruct (List.find _ _) as [d|] eqn:Hfind; [by eexists|].
  apply list_elem_of_In in Hin. apply (find_none _ _ Hfind) in Hin as Hdep.
  apply negb_false_iff in Hdep. exfalso.
  unfold dependency_unmet, dependency_completed in *.
  destruct (_ !! dep_id) as [ref|]; [|done].
  by apply bool_decide_eq_true in Hdep.
Qed.

Lemma alter_snoc {A : Type} (f : A → A) (xs : list A) (x : A) :
  alter f (length xs) (xs ++ [x]) = xs ++ [f x].
Proof.
  replace (length xs) with (length xs + 0) by lia.
  by rewrite (alter_app_r f xs [x] 0).
Qed.

Section executor_facts.
Context (format_TaskType : TaskType → string).
Context (Task_new : Dict → Result Task).
Context (task_handlers : gmap TaskType Handler).

#[local] Abbreviation execute_task :=
  (_execute_task format_TaskType Task_new task_handlers).

(** C4: for every task with at least one dependency whose recorded
    [TaskResult] is absent or has a status other than [COMPLETED], executing
    the task records its result as [SKIPPED] (a new result object, stored
    under the task's identifier and returned) and invokes no handler. *)
Theorem execute_task_skips_on_unmet_dependency
    (fuel : nat) (task : Task) (r : Run) (dep_id : string) :
  dep_id ∈ Task.dependencies task → dependency_unmet r dep_id →
  ∃ r',
    execute_task (S fuel) task r = Some (Ok (length (Run.results r)), r') ∧
    recorded_result r' (Task.id task)
      = Some (TaskResult.mk SKIPPED (OValue VNone) None None None) ∧
    Run.results r'
      = Run.results r ++ [TaskResult.mk SKIPPED (OValue VNone) None None None] ∧
    Run.invoked r' = Run.invoked r.
Proof.
  intros Hin Hunmet.
  destruct (find_unmet_Some r task dep_id Hin Hunmet) as [d Hfind].
  eexists. split.
  - run_step. rewrite Hfind. run_step. reflexivity.
  - unfold recorded_result. cbn. rewrite lookup_insert_eq. cbn.
    split_and!; [|done..].
    by rewrite lookup_app_r, Nat.sub_diag by lia.
Qed.

(** C2, amended: a task whose type has no registered handler (its
    dependencies completed, no retry policy) does not abort the run.
    [_execute_task] catches the [ValueError] it raises for the missing
    handler: it returns normally, the task's recorded result is [FAILED]
    with the error text, no handler is invoked, and the instance's status
    and variables are left as they were. *)
Theorem execute_task_recovers_missing_handler
    (fuel : nat) (task : Task) (r : Run) :
  task_handlers !! Task.type task = None →
  dependencies_completed r task →
  Task.retry_policy task = [] →
  ∃ r',
    execute_task (S fuel) task r = Some (Ok (length (Run.results r)), r') ∧
    recorded_result r' (Task.id task)
      = Some (TaskResult.mk FAILED (OValue VNone)
                (Some (no_handler_message format_TaskType task))
                (Some (Run.clock r)) (Some (S (Run.clock r)))) ∧
    WorkflowInstance.status (Run.instance r')
      = WorkflowInstance.status (Run.instance r) ∧
    WorkflowInstance.variables (Run.instance r')
      = WorkflowInstance.variables (Run.instance r) ∧
    Run.invoked r' = Run.invoked r ∧
    ∀ rest,
      WorkflowInstance.status (Run.instance r) ≠ CANCELLED →
      run_tasks format_TaskType Task_new task_handlers (S fuel) (task :: rest) r
        = run_tasks format_TaskType Task_new task_handlers (S fuel) rest r'.
Proof.
  intros Hnone Hdeps Hretry. apply find_unmet_None in Hdeps.
  assert (∃ r', execute_task (S fuel) task r
                  = Some (Ok (length (Run.results r)), r') ∧
                r' = Run.mk
                       (WorkflowInstance.set_task_results
                          (<[Task.id task := length (Run.results r)]>
                             (WorkflowInstance.task_results (Run.instance r)))
                          (Run.instance r))
                       (Run.results r ++
                          [TaskResult.mk FAILED (OValue VNone)
                             (Some (no_handler_message format_TaskType task))
                             (Some (Run.clock r)) (Some (S (Run.clock r)))])
                       (S (S (Run.clock r))) (Run.invoked r))
    as (r' & Hrun & ->).
  { eexists. split; [|reflexivity].
    run_step. rewrite Hdeps. run_step. rewrite Hnone. run_step.
    rewrite Hretry. run_step. by rewrite !alter_snoc. }
  eexists. split; [exact Hrun|].
  split_and!; [|done..|].
  - unfold recorded_result. cbn. rewrite lookup_insert_eq. cbn.
    by rewrite lookup_app_r, Nat.sub_diag by lia.
  - intros rest Hlive. cbn [run_tasks].
    unfold mbind at 1, M_bind at 1, get_run at 1.
    rewrite bool_decide_eq_false_2 by done.
    unfold mbind at 1, M_bind at 1. by rewrite Hrun.
Qed.

End executor_facts.

(** C2, as stated, fails: the run of an instance whose only task has a type
    without handler is not aborted.  The task is recorded as [FAILED] and
    the instance ends [COMPLETED], not [FAILED]. *)
Lemma missing_handler_run_completes :
  WorkflowEngine.task_handlers (engine approval_world) !! HUMAN_TASK = None ∧
  scheduled approval_world = ["p_0"] ∧
  ∃ w',
    _execute_instance TaskType_value decode_task ample_depth 1 "p_0" approval_world
      = Some (Ok tt, w') ∧
    WorkflowInstance.status <$> get_instance_status "p_0" w' = Some COMPLETED ∧
    (TaskResult.status <$> objects w' !! 0) = Some FAILED ∧
    (TaskResult.error <$> objects w' !! 0)
      = Some (Some "No handler for task type human_task") ∧
    (i ← get_instance_status "p_0" w';
     WorkflowInstance.task_results i !! "approve") = Some 0.
Proof.
  split_and!; [by vm_compute..|].
  eexists. split_and!; [by vm_compute|by vm_compute..].
Qed.

Section attempts.
Context (format_TaskType : TaskType → string).
Context (Task_new : Dict → Result Task).
Context (task_handlers : gmap TaskType Handler).

#[local] Abbreviation execute_task :=
  (_execute_task format_TaskType Task_new task_handlers).

(** One attempt with a callable that raises: the failure is written to the
    result object, then retry handling runs if the task has a policy. *)
Lemma execute_task_attempt_raises fuel task r f e :
  task_handlers !! Task.type task = Some (Callable f) →
  dependencies_completed r task →
  returned (attempt_effect f task r) = Raise e →
  execute_task (S fuel) task r =
    match
      (if dict_truthy (Task.retry_policy task)
       then _handle_retry (execute_task fuel) task
       else mret tt)
        (attempt_settled task r (attempt_effect f task r) (failed_result r e))
    with
    | Some (Ok _, r') => Some (Ok (length (Run.results r)), r')
    | Some (Raise e', r') => Some (Raise e', r')
    | None => None
    end.
Proof.
  intros Hf Hdeps Hret. apply find_unmet_None in Hdeps.
  unfold attempt_settled, attempt_effect, attempt_started in *. cbn in Hret.
  run_step. rewrite Hdeps. run_step. rewrite Hf. run_step.
  rewrite Hret. run_step. rewrite !alter_snoc. reflexivity.
Qed.

Lemma execute_task_attempt_returns fuel task r f v :
  task_handlers !! Task.type task = Some (Callable f) →
  dependencies_completed r task →
  returned (attempt_effect f task r) = Ok v →
  execute_task (S fuel) task r =
    Some (Ok (length (Run.results r)),
          attempt_settled task r (attempt_effect f task r) (completed_result r v)).
Proof.
  intros Hf Hdeps Hret. apply find_unmet_None in Hdeps.
  unfold attempt_settled, attempt_effect, attempt_started in *. cbn in Hret.
  run_step. rewrite Hdeps. run_step. rewrite Hf. run_step.
  rewrite Hret. run_step. rewrite !alter_snoc. reflexivity.
Qed.


Lemma dict_lookup_set_eq (k : string) (v : Value) (d : Dict) :
  dict_lookup k (dict_set k v d) = Some v.
Proof.
  induction d as [|[k' v'] d IH]; simpl.
  - by rewrite decide_True.
  - destruct (decide (k = k')) as [->|Hne]; simpl.
    + by rewrite decide_True.
    + by rewrite decide_False.
Qed.

Lemma dependency_completed_frame (r r' : Run) (dep_id : string) :
  WorkflowInstance.task_results (Run.instance r') !! dep_id
    = WorkflowInstance.task_results (Run.instance r) !! dep_id →
  (∀ ref, ref < length (Run.results r) →
          Run.results r' !! ref = Run.results r !! ref) →
  dependency_completed r dep_id = true →
  dependency_completed r' dep_id = true.
Proof.
  unfold dependency_completed, result_status. intros -> Hres.
  destruct (_ !! dep_id) as [ref|]; [|done].
  intros Hc%bool_decide_eq_true. apply bool_decide_eq_true.
  rewrite Hres; [done|].
  destruct (Run.results r !! ref) eqn:Hl; [|done].
  by apply lookup_lt_Some in Hl.
Qed.

Lemma dependencies_completed_after_attempt task r eff settled key v :
  Task.id task ∉ Task.dependencies task →
  dependencies_completed r task →
  dependencies_completed
    (with_variable key v (attempt_settled task r eff settled)) task.
Proof.
  intros Hself Hdeps dep Hdep.
  apply (dependency_completed_frame r); [| |by apply Hdeps].
  - cbn. apply lookup_insert_ne. intros Heq. by rewrite <- Heq in Hdep.
  - intros ref Href. cbn. by apply lookup_app_l.
Qed.

Lemma handle_retry_reached (execute : Task → M nat) task r n k :
  dict_lookup "max_retries" (Task.retry_policy task) = Some (VInt n) →
  dict_get (WorkflowInstance.variables (Run.instance r)) (retry_key task) (VInt 0)
    = VInt k →
  (n ≤ k)%Z →
  _handle_retry execute task r = Some (Ok tt, r).
Proof.
  intros Hmax Hcur Hle. unfold _handle_retry, retry_key, dict_get in *.
  rewrite Hmax. run_step. rewrite Hcur. cbn.
  destruct (Z.compare_spec k n); [done|lia|done].
Qed.

Lemma handle_retry_below (execute : Task → M nat) task r n k :
  dict_lookup "max_retries" (Task.retry_policy task) = Some (VInt n) →
  dict_lookup "delay" (Task.retry_policy task) = Some (VInt 0) →
  dict_get (WorkflowInstance.variables (Run.instance r)) (retry_key task) (VInt 0)
    = VInt k →
  (k < n)%Z →
  _handle_retry execute task r =
    match execute task (with_variable (retry_key task) (VInt (k + 1)) r) with
    | Some (Ok _, r') => Some (Ok tt, r')
    | Some (Raise e, r') => Some (Raise e, r')
    | None => None
    end.
Proof.
  intros Hmax Hdelay Hcur Hlt.
  unfold _handle_retry, retry_key, dict_get, with_variable in *.
  rewrite Hmax, Hdelay. run_step. rewrite Hcur. cbn.
  destruct (Z.compare_spec k n); [lia| |lia]. by run_step.
Qed.

Section failing_task.
Context (task : Task) (n : Z).
Context (f : Task → WorkflowInstance.t → list TaskResult.t → Effect).
Hypothesis Hhandler : task_handlers !! Task.type task = Some (Callable f).
Hypothesis Hraises : always_raises f task.
Hypothesis Hkeeps : keeps_retry_counter f task.
Hypothesis Hmax :
  dict_lookup "max_retries" (Task.retry_policy task) = Some (VInt n).
Hypothesis Hdelay :
  dict_lookup "delay" (Task.retry_policy task) = Some (VInt 0).
Hypothesis Hself : Task.id task ∉ Task.dependencies task.

(** With the retry counter at [k] and [max_retries] at [n], the handler is
    invoked [n - k + 1] times: the retries nest, one level of re-entry
    each. *)
Lemma failing_task_attempts (d : nat) :
  ∀ fuel r k,
    dict_get (WorkflowInstance.variables (Run.instance r)) (retry_key task) (VInt 0)
      = VInt k →
    (n - k)%Z = Z.of_nat d →
    dependencies_completed r task →
    ∃ r',
      execute_task (S d + fuel) task r = Some (Ok (length (Run.results r)), r') ∧
      Run.invoked r' = Run.invoked r ++ replicate (S d) task ∧
      TaskResult.status <$> recorded_result r' (Task.id task) = Some FAILED ∧
      dict_get (WorkflowInstance.variables (Run.instance r')) (retry_key task) (VInt 0)
        = VInt n.
Proof.
  assert (dict_truthy (Task.retry_policy task) = true) as Hpolicy
    by (by destruct (Task.retry_policy task)).
  induction d as [|d IH]; intros fuel r k Hcur Hdist Hdeps.
  all: destruct (Hraises (Run.instance (attempt_started task r))
                   (Run.results (attempt_started task r))) as [e He].
  all: pose proof (Hkeeps (Run.instance (attempt_started task r))
                     (Run.results (attempt_started task r))) as Hkeep.
  all: fold (attempt_effect f task r) in He, Hkeep.
  all: change (S ?a + fuel) with (S (a + fuel)).
  all: rewrite (execute_task_attempt_raises _ _ _ _ _ Hhandler Hdeps He), Hpolicy.
  all: set (r1 := attempt_settled task r (attempt_effect f task r) (failed_result r e)).
  all: assert (dict_get (WorkflowInstance.variables (Run.instance r1))
                 (retry_key task) (VInt 0) = VInt k) as Hcur1
         by (unfold dict_get in *; cbn; by rewrite Hkeep).
  - rewrite (handle_retry_reached _ _ _ n k) by (done || lia).
    exists r1. split_and!; [done..| |].
    + unfold recorded_result. cbn. rewrite lookup_insert_eq. cbn.
      by rewrite lookup_app_r, Nat.sub_diag by lia.
    + rewrite Hcur1. f_equal. lia.
  - rewrite (handle_retry_below _ _ _ n k) by (done || lia).
    destruct (IH fuel (with_variable (retry_key task) (VInt (k + 1)) r1) (k + 1)%Z)
      as (r' & -> & Hinv & Hrec & Hvar).
    + unfold dict_get. cbn. by rewrite dict_lookup_set_eq.
    + lia.
    + by apply dependencies_completed_after_attempt.
    + exists r'. split_and!; [done| |done..].
      rewrite Hinv. cbn. by rewrite <- app_assoc.
Qed.

End failing_task.

(** C3, amended: for every task whose handler always raises (and does not
    write the task's retry counter), whose retry policy is
    [{max_retries: 2, delay: 0}] and whose dependencies are all completed
    (the task not being one of them), executed on an instance that holds no
    retry counter for the task yet, executing the task invokes the handler
    exactly 3 times, and the result finally recorded for the task has status
    [FAILED]. *)
Theorem failing_task_is_invoked_three_times
    (fuel : nat) (task : Task) (r : Run)
    (f : Task → WorkflowInstance.t → list TaskResult.t → Effect) :
  task_handlers !! Task.type task = Some (Callable f) →
  always_raises f task →
  keeps_retry_counter f task →
  dict_lookup "max_retries" (Task.retry_policy task) = Some (VInt 2) →
  dict_lookup "delay" (Task.retry_policy task) = Some (VInt 0) →
  dependencies_completed r task →
  Task.id task ∉ Task.dependencies task →
  dict_lookup (retry_key task) (WorkflowInstance.variables (Run.instance r)) = None →
  ∃ r',
    execute_task (3 + fuel) task r = Some (Ok (length (Run.results r)), r') ∧
    Run.invoked r' = Run.invoked r ++ [task; task; task] ∧
    TaskResult.status <$> recorded_result r' (Task.id task) = Some FAILED.
Proof.
  intros Hhandler Hraises Hkeeps Hmax Hdelay Hdeps Hself Hfresh.
  destruct (failing_task_attempts task 2 f Hhandler Hraises Hkeeps Hmax Hdelay Hself
              2 fuel r 0%Z) as (r' & Hrun & Hinv & Hrec & _).
  - unfold dict_get. by rewrite Hfresh.
  - done.
  - done.
  - by exists r'.
Qed.

Lemma no_dependencies_completed (task : Task) (r : Run) :
  Task.dependencies task = [] → dependencies_completed r task.
Proof. intros Hnone dep Hdep. rewrite Hnone in Hdep. by apply elem_of_nil in Hdep. Qed.

Lemma sequence_loop_cons (execute : Task → M nat)
    (subtask_config : Value) (rest : list Value) (acc : list nat) (r : Run) :
  sequence_loop Task_new execute (subtask_config :: rest) acc r =
    match Task_of_config Task_new subtask_config with
    | Raise e => Some (Raise e, r)
    | Ok subtask =>
        match execute subtask r with
        | Some (Ok result, r') =>
            if bool_decide (result_status r' result = Some FAILED)
            then Some (Ok (acc ++ [result]), r')
            else sequence_loop Task_new execute rest (acc ++ [result]) r'
        | Some (Raise e, r') => Some (Raise e, r')
        | None => None
        end
    end.
Proof.
  cbn [sequence_loop]. unfold mbind, M_bind, lift, get_run, mret, M_ret.
  destruct (Task_of_config Task_new subtask_config) as [subtask|e]; [|done].
  destruct (execute subtask r) as [[[result|e] r']|]; [|done..].
  by destruct (bool_decide _).
Qed.


End attempts.

(** ** Witnesses on the concrete engine *)

Lemma execute_task_skips_on_unmet_dependency_witness :
  ∃ r',
    _execute_task TaskType_value decode_task default_handlers 1 report empty_run
      = Some (Ok (length (Run.results empty_run)), r') ∧
    recorded_result r' (Task.id report)
      = Some (TaskResult.mk SKIPPED (OValue VNone) None None None) ∧
    Run.results r'
      = Run.results empty_run
          ++ [TaskResult.mk SKIPPED (OValue VNone) None None None] ∧
    Run.invoked r' = Run.invoked empty_run.
Proof.
  apply (execute_task_skips_on_unmet_dependency
           TaskType_value decode_task default_handlers 0 report empty_run "fetch").
  - apply list_elem_of_here.
  - by vm_compute.
Defined.

Lemma execute_task_recovers_missing_handler_witness :
  ∃ r',
    _execute_task TaskType_value decode_task default_handlers 1 approval empty_run
      = Some (Ok (length (Run.results empty_run)), r') ∧
    recorded_result r' (Task.id approval)
      = Some (TaskResult.mk FAILED (OValue VNone)
                (Some (no_handler_message TaskType_value approval))
                (Some (Run.clock empty_run)) (Some (S (Run.clock empty_run)))) ∧
    WorkflowInstance.status (Run.instance r')
      = WorkflowInstance.status (Run.instance empty_run) ∧
    WorkflowInstance.variables (Run.instance r')
      = WorkflowInstance.variables (Run.instance empty_run) ∧
    Run.invoked r' = Run.invoked empty_run ∧
    ∀ rest,
      WorkflowInstance.status (Run.instance empty_run) ≠ CANCELLED →
      run_tasks TaskType_value decode_task default_handlers 1 (approval :: rest)
        empty_run
        = run_tasks TaskType_value decode_task default_handlers 1 rest r'.
Proof.
  apply (execute_task_recovers_missing_handler
           TaskType_value decode_task default_handlers 0 approval empty_run).
  - by vm_compute.
  - by apply no_dependencies_completed.
  - reflexivity.
Defined.

(** C3, as stated, fails when the instance already holds a retry counter
    for the task: the counter is an ordinary instance variable, and with it
    at [2] the always-raising handler is invoked once, not three times. *)
Lemma seeded_retry_counter_single_invocation :
  handlers_with_failing_script !! Task.type flaky = Some (Callable failing_handler) ∧
  always_raises failing_handler flaky ∧
  dict_lookup "max_retries" (Task.retry_policy flaky) = Some (VInt 2) ∧
  dict_lookup "delay" (Task.retry_policy flaky) = Some (VInt 0) ∧
  dependencies_completed seeded_run flaky ∧
  ∃ r',
    _execute_task TaskType_value decode_task handlers_with_failing_script 3
      flaky seeded_run = Some (Ok 0, r') ∧
    Run.invoked r' = [flaky] ∧
    TaskResult.status <$> recorded_result r' (Task.id flaky) = Some FAILED.
Proof.
  split_and!; [by vm_compute|by eexists|by vm_compute..| |].
  - by apply no_dependencies_completed.
  - eexists. split_and!; by vm_compute.
Qed.

Lemma failing_task_is_invoked_three_times_witness :
  ∃ r',
    _execute_task TaskType_value decode_task handlers_with_failing_script 3
      flaky empty_run
      = Some (Ok (length (Run.results empty_run)), r') ∧
    Run.invoked r' = Run.invoked empty_run ++ [flaky; flaky; flaky] ∧
    TaskResult.status <$> recorded_result r' (Task.id flaky) = Some FAILED.
Proof.
  apply (failing_task_is_invoked_three_times
           TaskType_value decode_task handlers_with_failing_script 0 flaky
           empty_run failing_handler).
  - by vm_compute.
  - intros i rs. by eexists.
  - by intros i rs.
  - by vm_compute.
  - by vm_compute.
  - by apply no_dependencies_completed.
  - apply not_elem_of_nil.
  - by vm_compute.
Defined.


(** The handler of [B] in this witness fails only because [A] ran before
    it: on the instance as it was before the sequence it returns. *)
Example fails_when_marked_depends_on_state :
  returned (attempt_effect fails_when_marked step_b empty_run) = Ok VNone.
Proof. reflexivity. Qed.

(** ** Condition evaluation *)

(** C6, as stated, fails: with the literal [0.5] as right operand the
    evaluation raises instead of returning, for either score. *)
Lemma evaluate_condition_float_literal_raises :
  _evaluate_condition score_above_literal [("score", VFloat 0.8)]
    = Raise (mkExn AttributeError "'float' object has no attribute 'startswith'") ∧
  _evaluate_condition score_above_literal [("score", VFloat 0.3)]
    = Raise (mkExn AttributeError "'float' object has no attribute 'startswith'").
Proof. split; by vm_compute. Qed.

(** C6, amended: evaluating [{operator: "gt", left: "$score", right: 0.5}]
    raises an [AttributeError] whatever the variables hold, because a literal
    operand has to be a string; when the threshold [0.5] is held in a
    variable and the right operand is the reference ["$threshold"], the
    evaluation returns true for a score of [0.8] and false for a score of
    [0.3]. *)
Theorem evaluate_condition_gt_score :
  (∀ variables,
     _evaluate_condition score_above_literal variables
       = Raise (no_attribute (VFloat 0.5) "startswith")) ∧
  _evaluate_condition score_above_threshold
    [("score", VFloat 0.8); ("threshold", VFloat 0.5)] = Ok true ∧
  _evaluate_condition score_above_threshold
    [("score", VFloat 0.3); ("threshold", VFloat 0.5)] = Ok false.
Proof. split_and!; [done|by vm_compute..]. Qed.

(** ** The engine facade *)

(** C7, as stated, fails: a definition over two tasks with the same
    identifier is constructed without error. *)
Lemma ProcessDefinition_accepts_twins :
  has_duplicate_id twins ∧
  ∃ p, ProcessDefinition.new "p" "Twins" twins None None None None None = Ok p ∧
       ProcessDefinition.tasks p = twins.
Proof.
  split; [|by eexists].
  by exists 0, 1, twin_first, twin_second.
Qed.

(** C7, amended: for every task list containing two tasks with the same
    identifier, constructing a [ProcessDefinition] over that list succeeds
    and keeps the list as given; identifiers are not validated. *)
Theorem ProcessDefinition_new_keeps_duplicates
    (id name : string) (tasks : list Task)
    (version description : option string) (variables : option Dict)
    (triggers : option (list Dict)) (metadata : option Dict) :
  has_duplicate_id tasks →
  ∃ p,
    ProcessDefinition.new id name tasks version description variables
      triggers metadata = Ok p ∧
    ProcessDefinition.id p = id ∧
    ProcessDefinition.tasks p = tasks.
Proof. intros _. by eexists. Qed.

Lemma ProcessDefinition_new_keeps_duplicates_witness :
  ∃ p,
    ProcessDefinition.new "p" "Twins" twins None None None None None = Ok p ∧
    ProcessDefinition.id p = "p" ∧
    ProcessDefinition.tasks p = twins.
Proof.
  apply (ProcessDefinition_new_keeps_duplicates
           "p" "Twins" twins None None None None None).
  by exists 0, 1, twin_first, twin_second.
Defined.

(** C8, as stated, fails: registering a second definition under an
    identifier already registered silently replaces the stored one. *)
Lemma register_process_replaces_approval :
  WorkflowEngine.processes (engine approval_world) !! "p" = Some approval_process ∧
  ProcessDefinition.id approval_process_v2 = "p" ∧
  WorkflowEngine.processes
    (engine (register_process approval_process_v2 approval_world)) !! "p"
    = Some approval_process_v2.
Proof. split_and!; by vm_compute. Qed.

(** C8, amended: for every engine state in which a process definition with
    identifier [P] is already registered, [register_process] with another
    definition whose identifier is [P] does not fail: it replaces the stored
    definition and leaves every other registration, the instances and the
    handlers as they are. *)
Theorem register_process_replaces
    (w : World) (process old : ProcessDefinition.t) :
  WorkflowEngine.processes (engine w) !! ProcessDefinition.id process = Some old →
  let w' := register_process process w in
  WorkflowEngine.processes (engine w') !! ProcessDefinition.id process
    = Some process ∧
  (∀ other, other ≠ ProcessDefinition.id process →
            WorkflowEngine.processes (engine w') !! other
              = WorkflowEngine.processes (engine w) !! other) ∧
  WorkflowEngine.instances (engine w') = WorkflowEngine.instances (engine w) ∧
  WorkflowEngine.task_handlers (engine w')
    = WorkflowEngine.task_handlers (engine w).
Proof.
  intros _. cbn. split_and!; [|intros other Hne|done..].
  - apply lookup_insert_eq.
  - by apply lookup_insert_ne.
Qed.

Lemma register_process_replaces_witness :
  let w' := register_process approval_process_v2 approval_world in
  WorkflowEngine.processes (engine w') !! ProcessDefinition.id approval_process_v2
    = Some approval_process_v2 ∧
  (∀ other, other ≠ ProcessDefinition.id approval_process_v2 →
            WorkflowEngine.processes (engine w') !! other
              = WorkflowEngine.processes (engine approval_world) !! other) ∧
  WorkflowEngine.instances (engine w')
    = WorkflowEngine.instances (engine approval_world) ∧
  WorkflowEngine.task_handlers (engine w')
    = WorkflowEngine.task_handlers (engine approval_world).
Proof.
  apply (register_process_replaces approval_world approval_process_v2
           approval_process).
  by vm_compute.
Defined.

(** C9: for every engine state and every process identifier that is not
    registered, [start_process] fails with the error for a process that is
    not found (in the source a [ValueError] with the text
    [Process <id> not found]) and leaves the engine as it was: no instance is
    created and no run is scheduled. *)
Theorem start_process_unregistered
    (w : World) (process_id : string) (variables : option Dict) :
  WorkflowEngine.processes (engine w) !! process_id = None →
  start_process process_id variables w = (Raise (process_not_found process_id), w).
Proof. intros Hnone. unfold start_process. by rewrite Hnone. Qed.

Lemma start_process_unregistered_witness :
  start_process "unknown" None approval_world
    = (Raise (process_not_found "unknown"), approval_world).
Proof.
  apply (start_process_unregistered approval_world "unknown" None).
  by vm_compute.
Defined.

(** ** Whole instance runs *)

(** The end-to-end reading of the specification: [report] depends on
    [fetch]; the run executes [fetch] first, both tasks end [COMPLETED], the
    instance ends [COMPLETED], and [report] starts after [fetch] has
    completed. *)
Example report_run_completes :
  ∃ w' i fetched reported,
    _execute_instance TaskType_value decode_task ample_depth 1 "r_0" report_world
      = Some (Ok tt, w') ∧
    get_instance_status "r_0" w' = Some i ∧
    WorkflowInstance.status i = COMPLETED ∧
    calls w' = [fetch; report] ∧
    (ref ← WorkflowInstance.task_results i !! "fetch"; objects w' !! ref)
      = Some fetched ∧
    (ref ← WorkflowInstance.task_results i !! "report"; objects w' !! ref)
      = Some reported ∧
    TaskResult.status fetched = COMPLETED ∧
    TaskResult.status reported = COMPLETED ∧
    ∃ done started,
      TaskResult.completed_at fetched = Some done ∧
      TaskResult.started_at reported = Some started ∧
      done ≤ started.
Proof.
  do 4 eexists. split_and!; [by vm_compute..|].
  do 2 eexists. split_and!; [by vm_compute..|]. vm_compute. lia.
Qed.

Section handlerless.
Context (format_TaskType : TaskType → string).
Context (Task_new : Dict → Result Task).
Context (task_handlers : gmap TaskType Handler).

(** A task without handler and without retry policy is skipped or recorded
    as failed; either way [_execute_task] returns, touching neither the
    instance's status nor the invocation log. *)
Lemma execute_task_handlerless (fuel : nat) (task : Task) (r : Run) :
  task_handlers !! Task.type task = None →
  Task.retry_policy task = [] →
  ∃ ref r',
    _execute_task format_TaskType Task_new task_handlers (S fuel) task r
      = Some (Ok ref, r') ∧
    WorkflowInstance.status (Run.instance r')
      = WorkflowInstance.status (Run.instance r) ∧
    Run.invoked r' = Run.invoked r.
Proof.
  intros Hnone Hretry.
  destruct (List.find (λ dep_id, negb (dependency_completed r dep_id))
              (Task.dependencies task)) as [d|] eqn:Hfind.
  - do 2 eexists. split.
    + run_step. rewrite Hfind. run_step. reflexivity.
    + done.
  - do 2 eexists. split.
    + run_step. rewrite Hfind. run_step. rewrite Hnone. run_step.
      rewrite Hretry. run_step. reflexivity.
    + done.
Qed.

Lemma run_tasks_handlerless (fuel : nat) (order : list Task) :
  (∀ t, t ∈ order →
        task_handlers !! Task.type t = None ∧ Task.retry_policy t = []) →
  ∀ r, ∃ r',
    run_tasks format_TaskType Task_new task_handlers (S fuel) order r
      = Some (Ok tt, r') ∧
    WorkflowInstance.status (Run.instance r')
      = WorkflowInstance.status (Run.instance r) ∧
    Run.invoked r' = Run.invoked r.
Proof.
  induction order as [|task rest IH]; intros Hall r.
  - by exists r.
  - cbn [run_tasks]. unfold mbind at 1, M_bind at 1, get_run at 1.
    case_bool_decide; [by exists r|].
    destruct (Hall task) as [Hnone Hretry]; [apply list_elem_of_here|].
    destruct (execute_task_handlerless fuel task r Hnone Hretry)
      as (ref & r1 & Hrun & Hst & Hinv).
    unfold mbind at 1, M_bind at 1. rewrite Hrun.
    destruct (IH (λ t Ht, Hall t (list_elem_of_further _ _ _ Ht)) r1)
      as (r' & -> & Hst' & Hinv').
    exists r'. split_and!; [done|congruence..].
Qed.

End handlerless.

(** The run of an instance whose process has only tasks without handler (and
    without retry policy) is never aborted when the scheduler has the stack
    it needs: it ends [COMPLETED], and no handler has been invoked. *)
Lemma handlerless_run_completes
    (format_TaskType : TaskType → string) (Task_new : Dict → Result Task)
    (depth fuel : nat) (w : World) (instance_id : string)
    (i : WorkflowInstance.t) (process : ProcessDefinition.t) :
  WorkflowEngine.instances (engine w) !! instance_id = Some i →
  WorkflowEngine.processes (engine w) !! WorkflowInstance.process_id i
    = Some process →
  (∀ t, t ∈ ProcessDefinition.tasks process →
        WorkflowEngine.task_handlers (engine w) !! Task.type t = None ∧
        Task.retry_policy t = []) →
  length (ProcessDefinition.tasks process) < depth →
  ∃ w',
    _execute_instance format_TaskType Task_new depth (S fuel) instance_id w
      = Some (Ok tt, w') ∧
    WorkflowInstance.status <$> get_instance_status instance_id w'
      = Some COMPLETED ∧
    calls w' = calls w.
Proof.
  intros Hi Hp Hall Hdepth. unfold _execute_instance. rewrite Hi, Hp.
  destruct (get_execution_order_fuel_total (ProcessDefinition.tasks process)
              depth Hdepth) as [order Horder].
  rewrite (proj2 (get_execution_order_Ok _ _ _) Horder).
  destruct (get_execution_order_fuel_spec _ _ _ Horder) as (_ & Hin & _).
  set (r0 := Run.mk _ _ _ _).
  destruct (run_tasks_handlerless format_TaskType Task_new
              (WorkflowEngine.task_handlers (engine w)) fuel order
              (λ t Ht, Hall t (Hin t Ht)) r0) as (r' & Hrun & Hst & Hinv).
  unfold mbind at 1, M_bind at 1, lift at 1.
  unfold mbind at 1, M_bind at 1. rewrite Hrun.
  unfold mbind, M_bind, get_run. rewrite Hst. subst r0. cbn.
  eexists. split; [reflexivity|]. unfold get_instance_status. cbn.
  rewrite lookup_insert_eq. by split.
Qed.

(** * Further properties of the code *)

(** ** The scheduler on ordered input and on repeated identifiers *)

Lemma for_each_unchanged {A S : Type} (body : A → S → option S)
    (xs : list A) (s : S) :
  (∀ x, x ∈ xs → body x s = Some s) → for_each body xs s = Some s.
Proof.
  induction xs as [|x xs IH]; intros Hbody; simpl; [done|].
  rewrite Hbody by apply list_elem_of_here.
  apply IH. intros y Hy. by apply Hbody, list_elem_of_further.
Qed.

Lemma task_ids_elem (tasks : list Task) (t : Task) :
  t ∈ tasks → Task.id t ∈ task_ids tasks.
Proof. intros Ht. apply elem_of_task_ids. eauto. Qed.

(** On a list that is already ordered each [visit] finds the dependencies
    of its task visited and appends the task at once. *)
Lemma ordered_suffix_unchanged (tasks : list Task) (fuel : nat) :
  distinct_ids tasks → dependencies_earlier tasks →
  ∀ suf pre, tasks = pre ++ suf →
    for_each (visit (S (S fuel)) tasks) suf (task_ids pre, pre)
      = Some (task_ids tasks, tasks).
Proof.
  intros Hdistinct Hordered. induction suf as [|t suf IH]; intros pre Htasks.
  - rewrite app_nil_r in Htasks. by subst.
  - cbn [for_each visit]. cbn [fst snd].
    assert (tasks !! length pre = Some t) as Ht
      by (by rewrite Htasks, lookup_app_r, Nat.sub_diag by lia).
    assert (t ∈ tasks) as Hin by (by eapply list_elem_of_lookup_2).
    destruct (decide (Task.id t ∈ task_ids pre)) as [Hseen|Hnew].
    { exfalso. apply elem_of_task_ids in Hseen as (u & Hu & Hid).
      apply list_elem_of_lookup in Hu as [j Hj].
      pose proof (lookup_lt_Some _ _ _ Hj) as Hlt.
      assert (tasks !! j = Some u) as Hj'
        by (rewrite Htasks; by apply lookup_app_l_Some).
      assert (u = t) as ->.
      { eapply same_id_same_task; [done| |done..]. by eapply list_elem_of_lookup_2. }
      unfold distinct_ids in Hdistinct.
      assert (j = length pre); [|lia].
      eapply NoDup_lookup; [exact Hdistinct| |];
        rewrite list_lookup_fmap; [by rewrite Hj'|by rewrite Ht]. }
    rewrite for_each_unchanged.
    + cbn [fst snd]. rewrite <- (IH (pre ++ [t])) by (by rewrite <- app_assoc).
      by rewrite task_ids_snoc, (union_comm_L (task_ids pre)).
    + intros d Hd. destruct (find_task tasks d) as [w|] eqn:Hw; [|done].
      destruct (Hordered _ _ _ _ Ht Hd Hw) as (j & Hj & Hjw).
      cbn [visit fst]. rewrite decide_True; [done|].
      apply elem_of_union_r, task_ids_elem.
      rewrite Htasks, lookup_app_l in Hjw by lia.
      by eapply list_elem_of_lookup_2.
Qed.

Lemma get_execution_order_of_ordered (depth : nat) (tasks : list Task) :
  distinct_ids tasks → dependencies_earlier tasks →
  _get_execution_order (S (S depth)) tasks = Ok tasks.
Proof.
  intros Hdistinct Hordered.
  apply get_execution_order_Ok. unfold get_execution_order_fuel.
  pose proof (ordered_suffix_unchanged tasks depth
                Hdistinct Hordered tasks [] eq_refl) as Hrun.
  change (task_ids []) with (∅ : gset string) in Hrun.
  by rewrite Hrun.
Qed.

(** X1: a task list with pairwise distinct identifiers that is already in
    execution order (every dependency that names a task of the list names one
    standing earlier) is returned unchanged by [_get_execution_order]; in
    particular tasks without dependencies keep their order.  The recursion
    is then at most two calls of [visit] deep, whatever the length of the
    list, so room for two is all the stack it needs. *)
Theorem get_execution_order_keeps_ordered_input
    (depth : nat) (tasks : list Task) :
  distinct_ids tasks → dependencies_earlier tasks → 1 < depth →
  _get_execution_order depth tasks = Ok tasks.
Proof.
  intros Hdistinct Hordered Hdepth.
  destruct depth as [|[|depth]]; [lia..|].
  apply get_execution_order_Ok. unfold get_execution_order_fuel.
  pose proof (ordered_suffix_unchanged tasks depth
                Hdistinct Hordered tasks [] eq_refl) as Hrun.
  change (task_ids []) with (∅ : gset string) in Hrun.
  by rewrite Hrun.
Qed.

Lemma fetch_then_report_distinct : distinct_ids fetch_then_report.
Proof.
  unfold distinct_ids. simpl. apply NoDup_cons. split.
  - by intros [= ]%list_elem_of_singleton.
  - apply NoDup_singleton.
Qed.

Lemma fetch_then_report_ordered : dependencies_earlier fetch_then_report.
Proof.
  intros i t d w Hi Hd Hw.
  destruct i as [|[|i]]; simpl in Hi; simplify_eq.
  - by apply elem_of_nil in Hd.
  - apply list_elem_of_singleton in Hd as ->.
    vm_compute in Hw. simplify_eq. exists 0. split; [lia|done].
Qed.

Lemma get_execution_order_keeps_ordered_input_witness :
  _get_execution_order 2 fetch_then_report = Ok fetch_then_report.
Proof.
  apply (get_execution_order_keeps_ordered_input 2 fetch_then_report).
  - apply fetch_then_report_distinct.
  - apply fetch_then_report_ordered.
  - lia.
Defined.

Lemma closed_dependencies_earlier (tasks order : list Task) :
  order ≡ₚ tasks → closed tasks order → dependencies_earlier order.
Proof.
  intros Hperm Hclosed i t d w Hi Hd Hw.
  apply find_task_Some in Hw as [Hw Hid].
  apply (Hclosed i t w Hi). split_and!.
  - rewrite <- Hperm. by eapply list_elem_of_lookup_2.
  - by rewrite <- Hperm.
  - by rewrite Hid.
Qed.

Lemma for_each_unresolved {S : Type} (found : string → bool)
    (deps : list string) (s s' : S) :
  for_each (λ d a, if found d then None else Some a) deps s = Some s' → s' = s.
Proof.
  induction deps as [|d deps IH]; simpl; [congruence|].
  destruct (found d); [done|]. exact IH.
Qed.

(** With room for a single call of [visit] the scheduler can only return a
    list none of whose dependencies names a task, and returns it as it is. *)
Lemma shallow_suffix_unchanged (tasks : list Task) :
  distinct_ids tasks →
  ∀ suf pre s', tasks = pre ++ suf →
    for_each (visit 1 tasks) suf (task_ids pre, pre) = Some s' →
    s'.2 = tasks.
Proof.
  intros Hdistinct. induction suf as [|t suf IH]; intros pre s' Htasks Hrun.
  - rewrite app_nil_r in Htasks. simpl in Hrun. by simplify_eq.
  - cbn [for_each visit] in Hrun. cbn [fst snd] in Hrun.
    assert (Task.id t ∉ task_ids pre) as Hnew.
    { intros (u & Hu & Hid)%elem_of_task_ids.
      unfold distinct_ids in Hdistinct. rewrite Htasks, fmap_app in Hdistinct.
      apply NoDup_app in Hdistinct as (_ & Hdisjoint & _).
      apply (Hdisjoint (Task.id t)).
      - apply list_elem_of_fmap. by exists u.
      - rewrite fmap_cons. apply list_elem_of_here. }
    rewrite decide_False in Hrun by done.
    destruct (for_each _ (Task.dependencies t) _) as [s1|] eqn:Hdeps; [|done].
    assert (s1 = ({[Task.id t]} ∪ task_ids pre, pre)) as ->.
    { apply (for_each_unresolved
               (λ d, bool_decide (is_Some (find_task tasks d)))
               (Task.dependencies t)).
      refine (for_each_ext _ _ _ _ _ _ Hdeps). intros d a a'.
      destruct (find_task tasks d); [done|].
      rewrite bool_decide_eq_false_2; [done|]. by intros [? ?]. }
    cbn [fst snd] in Hrun.
    apply (IH (pre ++ [t])); [by rewrite <- app_assoc|].
    by rewrite task_ids_snoc, (union_comm_L (task_ids pre)).
Qed.

(** X2: scheduling is idempotent on acyclic input: for a task list with
    pairwise distinct identifiers and acyclic dependencies, giving the order
    that [_get_execution_order] returned back to it, with the same room on
    the stack, returns the same order. *)
Theorem get_execution_order_idempotent (depth : nat) (tasks order : list Task) :
  distinct_ids tasks → acyclic tasks →
  _get_execution_order depth tasks = Ok order →
  _get_execution_order depth order = Ok order.
Proof.
  intros Hdistinct Hacyclic Hrun. pose proof Hrun as Hok.
  apply get_execution_order_Ok in Hrun.
  destruct depth as [|[|depth]].
  - destruct tasks; [|done]. by vm_compute in Hrun; simplify_eq.
  - unfold get_execution_order_fuel in Hrun.
    destruct (for_each _ tasks _) as [s|] eqn:Hloop; [|done].
    simpl in Hrun. simplify_eq.
    by rewrite (shallow_suffix_unchanged tasks Hdistinct tasks [] s eq_refl Hloop)
      in Hok |- *.
  - destruct (get_execution_order_fuel_spec _ _ _ Hrun) as (Hnd & Hin & Hids).
    pose proof (distinct_ids_permutation _ _ Hdistinct Hnd Hin Hids) as Hperm.
    apply get_execution_order_of_ordered.
    + unfold distinct_ids. by rewrite Hperm.
    + apply (closed_dependencies_earlier tasks); [done|].
      by eapply get_execution_order_fuel_closed.
Qed.

Lemma get_execution_order_idempotent_witness :
  _get_execution_order ample_depth [fetch; report] = Ok [fetch; report].
Proof.
  apply (get_execution_order_idempotent ample_depth report_then_fetch
           [fetch; report]).
  - unfold distinct_ids. simpl. apply NoDup_cons. split.
    + by intros [= ]%list_elem_of_singleton.
    + apply NoDup_singleton.
  - apply (acyclic_by_rank _ (λ t, length (Task.dependencies t))).
    intros t u (Ht & Hu & Hdep).
    apply elem_of_cons in Ht as [->|[->|[]%elem_of_nil]%elem_of_cons]; simpl in *.
    + apply list_elem_of_singleton in Hdep.
      apply elem_of_cons in Hu as [->|[->|[]%elem_of_nil]%elem_of_cons];
        [done|simpl; lia].
    + by apply elem_of_nil in Hdep.
  - by vm_compute.
Defined.

Lemma find_task_first (pre suf : list Task) (t : Task) :
  Task.id t ∉ task_ids pre → find_task (pre ++ t :: suf) (Task.id t) = Some t.
Proof.
  unfold find_task. induction pre as [|u pre IH]; intros Hnew; simpl.
  - by rewrite bool_decide_eq_true_2.
  - rewrite bool_decide_eq_false_2.
    + apply IH. intros Hin. apply Hnew. unfold task_ids in *. set_solver.
    + intros Heq. apply Hnew. unfold task_ids. set_solver.
Qed.

(** [visit] only ever appends a task that is the first of the list to carry
    its identifier, provided it is called on such a task or on one whose
    identifier is already visited. *)
Lemma visit_first (tasks : list Task) (fuel : nat) :
  ∀ t s s',
    visit fuel tasks t s = Some s' →
    Task.id t ∈ s.1 ∨ find_task tasks (Task.id t) = Some t →
    (∀ u, u ∈ s.2 → find_task tasks (Task.id u) = Some u) →
    (∀ u, u ∈ s'.2 → find_task tasks (Task.id u) = Some u) ∧
    s.1 ⊆ s'.1 ∧ Task.id t ∈ s'.1.
Proof.
  induction fuel as [|fuel IH]; intros t s s' Hrun Hfirst Hplaced; [done|].
  simpl in Hrun. destruct (decide (Task.id t ∈ s.1)) as [Hseen|Hnew].
  { by simplify_eq. }
  destruct Hfirst as [?|Hfirst]; [done|].
  match type of Hrun with
  | match ?loop with _ => _ end = _ => destruct loop as [s2|] eqn:Hloop; [|done]
  end.
  simplify_eq. simpl.
  apply (for_each_invariant
           (λ a, (∀ u, u ∈ a.2 → find_task tasks (Task.id u) = Some u) ∧
                 {[Task.id t]} ∪ s.1 ⊆ a.1)) in Hloop as [Hplaced2 Hsub].
  - split_and!; [|set_solver..].
    intros u [Hu| ->%list_elem_of_singleton]%elem_of_app; auto.
  - intros d a a' _ [Ha Hsa] Hbody.
    destruct (find_task tasks d) as [w|] eqn:Hw; [|by simplify_eq].
    pose proof Hw as [_ Hid]%find_task_Some.
    destruct (IH _ _ _ Hbody) as (Ha' & Hsub' & _); [right; by rewrite Hid|done|].
    split; [done|set_solver].
  - split; [done|]. simpl. set_solver.
Qed.

(** X3: when several tasks of the list carry the same identifier, the one
    that [_get_execution_order] schedules is the first of them: every task of
    the returned order is the first task of the input with its identifier. *)
Theorem get_execution_order_schedules_first_occurrence
    (depth : nat) (tasks order : list Task) (u : Task) :
  _get_execution_order depth tasks = Ok order → u ∈ order →
  find_task tasks (Task.id u) = Some u.
Proof.
  intros Hrun%get_execution_order_Ok. revert u.
  unfold get_execution_order_fuel in Hrun.
  destruct (for_each _ tasks (∅, [])) as [s|] eqn:Hloop; [|done].
  simpl in Hrun. simplify_eq.
  assert (∀ n suf pre a a',
            tasks = pre ++ suf →
            for_each (visit n tasks) suf a = Some a' →
            task_ids pre ⊆ a.1 →
            (∀ u, u ∈ a.2 → find_task tasks (Task.id u) = Some u) →
            ∀ u, u ∈ a'.2 → find_task tasks (Task.id u) = Some u) as Hgen.
  { intros n. induction suf as [|t suf IH]; intros pre a a' Htasks Hfor Hsub Hplaced.
    - simpl in Hfor. by simplify_eq.
    - simpl in Hfor.
      destruct (visit n tasks t a) as [a1|] eqn:Hvisit; [|done].
      destruct (visit_first _ _ _ _ _ Hvisit) as (Hplaced1 & Hsub1 & Hid1);
        [|done|].
      + destruct (decide (Task.id t ∈ a.1)); [by left|right].
        rewrite Htasks. apply find_task_first. set_solver.
      + apply (IH (pre ++ [t]) a1 a'); [by rewrite <- app_assoc|done| |done].
        rewrite task_ids_snoc. set_solver. }
  apply (Hgen _ tasks [] (∅, []) s eq_refl Hloop); [set_solver|].
  intros u Hu. by apply elem_of_nil in Hu.
Qed.

Lemma get_execution_order_schedules_first_occurrence_witness :
  find_task twins_and_other (Task.id twin_first) = Some twin_first.
Proof.
  apply (get_execution_order_schedules_first_occurrence ample_depth
           twins_and_other [twin_first; plain_task "b" "other" []] twin_first).
  - by vm_compute.
  - apply list_elem_of_here.
Defined.

(** ** Invariants of the executor *)

Lemma hoare_bind {A B : Type} (P : Run → Prop) (m : M A) (k : A → M B)
    (Q : A → Run → Prop) (Q' : B → Run → Prop) (E : Exn → Run → Prop) :
  hoare P m Q E → (∀ a, hoare (Q a) (k a) Q' E) → hoare P (m ≫= k) Q' E.
Proof.
  intros Hm Hk r res r' HP Hrun. unfold mbind, M_bind in Hrun.
  destruct (m r) as [[[a|e] r1]|] eqn:Hmr; [| |done].
  - eapply Hk; [|exact Hrun]. by apply (Hm _ _ _ HP Hmr).
  - simplify_eq. by apply (Hm _ _ _ HP Hmr).
Qed.

Lemma hoare_conseq {A : Type} (P P' : Run → Prop) (m : M A)
    (Q Q' : A → Run → Prop) (E E' : Exn → Run → Prop) :
  hoare P' m Q' E' →
  (∀ r, P r → P' r) → (∀ a r, Q' a r → Q a r) → (∀ e r, E' e r → E e r) →
  hoare P m Q E.
Proof.
  intros Hm HP HQ HE r res r' Hr Hrun.
  specialize (Hm _ _ _ (HP _ Hr) Hrun). destruct res; auto.
Qed.

Lemma hoare_ret {A : Type} (P : Run → Prop) (a : A) (E : Exn → Run → Prop) :
  hoare P (mret a) (λ b r, b = a ∧ P r) E.
Proof. intros r res r' HP Hrun. unfold mret, M_ret in Hrun. by simplify_eq. Qed.

Lemma hoare_lift {A : Type} (P : Run → Prop) (x : Result A) :
  hoare P (lift x) (λ a r, x = Ok a ∧ P r) (λ e r, x = Raise e ∧ P r).
Proof. intros r res r' HP Hrun. unfold lift in Hrun. simplify_eq. by destruct res. Qed.

Lemma hoare_raise {A : Type} (P : Run → Prop) (e : Exn) (Q : A → Run → Prop) :
  hoare P (raise e) Q (λ e' r, e' = e ∧ P r).
Proof. intros r res r' HP Hrun. unfold raise in Hrun. by simplify_eq. Qed.

Lemma hoare_get (P : Run → Prop) (E : Exn → Run → Prop) :
  hoare P get_run (λ a r, a = r ∧ P r) E.
Proof. intros r res r' HP Hrun. unfold get_run in Hrun. by simplify_eq. Qed.

Lemma hoare_modify (P : Run → Prop) (f : Run → Run) (E : Exn → Run → Prop) :
  hoare P (modify f) (λ _ r, ∃ r0, r = f r0 ∧ P r0) E.
Proof. intros r res r' HP Hrun. unfold modify in Hrun. simplify_eq. eauto. Qed.

Lemma hoare_catch {A : Type} (P : Run → Prop) (m : M A)
    (Q : A → Run → Prop) (E E' : Exn → Run → Prop) :
  hoare P m Q E →
  hoare P (catch m)
    (λ x r, match x with Ok a => Q a r | Raise e => E e r end) E'.
Proof.
  intros Hm r res r' HP Hrun. unfold catch in Hrun.
  destruct (m r) as [[x r1]|] eqn:Hmr; [|done]. simplify_eq.
  by apply (Hm _ _ _ HP Hmr).
Qed.

Lemma results_kept_length (b r : Run) :
  results_kept b r → length (Run.results b) ≤ length (Run.results r).
Proof.
  intros Hkept.
  destruct (decide (length (Run.results b) ≤ length (Run.results r))) as [|Hlt];
    [done|].
  destruct (lookup_lt_is_Some_2 (Run.results b) (length (Run.results r)))
    as [x Hx]; [lia|].
  apply Hkept, lookup_lt_Some in Hx. lia.
Qed.

Lemma evolves_refl (r : Run) : evolves r r.
Proof. split; try done. by intros i x. Qed.

Lemma evolves_trans (a b c : Run) : evolves a b → evolves b c → evolves a c.
Proof.
  intros [H1 H2 H3 H4 H5 H6 H7 H8] [G1 G2 G3 G4 G5 G6 G7 G8]. split.
  - intros i x Hi. by apply G1, H1.
  - by etrans.
  - lia.
  - congruence.
  - congruence.
  - congruence.
  - set_solver.
  - auto.
Qed.

(** The primitive steps of the executor, as seen from an earlier run. *)

Lemma evolves_instance (b r : Run) (vs : Dict) (s : TaskStatus) :
  evolves b r →
  evolves b (Run.mk
               (WorkflowInstance.set_status s
                  (WorkflowInstance.set_variables vs (Run.instance r)))
               (Run.results r) (Run.clock r) (Run.invoked r)).
Proof. intros [H1 H2 H3 H4 H5 H6 H7 H8]. by split. Qed.

Lemma evolves_variables (b r : Run) (vs : Dict) :
  evolves b r →
  evolves b (Run.mk (WorkflowInstance.set_variables vs (Run.instance r))
               (Run.results r) (Run.clock r) (Run.invoked r)).
Proof. intros [H1 H2 H3 H4 H5 H6 H7 H8]. by split. Qed.

Lemma evolves_tick (b r : Run) :
  evolves b r →
  evolves b (Run.mk (Run.instance r) (Run.results r) (S (Run.clock r)) (Run.invoked r)).
Proof. intros [H1 H2 H3 H4 H5 H6 H7 H8]. split; try done. simpl. lia. Qed.

Lemma evolves_log (b r : Run) (task : Task) :
  evolves b r →
  evolves b (Run.mk (Run.instance r) (Run.results r) (Run.clock r)
               (Run.invoked r ++ [task])).
Proof.
  intros [H1 H2 H3 H4 H5 H6 H7 H8]. split; try done.
  simpl. by apply prefix_app_r.
Qed.

(** Allocating a result object and recording it under a task identifier. *)
Lemma evolves_record (b r : Run) (task_id : string) (x : TaskResult.t) :
  evolves b r →
  evolves b (Run.mk
               (WorkflowInstance.set_task_results
                  (<[task_id := length (Run.results r)]>
                     (WorkflowInstance.task_results (Run.instance r)))
                  (Run.instance r))
               (Run.results r ++ [x]) (Run.clock r) (Run.invoked r)).
Proof.
  intros [H1 H2 H3 H4 H5 H6 H7 H8]. split; try done; simpl.
  - intros i y Hi. by apply lookup_app_l_Some, H1.
  - rewrite dom_insert_L. set_solver.
  - intros Hb k ref. unfold refs_valid in *. simpl. rewrite length_app. simpl.
    destruct (decide (task_id = k)) as [->|Hne].
    + rewrite lookup_insert_eq. intros [= <-]. lia.
    + rewrite lookup_insert_ne by done. intros Hk%(H8 Hb). lia.
Qed.

(** Writing through a reference allocated after [b]. *)
Lemma evolves_update (b r : Run) (ref : nat) (f : TaskResult.t → TaskResult.t) :
  length (Run.results b) ≤ ref → evolves b r →
  evolves b (Run.mk (Run.instance r) (alter f ref (Run.results r))
               (Run.clock r) (Run.invoked r)).
Proof.
  intros Href [H1 H2 H3 H4 H5 H6 H7 H8]. split; try done; simpl.
  - intros i y Hi. simpl. rewrite list_lookup_alter_ne; [by apply H1|].
    apply lookup_lt_Some in Hi. lia.
  - intros Hb k ref' Hk. unfold refs_valid in *. simpl in *.
    rewrite length_alter. by apply (H8 Hb k).
Qed.

(** A delay that is an [int] with a [float] is slept through. *)
Lemma asyncio_sleep_int (dl : Z) (r : Run) :
  (dl < float_overflow_bound)%Z → asyncio_sleep (VInt dl) r = Some (Ok tt, r).
Proof.
  intros Hdl. unfold asyncio_sleep, mbind, M_bind, lift, mret, M_ret.
  cbn [py_order as_num num_compare opt_holds].
  destruct (cmp_holds OpLe (dl ?= 0)%Z); [done|].
  by rewrite bool_decide_eq_false_2 by lia.
Qed.

(** Sleeping leaves the run as it is, whether it returns or raises. *)
Lemma asyncio_sleep_state (delay : Value) (r : Run) res r' :
  asyncio_sleep delay r = Some (res, r') → r' = r.
Proof.
  unfold asyncio_sleep, mbind, M_bind, lift, mret, M_ret, raise.
  destruct (py_order OpLe delay (VInt 0)) as [[|]|e]; [congruence| |congruence].
  destruct delay as [| | n|x| | |]; try congruence.
  - case_bool_decide; congruence.
  - destruct (Prim2SF x); congruence.
Qed.

Section executor_invariants.
Context (format_TaskType : TaskType → string).
Context (Task_new : Dict → Result Task).
Context (task_handlers : gmap TaskType Handler).

#[local] Abbreviation exec :=
  (_execute_task format_TaskType Task_new task_handlers).
#[local] Abbreviation phase :=
  (handler_phase format_TaskType Task_new task_handlers).

(** [_execute_task] read as its three phases: dependency gate, handler call
    inside the [try] block, and write-back followed by retry handling. *)
Lemma execute_task_unfold (fuel : nat) (task : Task) (r : Run) :
  exec (S fuel) task r =
    match List.find (λ dep_id, negb (dependency_completed r dep_id))
            (Task.dependencies task) with
    | Some _ => Some (Ok (length (Run.results r)), skipped_run task r)
    | None =>
        match phase (exec fuel) task (try_entered task r) with
        | None => None
        | Some (Ok output, r2) =>
            Some (Ok (length (Run.results r)),
                  settle (length (Run.results r)) (Ok output) r2)
        | Some (Raise e, r2) =>
            match
              (if dict_truthy (Task.retry_policy task)
               then _handle_retry (exec fuel) task
               else mret tt)
                (settle (length (Run.results r)) (Raise e) r2)
            with
            | Some (Ok _, r') => Some (Ok (length (Run.results r)), r')
            | Some (Raise e', r') => Some (Raise e', r')
            | None => None
            end
        end
    end.
Proof.
  cbn [_execute_task]. unfold mbind at 1, M_bind at 1, get_run at 1.
  destruct (List.find _ _) as [d|]; [reflexivity|].
  unfold handler_phase, try_entered, settle.
  cbn; unfold mbind, mret, M_bind, M_ret, catch, utcnow, new_TaskResult,
    set_instance, update_result, modify; cbn.
  destruct (task_handlers !! Task.type task) as [h|]; cbn.
  - destruct (call_handler _ _ _ _ _) as [[[output|e] r2]|]; reflexivity.
  - unfold raise. reflexivity.
Qed.

Section reentrant.
Context (execute_task : Task → M nat).
Hypothesis Hexecute :
  ∀ task r res r', execute_task task r = Some (res, r') → evolves r r'.

Lemma handle_retry_evolves (task : Task) (r : Run) res r' :
  _handle_retry execute_task task r = Some (res, r') → evolves r r'.
Proof.
  unfold _handle_retry.
  unfold mbind, mret, M_bind, M_ret, get_run, lift, set_variable,
    set_instance, modify.
  destruct (py_order OpLt _ _) as [[|]|e]; intros Hrun; [| |];
    [|simplify_eq; apply evolves_refl..].
  destruct (py_add_int _ _) as [next|e];
    [|simplify_eq; apply evolves_refl].
  destruct (asyncio_sleep _ _) as [[[[]|e] r1]|] eqn:Hsleep; [| |done];
    apply asyncio_sleep_state in Hsleep as ->;
    [|simplify_eq; apply evolves_variables, evolves_refl].
  match type of Hrun with
  | match execute_task task ?r1 with _ => _ end = _ =>
      destruct (execute_task task r1) as [[[ref|e] r2]|] eqn:Hexec; [| |done]
  end.
  all: simplify_eq; eapply evolves_trans;
    [apply evolves_variables, evolves_refl|by eapply Hexecute].
Qed.

Lemma sequence_loop_evolves (subtasks : list Value) :
  ∀ acc r res r',
    sequence_loop Task_new execute_task subtasks acc r = Some (res, r') →
    evolves r r'.
Proof.
  induction subtasks as [|cfg rest IH]; intros acc r res r' Hrun.
  - cbn in Hrun. unfold mret, M_ret in Hrun. simplify_eq. apply evolves_refl.
  - rewrite sequence_loop_cons in Hrun.
    destruct (Task_of_config Task_new cfg) as [subtask|e];
      [|simplify_eq; apply evolves_refl].
    destruct (execute_task subtask r) as [[[ref|e] r1]|] eqn:Hexec; [| |done].
    + apply Hexecute in Hexec. case_bool_decide.
      * by simplify_eq.
      * eapply evolves_trans; [done|by eapply IH].
    + simplify_eq. by eapply Hexecute.
Qed.

Lemma handler_phase_evolves (task : Task) (r : Run) res r' :
  phase execute_task task r = Some (res, r') → evolves r r'.
Proof.
  unfold handler_phase.
  destruct (task_handlers !! Task.type task) as [[f|]|].
  - unfold call_handler, mbind, mret, M_bind, M_ret, log_invocation, get_run,
      set_instance, modify, lift. cbn.
    destruct (returned _); intros; simplify_eq.
    all: apply (evolves_instance r
                  (Run.mk (Run.instance r) (Run.results r) (Run.clock r)
                     (Run.invoked r ++ [task]))).
    all: apply evolves_log, evolves_refl.
  - unfold call_handler, _handle_sequence.
    unfold mbind at 1, M_bind at 1, log_invocation, modify.
    unfold mbind at 1, M_bind at 1. unfold mbind at 1, M_bind at 1, lift.
    destruct (py_iter _) as [subtasks|e]; intros Hrun;
      [|simplify_eq; apply evolves_log, evolves_refl].
    match type of Hrun with
    | match sequence_loop _ _ _ _ ?r1 with _ => _ end = _ =>
        destruct (sequence_loop Task_new execute_task subtasks [] r1)
          as [[[refs|e] r2]|] eqn:Hloop; [| |done]
    end.
    all: apply sequence_loop_evolves in Hloop.
    all: unfold mret, M_ret in Hrun; simplify_eq.
    all: eapply evolves_trans; [apply evolves_log, evolves_refl|done].
  - unfold raise. intros. simplify_eq. apply evolves_refl.
Qed.

End reentrant.

Lemma evolves_try_entered (task : Task) (r : Run) :
  evolves r (try_entered task r).
Proof.
  unfold try_entered.
  apply (evolves_tick r (Run.mk _ _ (Run.clock r) _)).
  apply evolves_record, evolves_refl.
Qed.

Lemma evolves_settle (b r : Run) (ref : nat) (outcome : Result Output) :
  length (Run.results b) ≤ ref → evolves b r → evolves b (settle ref outcome r).
Proof.
  intros Href Hev. unfold settle.
  apply (evolves_tick b (Run.mk _ _ (Run.clock r) _)).
  apply (evolves_update b (Run.mk _ _ _ _)); [done|].
  destruct outcome.
  - apply (evolves_update b (Run.mk _ _ _ _)); [done|].
    apply (evolves_update b (Run.mk _ _ _ _)); [done|]. by destruct r.
  - apply (evolves_update b (Run.mk _ _ _ _)); [done|].
    apply (evolves_update b (Run.mk _ _ _ _)); [done|]. by destruct r.
Qed.

Lemma settle_lookup (r : Run) (ref : nat) (outcome : Result Output)
    (x : TaskResult.t) :
  Run.results r !! ref = Some x →
  ∃ y, Run.results (settle ref outcome r) !! ref = Some y ∧
       TaskResult.status y
         = match outcome with Ok _ => COMPLETED | Raise _ => FAILED end.
Proof.
  intros Hx. unfold settle. cbn.
  destruct outcome; rewrite !list_lookup_alter_eq, Hx; cbn; eauto.
Qed.

(** What one call of [_execute_task] does to the run, whatever the handlers
    are: see X4 and X5 below. *)
Lemma execute_task_evolves_settled (fuel : nat) :
  ∀ task r res r',
    exec fuel task r = Some (res, r') →
    evolves r r' ∧
    ∀ ref, res = Ok ref →
      ref = length (Run.results r) ∧
      ∃ x, Run.results r' !! ref = Some x ∧ settled (TaskResult.status x).
Proof.
  induction fuel as [|fuel IH]; intros task r res r' Hrun; [done|].
  assert (∀ t a res a', exec fuel t a = Some (res, a') → evolves a a')
    as Hnested by (intros t a res0 a' H; by apply (IH _ _ _ _ H)).
  rewrite execute_task_unfold in Hrun.
  destruct (List.find _ _) as [d|].
  { simplify_eq. split.
    - apply evolves_record, evolves_refl.
    - intros ref [= <-]. split; [done|]. eexists. split.
      + unfold skipped_run. cbn. by rewrite lookup_app_r, Nat.sub_diag by lia.
      + by left. }
  destruct (phase (exec fuel) task (try_entered task r))
    as [[outcome r2]|] eqn:Hphase; [|done].
  apply (handler_phase_evolves _ Hnested) in Hphase.
  assert (evolves r r2) as Hr2
    by (eapply evolves_trans; [apply evolves_try_entered|done]).
  assert (∃ x, Run.results r2 !! length (Run.results r) = Some x) as [x Hx].
  { eexists. apply (ev_results _ _ Hphase). unfold try_entered. cbn.
    by rewrite lookup_app_r, Nat.sub_diag by lia. }
  destruct outcome as [output|e].
  - simplify_eq. split; [by apply evolves_settle|].
    intros ref [= <-]. split; [done|].
    destruct (settle_lookup r2 _ (Ok output) x Hx) as (y & Hy & Hst).
    exists y. split; [done|]. right. by left.
  - destruct (settle_lookup r2 _ (Raise e) x Hx) as (y & Hy & Hst).
    set (r3 := settle (length (Run.results r)) (Raise e) r2) in *.
    assert (evolves r r3) as Hr3 by (by apply evolves_settle).
    destruct (dict_truthy (Task.retry_policy task)).
    + destruct (_handle_retry (exec fuel) task r3) as [[[[]|e'] r4]|] eqn:Hretry;
        [| |done].
      all: apply (handle_retry_evolves _ Hnested) in Hretry.
      all: simplify_eq.
      all: split; [by eapply evolves_trans|].
      * intros ref [= <-]. split; [done|]. exists y.
        split; [by apply (ev_results _ _ Hretry)|]. right. by right.
      * done.
    + unfold mret, M_ret in Hrun. simplify_eq. split; [done|].
      intros ref [= <-]. split; [done|]. exists y. split; [done|].
      right. by right.
Qed.

(** X4: the executor writes only to the result objects it allocates.  With
    handlers that read the instance and the results and may rebind the
    instance's variables and status, as the handlers that the engine
    registers for sequential execution do, a call of [_execute_task],
    however many retries and sequence sub-tasks it runs and whether it
    returns or raises, leaves every [TaskResult] object that existed before
    the call as it was (a retry records its outcome in a new object), removes
    no entry of [task_results] and no earlier handler invocation, keeps the
    references recorded in [task_results] valid, and leaves the instance's
    identifier, process identifier and creation time as they were. *)
Theorem execute_task_preserves_earlier_results
    (fuel : nat) (task : Task) (r : Run) (res : Result nat) (r' : Run) :
  exec fuel task r = Some (res, r') → evolves r r'.
Proof. intros Hrun. by apply (execute_task_evolves_settled _ _ _ _ _ Hrun). Qed.

(** X5: when [_execute_task] returns, the result object it returns is a new
    one (allocated by this call) and its status is settled: [SKIPPED],
    [COMPLETED] or [FAILED], never [PENDING], [RUNNING] or [CANCELLED]. *)
Theorem execute_task_returns_settled_result
    (fuel : nat) (task : Task) (r : Run) (ref : nat) (r' : Run) :
  exec fuel task r = Some (Ok ref, r') →
  ref = length (Run.results r) ∧
  ∃ s, result_status r' ref = Some s ∧ settled s.
Proof.
  intros Hrun.
  destruct (execute_task_evolves_settled _ _ _ _ _ Hrun) as [_ Hsettled].
  destruct (Hsettled ref eq_refl) as (Href & x & Hx & Hst).
  split; [done|]. exists (TaskResult.status x). split; [|done].
  unfold result_status. by rewrite Hx.
Qed.

End executor_invariants.

Lemma execute_task_preserves_earlier_results_witness :
  _execute_task TaskType_value decode_task handlers_with_failing_script 3
    flaky busy_run
    = Some (Ok 1, busy_run_retried) ∧
  evolves busy_run busy_run_retried.
Proof.
  assert (_execute_task TaskType_value decode_task handlers_with_failing_script
            3 flaky busy_run
          = Some (Ok 1, busy_run_retried)) as Hrun by (by vm_compute).
  split; [exact Hrun|].
  exact (execute_task_preserves_earlier_results
           TaskType_value decode_task handlers_with_failing_script 3 flaky
           busy_run (Ok 1) busy_run_retried Hrun).
Defined.

(** In that run the handler of [flaky] was invoked three times, each attempt
    has a result object of its own, and the result of [fetch], recorded
    before, is as it was. *)
Example busy_run_retried_results :
  Run.invoked busy_run_retried = [fetch; flaky; flaky; flaky] ∧
  TaskResult.status <$> Run.results busy_run_retried
    = [COMPLETED; FAILED; FAILED; FAILED] ∧
  Run.results busy_run_retried !! 0 = Run.results busy_run !! 0 ∧
  WorkflowInstance.task_results (Run.instance busy_run_retried) !! "fetch"
    = Some 0.
Proof. split_and!; by vm_compute. Qed.

Lemma execute_task_returns_settled_result_witness :
  0 = length (Run.results empty_run) ∧
  ∃ s, result_status (skipped_run report empty_run) 0 = Some s ∧ settled s.
Proof.
  apply (execute_task_returns_settled_result
           TaskType_value decode_task default_handlers 1 report empty_run
           0 (skipped_run report empty_run)).
  by vm_compute.
Defined.

Section executor_exceptions.
Context (format_TaskType : TaskType → string).
Context (Task_new : Dict → Result Task).
Context (task_handlers : gmap TaskType Handler).

#[local] Abbreviation exec' :=
  (_execute_task format_TaskType Task_new task_handlers).

Lemma execute_task_no_policy_returns (fuel : nat) (task : Task) (r : Run)
    (res : Result nat) (r' : Run) :
  Task.retry_policy task = [] →
  exec' fuel task r = Some (res, r') →
  res = Ok (length (Run.results r)).
Proof.
  intros Hpolicy Hrun. destruct fuel as [|fuel]; [done|].
  rewrite execute_task_unfold, Hpolicy in Hrun. cbn [dict_truthy] in Hrun.
  destruct (List.find _ _); [by simplify_eq|].
  destruct (handler_phase _ _ _ _ _ _) as [[[output|e] r2]|]; [| |done].
  - by simplify_eq.
  - unfold mret, M_ret in Hrun. by simplify_eq.
Qed.

(** X6: a task without retry policy never makes [_execute_task] raise,
    whatever its handler does (missing, raising, a sequence whose sub-tasks
    raise): whenever the call returns, it returns its result object
    normally.  Exceptions only escape through retry handling. *)
Theorem execute_task_without_retry_policy_never_raises
    (fuel : nat) (task : Task) (r : Run) (res : Result nat) (r' : Run) :
  Task.retry_policy task = [] →
  exec' fuel task r = Some (res, r') →
  res = Ok (length (Run.results r)).
Proof.
  intros Hpolicy Hrun.
  by rewrite (execute_task_no_policy_returns _ _ _ _ _ Hpolicy Hrun).
Qed.

Lemma run_tasks_no_policy_returns (fuel : nat) (order : list Task) :
  (∀ t, t ∈ order → Task.retry_policy t = []) →
  ∀ r res r',
    run_tasks format_TaskType Task_new task_handlers fuel order r
      = Some (res, r') →
    res = Ok tt.
Proof.
  induction order as [|task rest IH]; intros Hall r res r' Hrun.
  - cbn in Hrun. unfold mret, M_ret in Hrun. by simplify_eq.
  - cbn [run_tasks] in Hrun.
    unfold mbind at 1, M_bind at 1, get_run at 1 in Hrun.
    case_bool_decide.
    + unfold mret, M_ret in Hrun. by simplify_eq.
    + unfold mbind at 1, M_bind at 1 in Hrun.
      destruct (exec' fuel task r) as [[[ref|e] r1]|] eqn:Hexec; [| |done].
      * eapply IH; [|exact Hrun].
        intros t Ht. by apply Hall, list_elem_of_further.
      * apply execute_task_no_policy_returns in Hexec; [done|].
        apply Hall, list_elem_of_here.
Qed.

End executor_exceptions.

Lemma execute_task_without_retry_policy_never_raises_witness :
  (Ok 0 : Result nat) = Ok (length (Run.results empty_run)).
Proof.
  apply (execute_task_without_retry_policy_never_raises
           TaskType_value decode_task default_handlers 1 approval empty_run
           (Ok 0)
           (settle 0
              (Raise (mkExn ValueError "No handler for task type human_task"))
              (try_entered approval empty_run))).
  - reflexivity.
  - by vm_compute.
Defined.

(** ** Retry handling in general *)

Section retry_general.
Context (format_TaskType : TaskType → string).
Context (Task_new : Dict → Result Task).
Context (task_handlers : gmap TaskType Handler).

#[local] Abbreviation exec'' :=
  (_execute_task format_TaskType Task_new task_handlers).

Lemma handle_retry_integers (execute : Task → M nat) task r (n dl k : Z) :
  dict_get (Task.retry_policy task) "max_retries" (VInt 3) = VInt n →
  dict_get (Task.retry_policy task) "delay" (VInt 5) = VInt dl →
  (dl < float_overflow_bound)%Z →
  dict_get (WorkflowInstance.variables (Run.instance r)) (retry_key task) (VInt 0)
    = VInt k →
  _handle_retry execute task r =
    if bool_decide (k < n)%Z then
      match execute task (with_variable (retry_key task) (VInt (k + 1)) r) with
      | Some (Ok _, r') => Some (Ok tt, r')
      | Some (Raise e, r') => Some (Raise e, r')
      | None => None
      end
    else Some (Ok tt, r).
Proof.
  intros Hmax Hdelay Hdl Hcur.
  unfold _handle_retry, retry_key, with_variable in *.
  rewrite Hmax, Hdelay.
  unfold mbind, mret, M_bind, M_ret, lift, set_variable, set_instance, modify,
    get_run.
  rewrite Hcur. cbn [py_order as_num num_compare opt_holds py_add_int].
  case_bool_decide; destruct (Z.compare_spec k n); try lia; try done.
  all: cbn [cmp_holds]; by rewrite asyncio_sleep_int.
Qed.

Section failing.
Context (task : Task) (n dl : Z).
Context (f : Task → WorkflowInstance.t → list TaskResult.t → Effect).
Hypothesis Hhandler : task_handlers !! Task.type task = Some (Callable f).
Hypothesis Hraises : always_raises f task.
Hypothesis Hkeeps : keeps_retry_counter f task.
Hypothesis Hpolicy : dict_truthy (Task.retry_policy task) = true.
Hypothesis Hmax :
  dict_get (Task.retry_policy task) "max_retries" (VInt 3) = VInt n.
Hypothesis Hdelay :
  dict_get (Task.retry_policy task) "delay" (VInt 5) = VInt dl.
Hypothesis Hsleep : (dl < float_overflow_bound)%Z.
Hypothesis Hself : Task.id task ∉ Task.dependencies task.

Lemma failing_attempts_counted (d : nat) :
  ∀ fuel r k,
    dict_get (WorkflowInstance.variables (Run.instance r)) (retry_key task) (VInt 0)
      = VInt k →
    Z.to_nat (n - k) = d →
    dependencies_completed r task →
    ∃ r',
      exec'' (S d + fuel) task r = Some (Ok (length (Run.results r)), r') ∧
      Run.invoked r' = Run.invoked r ++ replicate (S d) task ∧
      TaskResult.status <$> recorded_result r' (Task.id task) = Some FAILED ∧
      dict_get (WorkflowInstance.variables (Run.instance r')) (retry_key task) (VInt 0)
        = VInt (Z.max n k).
Proof.
  induction d as [|d IH]; intros fuel r k Hcur Hdist Hdeps.
  all: destruct (Hraises (Run.instance (attempt_started task r))
                   (Run.results (attempt_started task r))) as [e He].
  all: pose proof (Hkeeps (Run.instance (attempt_started task r))
                     (Run.results (attempt_started task r))) as Hkeep.
  all: fold (attempt_effect f task r) in He, Hkeep.
  all: change (S ?a + fuel) with (S (a + fuel)).
  all: rewrite (execute_task_attempt_raises _ _ _ _ _ _ _ _ Hhandler Hdeps He),
         Hpolicy.
  all: set (r1 := attempt_settled task r (attempt_effect f task r) (failed_result r e)).
  all: assert (dict_get (WorkflowInstance.variables (Run.instance r1))
                 (retry_key task) (VInt 0) = VInt k) as Hcur1
         by (unfold dict_get in *; cbn; by rewrite Hkeep).
  all: rewrite (handle_retry_integers _ _ _ n dl k Hmax Hdelay Hsleep Hcur1).
  - rewrite bool_decide_eq_false_2 by lia.
    exists r1. split_and!; [done..| |].
    + unfold recorded_result. cbn. rewrite lookup_insert_eq. cbn.
      by rewrite lookup_app_r, Nat.sub_diag by lia.
    + rewrite Hcur1. f_equal. lia.
  - rewrite bool_decide_eq_true_2 by lia.
    destruct (IH fuel (with_variable (retry_key task) (VInt (k + 1)) r1) (k + 1)%Z)
      as (r' & -> & Hinv & Hrec & Hvar).
    + unfold dict_get. cbn. by rewrite dict_lookup_set_eq.
    + lia.
    + by apply dependencies_completed_after_attempt.
    + exists r'. split_and!; [done| |done|].
      * rewrite Hinv. cbn. by rewrite <- app_assoc.
      * rewrite Hvar. f_equal. lia.
Qed.

End failing.

(** X7: retry handling in general.  For a task whose callable handler
    always raises, with a non-empty retry policy whose [max_retries]
    (default 3) is the integer [n] and whose [delay] (default 5) is an
    integer that has a [float] (so that [asyncio.sleep] accepts it),
    executed with the retry counter at the integer [k] (0 when absent) and
    with room for the [max (n - k) 0 + 1] nested executions that the retries
    make (each retry re-enters [_execute_task] from inside the previous
    one): the handler is invoked [max (n - k) 0 + 1] times, the call returns
    normally with the task recorded as [FAILED], and the counter is left at
    [max n k], so that a later execution of a task with the same identifier
    is not retried. *)
Theorem failing_task_retry_count
    (depth : nat) (task : Task) (r : Run) (n dl k : Z)
    (f : Task → WorkflowInstance.t → list TaskResult.t → Effect) :
  task_handlers !! Task.type task = Some (Callable f) →
  always_raises f task → keeps_retry_counter f task →
  dict_truthy (Task.retry_policy task) = true →
  dict_get (Task.retry_policy task) "max_retries" (VInt 3) = VInt n →
  dict_get (Task.retry_policy task) "delay" (VInt 5) = VInt dl →
  (dl < float_overflow_bound)%Z →
  dict_get (WorkflowInstance.variables (Run.instance r)) (retry_key task) (VInt 0)
    = VInt k →
  dependencies_completed r task →
  Task.id task ∉ Task.dependencies task →
  Z.to_nat (n - k) < depth →
  ∃ r',
    exec'' depth task r = Some (Ok (length (Run.results r)), r') ∧
    Run.invoked r' = Run.invoked r ++ replicate (S (Z.to_nat (n - k))) task ∧
    TaskResult.status <$> recorded_result r' (Task.id task) = Some FAILED ∧
    dict_get (WorkflowInstance.variables (Run.instance r')) (retry_key task) (VInt 0)
      = VInt (Z.max n k).
Proof.
  intros Hhandler Hraises Hkeeps Hpolicy Hmax Hdelay Hsleep Hcur Hdeps Hself
    Hdepth.
  replace depth
    with (S (Z.to_nat (n - k)) + (depth - S (Z.to_nat (n - k)))) by lia.
  by apply (failing_attempts_counted task n dl f).
Qed.

(** X8: when the first attempt of a task raises, the result object that
    [_execute_task] returns is that of the first attempt and stays [FAILED],
    whatever the retries do: a retry that succeeds is recorded in a new
    result object under the task's identifier, not in the returned one. *)
Theorem execute_task_returns_first_attempt
    (fuel : nat) (task : Task) (r : Run) (ref : nat) (r' : Run)
    (f : Task → WorkflowInstance.t → list TaskResult.t → Effect) (e : Exn) :
  task_handlers !! Task.type task = Some (Callable f) →
  dependencies_completed r task →
  returned (attempt_effect f task r) = Raise e →
  exec'' (S fuel) task r = Some (Ok ref, r') →
  ref = length (Run.results r) ∧
  Run.results r' !! ref = Some (failed_result r e).
Proof.
  intros Hhandler Hdeps He Hrun.
  rewrite (execute_task_attempt_raises _ _ _ _ _ _ _ _ Hhandler Hdeps He) in Hrun.
  set (r1 := attempt_settled task r (attempt_effect f task r) (failed_result r e))
    in *.
  assert (Run.results r1 !! length (Run.results r) = Some (failed_result r e))
    as Hr1 by (subst r1; cbn; by rewrite lookup_app_r, Nat.sub_diag by lia).
  destruct (dict_truthy (Task.retry_policy task)).
  - destruct (_handle_retry (exec'' fuel) task r1) as [[[[]|e'] r2]|] eqn:Hretry;
      [|done..].
    simplify_eq. split; [done|].
    eapply ev_results; [|done].
    eapply handle_retry_evolves; [|done].
    intros t a res a' H.
    by apply (execute_task_evolves_settled _ _ _ _ _ _ _ _ H).
  - unfold mret, M_ret in Hrun. by simplify_eq.
Qed.

(** X9: a retry policy whose [max_retries] is a string makes
    [_execute_task] raise: once the handler has failed, comparing the integer
    retry counter with the string is a [TypeError], which is raised outside
    the [try] block and so escapes, after the failure has been recorded. *)
Theorem execute_task_raises_on_text_max_retries
    (fuel : nat) (task : Task) (r : Run) (s : string) (k : Z)
    (f : Task → WorkflowInstance.t → list TaskResult.t → Effect) (e : Exn) :
  task_handlers !! Task.type task = Some (Callable f) →
  dependencies_completed r task →
  returned (attempt_effect f task r) = Raise e →
  dict_lookup "max_retries" (Task.retry_policy task) = Some (VStr s) →
  dict_get (new_variables (attempt_effect f task r)) (retry_key task) (VInt 0)
    = VInt k →
  exec'' (S fuel) task r
    = Some (Raise (not_supported OpLt (VInt k) (VStr s)),
            attempt_settled task r (attempt_effect f task r) (failed_result r e)).
Proof.
  intros Hhandler Hdeps He Hmax Hcur.
  rewrite (execute_task_attempt_raises _ _ _ _ _ _ _ _ Hhandler Hdeps He).
  assert (dict_truthy (Task.retry_policy task) = true) as ->
    by (by destruct (Task.retry_policy task)).
  unfold _handle_retry, retry_key, dict_get in *. rewrite Hmax.
  run_step. by rewrite Hcur.
Qed.

End retry_general.

Lemma failing_task_retry_count_witness :
  ∃ r',
    _execute_task TaskType_value decode_task handlers_with_failing_script
      4 flaky_slow empty_run
      = Some (Ok (length (Run.results empty_run)), r') ∧
    Run.invoked r'
      = Run.invoked empty_run ++ replicate (S (Z.to_nat (3 - 0))) flaky_slow ∧
    TaskResult.status <$> recorded_result r' (Task.id flaky_slow) = Some FAILED ∧
    dict_get (WorkflowInstance.variables (Run.instance r'))
      (retry_key flaky_slow) (VInt 0) = VInt (Z.max 3 0).
Proof.
  apply (failing_task_retry_count
           TaskType_value decode_task handlers_with_failing_script 4
           flaky_slow empty_run 3 30 0 failing_handler).
  - by vm_compute.
  - intros i rs. by eexists.
  - by intros i rs.
  - reflexivity.
  - reflexivity.
  - reflexivity.
  - by vm_compute.
  - reflexivity.
  - by apply no_dependencies_completed.
  - apply not_elem_of_nil.
  - simpl. lia.
Defined.

(** A delay that has no [float] is not slept through: after the first
    failure [asyncio.sleep] raises [OverflowError], outside the [try] block,
    so the exception escapes [_execute_task] and the handler has been invoked
    once. *)
Example retry_with_oversized_delay_raises :
  (λ out, (out.1, Run.invoked out.2)) <$>
    _execute_task TaskType_value decode_task handlers_with_failing_script
      4 flaky_oversized empty_run
  = Some (Raise (mkExn OverflowError "int too large to convert to float"),
          [flaky_oversized]).
Proof. by vm_compute. Qed.

(** With [recovering_handler] the first attempt of [flaky] fails and the
    retry succeeds: the returned result (reference 0) is [FAILED], the
    result recorded for the task (reference 1) is [COMPLETED]. *)
Lemma execute_task_returns_first_attempt_witness :
  0 = length (Run.results empty_run) ∧
  Run.results flaky_recovered !! 0
    = Some (failed_result empty_run (mkExn OtherException "boom")).
Proof.
  apply (execute_task_returns_first_attempt
           TaskType_value decode_task handlers_with_recovering_script 1
           flaky empty_run 0 flaky_recovered recovering_handler).
  - by vm_compute.
  - by apply no_dependencies_completed.
  - reflexivity.
  - by vm_compute.
Defined.

Example recovered_task_is_recorded_completed :
  ∃ r',
    _execute_task TaskType_value decode_task handlers_with_recovering_script 2
      flaky empty_run = Some (Ok 0, r') ∧
    result_status r' 0 = Some FAILED ∧
    TaskResult.status <$> recorded_result r' "flaky" = Some COMPLETED ∧
    Run.invoked r' = [flaky; flaky].
Proof. eexists. split_and!; by vm_compute. Qed.

Lemma execute_task_raises_on_text_max_retries_witness :
  _execute_task TaskType_value decode_task handlers_with_failing_script 1
    flaky_text empty_run
    = Some (Raise (not_supported OpLt (VInt 0) (VStr "2")),
            attempt_settled flaky_text empty_run
              (attempt_effect failing_handler flaky_text empty_run)
              (failed_result empty_run (mkExn OtherException "boom"))).
Proof.
  apply (execute_task_raises_on_text_max_retries
           TaskType_value decode_task handlers_with_failing_script 0
           flaky_text empty_run "2" 0 failing_handler
           (mkExn OtherException "boom")).
  - by vm_compute.
  - by apply no_dependencies_completed.
  - reflexivity.
  - reflexivity.
  - reflexivity.
Defined.

(** ** Instance runs in general *)

Section instance_runs.
Context (format_TaskType : TaskType → string).
Context (Task_new : Dict → Result Task).
Context (visit_depth : nat).

Lemma run_tasks_evolves (task_handlers : gmap TaskType Handler)
    (fuel : nat) (order : list Task) :
  ∀ r res r',
    run_tasks format_TaskType Task_new task_handlers fuel order r
      = Some (res, r') →
    evolves r r'.
Proof.
  induction order as [|task rest IH]; intros r res r' Hrun.
  - cbn in Hrun. unfold mret, M_ret in Hrun. simplify_eq. apply evolves_refl.
  - cbn [run_tasks] in Hrun.
    unfold mbind at 1, M_bind at 1, get_run at 1 in Hrun.
    case_bool_decide.
    + unfold mret, M_ret in Hrun. simplify_eq. apply evolves_refl.
    + unfold mbind at 1, M_bind at 1 in Hrun.
      destruct (_execute_task _ _ _ fuel task r) as [[[ref|e] r1]|] eqn:Hexec;
        [| |done].
      * apply execute_task_evolves_settled in Hexec as [Hexec _].
        eapply evolves_trans; [done|by eapply IH].
      * apply execute_task_evolves_settled in Hexec as [Hexec _].
        by simplify_eq.
Qed.

(** The shape of every completed call of [_execute_instance] on a known
    instance of a registered process. *)
Lemma execute_instance_inversion (fuel : nat) (w : World) (instance_id : string)
    (i : WorkflowInstance.t) (process : ProcessDefinition.t)
    (res : Result unit) (w' : World) :
  WorkflowEngine.instances (engine w) !! instance_id = Some i →
  WorkflowEngine.processes (engine w) !! WorkflowInstance.process_id i
    = Some process →
  _execute_instance format_TaskType Task_new visit_depth fuel instance_id w
    = Some (res, w') →
  ∃ outcome r1,
    match _get_execution_order visit_depth (ProcessDefinition.tasks process) with
    | Ok order =>
        run_tasks format_TaskType Task_new
          (WorkflowEngine.task_handlers (engine w)) fuel order
          (Run.mk (WorkflowInstance.set_status RUNNING i)
             (objects w) (time w) (calls w))
          = Some (outcome, r1)
    | Raise e =>
        outcome = Raise e ∧
        r1 = Run.mk (WorkflowInstance.set_status RUNNING i)
               (objects w) (time w) (calls w)
    end ∧
    res = Ok tt ∧
    w' = mkWorld
           (WorkflowEngine.mk
              (WorkflowEngine.processes (engine w))
              (<[instance_id :=
                   WorkflowInstance.set_updated_at (Run.clock r1)
                     (WorkflowInstance.set_status
                        (match outcome with
                         | Ok _ =>
                             if bool_decide
                                  (WorkflowInstance.status (Run.instance r1)
                                   = CANCELLED)
                             then CANCELLED else COMPLETED
                         | Raise _ => FAILED
                         end)
                        (Run.instance r1))]>
                 (WorkflowEngine.instances (engine w)))
              (WorkflowEngine.task_handlers (engine w)))
           (Run.results r1) (S (Run.clock r1)) (Run.invoked r1) (scheduled w).
Proof.
  intros Hi Hp. unfold _execute_instance. rewrite Hi, Hp.
  unfold mbind at 1, M_bind at 1, lift at 1.
  destruct (_get_execution_order visit_depth (ProcessDefinition.tasks process))
    as [order|e].
  - unfold mbind at 1, M_bind at 1.
    destruct (run_tasks _ _ _ fuel order _) as [[[[]|e] r1]|] eqn:Hrun;
      [| |done].
    + unfold mbind, M_bind, get_run. intros Hw.
      exists (Ok tt), r1. split_and!; [done| |].
      * case_bool_decide; unfold mret, M_ret, set_instance, modify in Hw;
          by simplify_eq.
      * case_bool_decide as Hc; unfold mret, M_ret, set_instance, modify in Hw;
          simplify_eq; cbn; [|done].
        do 3 f_equal. destruct (Run.instance r1). cbn in *. by subst.
    + intros Hw. exists (Raise e), r1. by simplify_eq.
  - intros Hw. eexists (Raise e), _. by simplify_eq.
Qed.

(** X10: a run of [_execute_instance] on a known instance of a registered
    process never raises, and when it returns the instance is stored with a
    terminal status ([COMPLETED], [CANCELLED] or [FAILED]) and its identifier
    and process unchanged; the other instances, the registered processes, the
    handlers and every [TaskResult] object that existed before the run are
    left as they were. *)
Theorem execute_instance_ends_terminal
    (fuel : nat) (w : World) (instance_id : string)
    (i : WorkflowInstance.t) (process : ProcessDefinition.t)
    (res : Result unit) (w' : World) :
  WorkflowEngine.instances (engine w) !! instance_id = Some i →
  WorkflowEngine.processes (engine w) !! WorkflowInstance.process_id i
    = Some process →
  _execute_instance format_TaskType Task_new visit_depth fuel instance_id w
    = Some (res, w') →
  res = Ok tt ∧
  (∃ final,
     WorkflowEngine.instances (engine w')
       = <[instance_id := final]> (WorkflowEngine.instances (engine w)) ∧
     terminal (WorkflowInstance.status final) ∧
     WorkflowInstance.id final = WorkflowInstance.id i ∧
     WorkflowInstance.process_id final = WorkflowInstance.process_id i) ∧
  WorkflowEngine.processes (engine w') = WorkflowEngine.processes (engine w) ∧
  WorkflowEngine.task_handlers (engine w')
    = WorkflowEngine.task_handlers (engine w) ∧
  (∀ j x, objects w !! j = Some x → objects w' !! j = Some x).
Proof.
  intros Hi Hp Hrun.
  destruct (execute_instance_inversion _ _ _ _ _ _ _ Hi Hp Hrun)
    as (outcome & r1 & Htasks & -> & ->).
  assert (evolves
            (Run.mk (WorkflowInstance.set_status RUNNING i)
               (objects w) (time w) (calls w)) r1) as [H1 _ _ H4 H5 _ _ _].
  { destruct (_get_execution_order _ _) as [order|e].
    - by eapply run_tasks_evolves.
    - destruct Htasks as [_ ->]. apply evolves_refl. }
  cbn in *.
  split_and!; [done| |done..|exact H1].
  eexists. split_and!; [reflexivity| |done..].
  cbn. unfold terminal. destruct outcome; [case_bool_decide|]; auto.
Qed.

(** X11: when no task of the process declares a retry policy, only the
    scheduler can make a run of [_execute_instance] end [FAILED].  If
    [_get_execution_order] returns, which it does whenever the stack has room
    for more nested calls of [visit] than the process has tasks, then
    whatever the handlers do the instance ends [COMPLETED], or [CANCELLED] if
    it was cancelled on the way.  If it raises [RecursionError], the instance
    ends [FAILED] and no handler has been invoked. *)
Theorem execute_instance_without_retry_policies
    (fuel : nat) (w : World) (instance_id : string)
    (i : WorkflowInstance.t) (process : ProcessDefinition.t)
    (res : Result unit) (w' : World) :
  WorkflowEngine.instances (engine w) !! instance_id = Some i →
  WorkflowEngine.processes (engine w) !! WorkflowInstance.process_id i
    = Some process →
  (∀ t, t ∈ ProcessDefinition.tasks process → Task.retry_policy t = []) →
  _execute_instance format_TaskType Task_new visit_depth fuel instance_id w
    = Some (res, w') →
  ∃ final,
    get_instance_status instance_id w' = Some final ∧
    match _get_execution_order visit_depth (ProcessDefinition.tasks process) with
    | Ok _ =>
        WorkflowInstance.status final = COMPLETED ∨
        WorkflowInstance.status final = CANCELLED
    | Raise _ =>
        WorkflowInstance.status final = FAILED ∧ calls w' = calls w
    end ∧
    (length (ProcessDefinition.tasks process) < visit_depth →
     WorkflowInstance.status final = COMPLETED ∨
     WorkflowInstance.status final = CANCELLED).
Proof.
  intros Hi Hp Hall Hrun.
  destruct (execute_instance_inversion _ _ _ _ _ _ _ Hi Hp Hrun)
    as (outcome & r1 & Htasks & -> & ->).
  unfold get_instance_status. cbn. rewrite lookup_insert_eq.
  eexists. split; [reflexivity|]. cbn.
  destruct (_get_execution_order visit_depth (ProcessDefinition.tasks process))
    as [order|e] eqn:Horder.
  - apply run_tasks_no_policy_returns in Htasks as ->.
    + split; [|intros _]; case_bool_decide; auto.
    + intros t Ht. apply Hall. apply get_execution_order_Ok in Horder.
      by apply (get_execution_order_fuel_spec _ _ _ Horder).
  - destruct Htasks as [-> ->]. split; [done|]. intros Hdepth.
    destruct (get_execution_order_enough_depth _ _ Hdepth) as [order Hok].
    congruence.
Qed.

(** X12: cancellation is cooperative.  When the callable handler of a
    scheduled task leaves the instance [CANCELLED] (and returns), that task is
    still written back as [COMPLETED], but none of the tasks scheduled after
    it is executed: the loop stops with the run as that task left it. *)
Theorem run_tasks_stops_when_cancelled
    (task_handlers : gmap TaskType Handler)
    (fuel : nat) (task : Task) (rest : list Task) (r : Run)
    (f : Task → WorkflowInstance.t → list TaskResult.t → Effect) (v : Value) :
  WorkflowInstance.status (Run.instance r) ≠ CANCELLED →
  task_handlers !! Task.type task = Some (Callable f) →
  dependencies_completed r task →
  returned (attempt_effect f task r) = Ok v →
  new_status (attempt_effect f task r) = CANCELLED →
  run_tasks format_TaskType Task_new task_handlers (S fuel) (task :: rest) r
    = Some (Ok tt,
            attempt_settled task r (attempt_effect f task r)
              (completed_result r v)).
Proof.
  intros Hlive Hhandler Hdeps Hv Hcancel. cbn [run_tasks].
  unfold mbind at 1, M_bind at 1, get_run at 1.
  rewrite bool_decide_eq_false_2 by done.
  unfold mbind at 1, M_bind at 1.
  rewrite (execute_task_attempt_returns _ _ _ _ _ _ _ _ Hhandler Hdeps Hv).
  destruct rest as [|next rest]; [done|].
  cbn [run_tasks]. unfold mbind at 1, M_bind at 1, get_run at 1.
  rewrite bool_decide_eq_true_2; [done|]. cbn. exact Hcancel.
Qed.

End instance_runs.

Lemma execute_instance_ends_terminal_witness :
  (Ok tt : Result unit) = Ok tt ∧
  (∃ final,
     WorkflowEngine.instances (engine approval_done)
       = <[ "p_0" := final]> (WorkflowEngine.instances (engine approval_world)) ∧
     terminal (WorkflowInstance.status final) ∧
     WorkflowInstance.id final = "p_0" ∧
     WorkflowInstance.process_id final = "p") ∧
  WorkflowEngine.processes (engine approval_done)
    = WorkflowEngine.processes (engine approval_world) ∧
  WorkflowEngine.task_handlers (engine approval_done)
    = WorkflowEngine.task_handlers (engine approval_world) ∧
  (∀ j x, objects approval_world !! j = Some x →
          objects approval_done !! j = Some x).
Proof.
  apply (execute_instance_ends_terminal TaskType_value decode_task
           ample_depth 1 approval_world "p_0"
           (WorkflowInstance.mk "p_0" "p" PENDING [] ∅ 1 2) approval_process
           (Ok tt)).
  - by vm_compute.
  - by vm_compute.
  - by vm_compute.
Defined.

Lemma execute_instance_without_retry_policies_witness :
  ∃ final,
    get_instance_status "q_0" unlucky_done = Some final ∧
    match
      _get_execution_order ample_depth (ProcessDefinition.tasks unlucky_process)
    with
    | Ok _ =>
        WorkflowInstance.status final = COMPLETED ∨
        WorkflowInstance.status final = CANCELLED
    | Raise _ =>
        WorkflowInstance.status final = FAILED ∧
        calls unlucky_done = calls unlucky_world
    end ∧
    (length (ProcessDefinition.tasks unlucky_process) < ample_depth →
     WorkflowInstance.status final = COMPLETED ∨
     WorkflowInstance.status final = CANCELLED).
Proof.
  apply (execute_instance_without_retry_policies TaskType_value decode_task
           ample_depth 1 unlucky_world "q_0"
           (WorkflowInstance.mk "q_0" "q" PENDING [] ∅ 1 2) unlucky_process
           (Ok tt)).
  - by vm_compute.
  - by vm_compute.
  - intros t Ht.
    apply elem_of_cons in Ht as [->|Ht]; [done|].
    by apply list_elem_of_singleton in Ht as ->.
  - by vm_compute.
Defined.

(** In that run the script task failed and the human task found no handler,
    and the instance is [COMPLETED] all the same. *)
Example unlucky_run_is_completed :
  WorkflowInstance.status <$> get_instance_status "q_0" unlucky_done
    = Some COMPLETED ∧
  calls unlucky_done = [step_b].
Proof. split; by vm_compute. Qed.

(** A process whose tasks form a chain deeper than the stack has room for:
    the scheduler raises, the instance ends [FAILED] and no handler is
    invoked. *)
Example deep_chain_run_fails :
  (λ out, (WorkflowInstance.status <$> get_instance_status "c_0" out.2,
           calls out.2)) <$>
    _execute_instance TaskType_value decode_task 2 1 "c_0" chain_world
  = Some (Some FAILED, []).
Proof. by vm_compute. Qed.

Lemma run_tasks_stops_when_cancelled_witness :
  run_tasks TaskType_value decode_task handlers_with_cancelling_script 1
    [stop_task; fetch] empty_run
    = Some (Ok tt,
            attempt_settled stop_task empty_run
              (attempt_effect cancelling_handler stop_task empty_run)
              (completed_result empty_run VNone)).
Proof.
  apply (run_tasks_stops_when_cancelled TaskType_value decode_task
           handlers_with_cancelling_script 0 stop_task [fetch] empty_run
           cancelling_handler VNone).
  - by vm_compute.
  - by vm_compute.
  - by apply no_dependencies_completed.
  - reflexivity.
  - reflexivity.
Defined.

(** The same at the level of the instance: the run of [stop_process] ends
    [CANCELLED] and [fetch], scheduled after [stop], is never executed. *)
Example cancelled_run_skips_remaining_tasks :
  ∃ w' i,
    _execute_instance TaskType_value decode_task ample_depth 1 "s_0" stop_world
      = Some (Ok tt, w') ∧
    get_instance_status "s_0" w' = Some i ∧
    WorkflowInstance.status i = CANCELLED ∧
    calls w' = [stop_task] ∧
    WorkflowInstance.task_results i !! "fetch" = None.
Proof. do 2 eexists. split_and!; by vm_compute. Qed.

(** ** The sequence composite in general *)

Section sequences.
Context (format_TaskType : TaskType → string).
Context (Task_new : Dict → Result Task).
Context (task_handlers : gmap TaskType Handler).

#[local] Abbreviation run_task :=
  (_execute_task format_TaskType Task_new task_handlers).

Lemma run_task_evolves (fuel : nat) (task : Task) (r : Run) res r' :
  run_task fuel task r = Some (res, r') → evolves r r'.
Proof. intros H. by apply (execute_task_evolves_settled _ _ _ _ _ _ _ _ H). Qed.

Lemma sequence_loop_all_succeed (fuel : nat) (cfgs : list Dict) :
  ∀ (subtasks : list Task) (acc : list nat) (r : Run),
    Forall2 (λ d t, Task_new d = Ok t) cfgs subtasks →
    (∀ t, t ∈ subtasks →
          Task.dependencies t = [] ∧
          ∃ f, task_handlers !! Task.type t = Some (Callable f) ∧
               always_returns f t) →
    ∃ r',
      sequence_loop Task_new (run_task (S fuel)) (VDict <$> cfgs) acc r
        = Some (Ok (acc ++ seq (length (Run.results r)) (length subtasks)), r') ∧
      Run.invoked r' = Run.invoked r ++ subtasks ∧
      ∀ ref, ref ∈ seq (length (Run.results r)) (length subtasks) →
             result_status r' ref = Some COMPLETED.
Proof.
  induction cfgs as [|d cfgs IH]; intros subtasks acc r Hnew Hall.
  - apply Forall2_nil_inv_l in Hnew as ->. exists r. cbn.
    rewrite !app_nil_r. split_and!; [done..|].
    intros ref Href. by apply elem_of_nil in Href.
  - apply Forall2_cons_inv_l in Hnew as (t & rest & Ht & Hrest & ->).
    destruct (Hall t) as (Hdeps & f & Hf & Hreturns); [apply list_elem_of_here|].
    destruct (Hreturns (Run.instance (attempt_started t r))
                (Run.results (attempt_started t r))) as [v Hv].
    fold (attempt_effect f t r) in Hv.
    set (r1 := attempt_settled t r (attempt_effect f t r) (completed_result r v)).
    assert (result_status r1 (length (Run.results r)) = Some COMPLETED) as Hst
      by (unfold result_status; subst r1; cbn;
          by rewrite lookup_app_r, Nat.sub_diag by lia).
    assert (length (Run.results r1) = S (length (Run.results r))) as Hlen
      by (subst r1; cbn; rewrite length_app; cbn; lia).
    destruct (IH rest (acc ++ [length (Run.results r)]) r1 Hrest)
      as (r' & Hloop & Hinv & Hstatus).
    { intros u Hu. by apply Hall, list_elem_of_further. }
    exists r'. rewrite fmap_cons, sequence_loop_cons. cbn [Task_of_config].
    rewrite Ht.
    rewrite (execute_task_attempt_returns _ _ _ _ _ _ _ _ Hf
               (no_dependencies_completed _ _ Hdeps) Hv).
    fold r1. rewrite Hst, bool_decide_eq_false_2 by done.
    rewrite Hloop, Hlen, <- app_assoc. cbn [length seq app].
    split_and!; [done| |].
    + rewrite Hinv. subst r1. cbn. by rewrite <- app_assoc.
    + intros ref [->|Href]%elem_of_cons.
      * apply sequence_loop_evolves in Hloop; [|apply run_task_evolves].
        unfold result_status in *.
        destruct (Run.results r1 !! length (Run.results r)) as [x|] eqn:Hx;
          [|done].
        by rewrite (ev_results _ _ Hloop _ _ Hx).
      * apply Hstatus. by rewrite Hlen.
Qed.

(** X13: a sequence composite whose sub-tasks all succeed runs them all.
    For sub-task descriptors that the [Task] constructor accepts, the
    resulting sub-tasks having no dependencies and callable handlers that
    return, the sequence handler returns one new result per sub-task, in the
    configured order, each [COMPLETED], and invokes the handlers in that
    order; with no configured sub-tasks (or no [tasks] entry at all) it
    returns the empty list and invokes nothing. *)
Theorem handle_sequence_runs_all_when_none_fails
    (fuel : nat) (task : Task) (r : Run)
    (cfgs : list Dict) (subtasks : list Task) :
  dict_get (Task.config task) "tasks" (VList []) = VList (VDict <$> cfgs) →
  Forall2 (λ d t, Task_new d = Ok t) cfgs subtasks →
  (∀ t, t ∈ subtasks →
        Task.dependencies t = [] ∧
        ∃ f, task_handlers !! Task.type t = Some (Callable f) ∧
             always_returns f t) →
  ∃ r',
    _handle_sequence Task_new (run_task (S fuel)) task r
      = Some (Ok (seq (length (Run.results r)) (length subtasks)), r') ∧
    Run.invoked r' = Run.invoked r ++ subtasks ∧
    ∀ ref, ref ∈ seq (length (Run.results r)) (length subtasks) →
           result_status r' ref = Some COMPLETED.
Proof.
  intros Hcfg Hnew Hall.
  destruct (sequence_loop_all_succeed fuel cfgs subtasks [] r Hnew Hall)
    as (r' & Hloop & Hinv & Hstatus).
  exists r'. split_and!; [|done..].
  unfold _handle_sequence. rewrite Hcfg.
  change (sequence_loop Task_new (run_task (S fuel)) (VDict <$> cfgs) [] r
          = Some (Ok (seq (length (Run.results r)) (length subtasks)), r')).
  by rewrite Hloop.
Qed.

(** X14: only a [FAILED] sub-task stops a sequence, a [SKIPPED] one does
    not.  When the first sub-task has an unmet dependency it is recorded as
    [SKIPPED] without its handler being invoked, and the sequence goes on to
    the second sub-task, which here completes. *)
Theorem handle_sequence_continues_after_skipped
    (fuel : nat) (task : Task) (r : Run) (cA cB : Dict) (A B : Task)
    (dep_id : string)
    (fB : Task → WorkflowInstance.t → list TaskResult.t → Effect) :
  dict_get (Task.config task) "tasks" (VList []) = VList [VDict cA; VDict cB] →
  Task_new cA = Ok A → Task_new cB = Ok B →
  dep_id ∈ Task.dependencies A → dependency_unmet r dep_id →
  Task.dependencies B = [] →
  task_handlers !! Task.type B = Some (Callable fB) → always_returns fB B →
  ∃ r',
    _handle_sequence Task_new (run_task (S fuel)) task r
      = Some (Ok [length (Run.results r); S (length (Run.results r))], r') ∧
    result_status r' (length (Run.results r)) = Some SKIPPED ∧
    result_status r' (S (length (Run.results r))) = Some COMPLETED ∧
    Run.invoked r' = Run.invoked r ++ [B].
Proof.
  intros Hcfg HA HB Hdep Hunmet HdB HfB HokB.
  destruct (find_unmet_Some r A dep_id Hdep Hunmet) as [d Hfind].
  set (rA := skipped_run A r).
  assert (run_task (S fuel) A r = Some (Ok (length (Run.results r)), rA)) as HrunA
    by (by rewrite execute_task_unfold, Hfind).
  destruct (HokB (Run.instance (attempt_started B rA))
              (Run.results (attempt_started B rA))) as [v Hv].
  fold (attempt_effect fB B rA) in Hv.
  set (rB := attempt_settled B rA (attempt_effect fB B rA) (completed_result rA v)).
  assert (length (Run.results rA) = S (length (Run.results r))) as Hlen
    by (subst rA; cbn; rewrite length_app; cbn; lia).
  assert (Run.results rB
          = Run.results r
              ++ [TaskResult.mk SKIPPED (OValue VNone) None None None;
                  completed_result rA v]) as Hres
    by (subst rB rA; cbn; by rewrite <- app_assoc).
  assert (result_status rA (length (Run.results r)) = Some SKIPPED) as HstA.
  { unfold result_status. subst rA. cbn.
    by rewrite lookup_app_r, Nat.sub_diag by lia. }
  assert (result_status rB (length (Run.results r)) = Some SKIPPED) as HstA'.
  { unfold result_status. by rewrite Hres, lookup_app_r, Nat.sub_diag by lia. }
  assert (result_status rB (S (length (Run.results r))) = Some COMPLETED) as HstB.
  { unfold result_status. rewrite Hres, lookup_app_r by lia.
    by replace (S (length (Run.results r)) - length (Run.results r)) with 1 by lia. }
  exists rB. split_and!; [|done..|by subst rB rA].
  unfold _handle_sequence. rewrite Hcfg.
  change (sequence_loop Task_new (run_task (S fuel)) [VDict cA; VDict cB] [] r
          = Some (Ok [length (Run.results r); S (length (Run.results r))], rB)).
  rewrite sequence_loop_cons. cbn [Task_of_config]. rewrite HA, HrunA.
  rewrite HstA, bool_decide_eq_false_2 by done.
  rewrite sequence_loop_cons. cbn [Task_of_config]. rewrite HB.
  rewrite (execute_task_attempt_returns _ _ _ _ _ _ _ _ HfB
             (no_dependencies_completed _ _ HdB) Hv).
  fold rB. rewrite Hlen, HstB, bool_decide_eq_false_2 by done.
  cbn [sequence_loop]. by unfold mret, M_ret.
Qed.

(** X15: a sequence whose first sub-task descriptor cannot be made into a
    [Task] (it is not a dictionary, or the constructor rejects it) executes
    no sub-task: the handler raises, and [_execute_task] records the sequence
    task itself as [FAILED] with the text of that exception and returns
    normally (the sequence task declaring no retry policy). *)
Theorem execute_sequence_with_bad_descriptor
    (fuel : nat) (task : Task) (r : Run)
    (cfg : Value) (rest : list Value) (e : Exn) :
  task_handlers !! Task.type task = Some HandleSequence →
  dependencies_completed r task →
  Task.retry_policy task = [] →
  dict_get (Task.config task) "tasks" (VList []) = VList (cfg :: rest) →
  Task_of_config Task_new cfg = Raise e →
  ∃ r',
    run_task (S fuel) task r = Some (Ok (length (Run.results r)), r') ∧
    recorded_result r' (Task.id task) = Some (failed_result r e) ∧
    Run.results r' = Run.results r ++ [failed_result r e] ∧
    Run.invoked r' = Run.invoked r ++ [task].
Proof.
  intros Hhandler Hdeps Hpolicy Hcfg Hbad. apply find_unmet_None in Hdeps.
  rewrite execute_task_unfold, Hdeps, Hpolicy.
  unfold handler_phase. rewrite Hhandler.
  unfold call_handler, _handle_sequence.
  unfold mbind at 1, M_bind at 1, log_invocation, modify.
  unfold mbind at 1, M_bind at 1. unfold mbind at 1, M_bind at 1, lift.
  rewrite Hcfg. cbn [py_iter]. rewrite sequence_loop_cons, Hbad.
  cbn [dict_truthy]. unfold mret, M_ret. eexists. split; [reflexivity|].
  unfold recorded_result, settle, try_entered, failed_result. cbn.
  rewrite lookup_insert_eq. cbn. rewrite !alter_snoc. cbn.
  split_and!; [|done..].
  by rewrite lookup_app_r, Nat.sub_diag by lia.
Qed.

End sequences.

Lemma handle_sequence_runs_all_when_none_fails_witness :
  ∃ r',
    _handle_sequence decode_task
      (_execute_task TaskType_value decode_task default_handlers 1)
      two_steps empty_run
      = Some (Ok (seq (length (Run.results empty_run))
                    (length [step_a; step_c])), r') ∧
    Run.invoked r' = Run.invoked empty_run ++ [step_a; step_c] ∧
    ∀ ref, ref ∈ seq (length (Run.results empty_run)) (length [step_a; step_c]) →
           result_status r' ref = Some COMPLETED.
Proof.
  apply (handle_sequence_runs_all_when_none_fails
           TaskType_value decode_task default_handlers 0 two_steps empty_run
           [descriptor "a" "A" "notification"; descriptor "c" "C" "notification"]
           [step_a; step_c]).
  - reflexivity.
  - repeat constructor.
  - intros t Ht. split.
    + apply elem_of_cons in Ht as [->|Ht]; [done|].
      by apply list_elem_of_singleton in Ht as ->.
    + exists quiet_handler. split.
      * apply elem_of_cons in Ht as [->|Ht]; [done|].
        by apply list_elem_of_singleton in Ht as ->.
      * intros i rs. by eexists.
Defined.

Lemma handle_sequence_continues_after_skipped_witness :
  ∃ r',
    _handle_sequence decode_task
      (_execute_task TaskType_value decode_task default_handlers 1)
      wait_then_step empty_run
      = Some (Ok [length (Run.results empty_run);
                  S (length (Run.results empty_run))], r') ∧
    result_status r' (length (Run.results empty_run)) = Some SKIPPED ∧
    result_status r' (S (length (Run.results empty_run))) = Some COMPLETED ∧
    Run.invoked r' = Run.invoked empty_run ++ [step_a].
Proof.
  apply (handle_sequence_continues_after_skipped
           TaskType_value decode_task default_handlers 0 wait_then_step
           empty_run waiting_descriptor (descriptor "a" "A" "notification")
           step_waiting step_a "missing" quiet_handler).
  - reflexivity.
  - reflexivity.
  - reflexivity.
  - apply list_elem_of_here.
  - by vm_compute.
  - reflexivity.
  - by vm_compute.
  - intros i rs. by eexists.
Defined.

Lemma execute_sequence_with_bad_descriptor_witness :
  ∃ r',
    _execute_task TaskType_value decode_task default_handlers 1
      steps_by_name empty_run
      = Some (Ok (length (Run.results empty_run)), r') ∧
    recorded_result r' (Task.id steps_by_name)
      = Some (failed_result empty_run
                (mkExn TypeError
                   "Task() argument after ** must be a mapping, not str")) ∧
    Run.results r'
      = Run.results empty_run
          ++ [failed_result empty_run
                (mkExn TypeError
                   "Task() argument after ** must be a mapping, not str")] ∧
    Run.invoked r' = Run.invoked empty_run ++ [steps_by_name].
Proof.
  apply (execute_sequence_with_bad_descriptor
           TaskType_value decode_task default_handlers 0 steps_by_name
           empty_run (VStr "a") [VStr "b"]).
  - by vm_compute.
  - by apply no_dependencies_completed.
  - reflexivity.
  - reflexivity.
  - reflexivity.
Defined.

(** ** The engine's facade *)

Lemma dict_lookup_set_ne (k k' : string) (v : Value) (d : Dict) :
  k ≠ k' → dict_lookup k (dict_set k' v d) = dict_lookup k d.
Proof.
  intros Hne. induction d as [|[k'' v''] d IH]; simpl.
  - by rewrite decide_False.
  - destruct (decide (k' = k'')) as [->|Hne']; simpl.
    + by rewrite !decide_False.
    + destruct (decide (k = k'')); [done|]. exact IH.
Qed.

Lemma dict_lookup_app (k : string) (d d' : Dict) :
  dict_lookup k (d ++ d')
    = match dict_lookup k d with Some v => Some v | None => dict_lookup k d' end.
Proof.
  induction d as [|[k' v'] d IH]; simpl; [done|].
  by destruct (decide (k = k')).
Qed.

(** In [{**a, **b}] a key of [b] carries the value that [b] binds to it
    (its last binding, for a list that repeats a key), and any other key the
    value of [a]. *)
Lemma dict_lookup_merge (k : string) (b : Dict) :
  ∀ a, dict_lookup k (dict_merge a b)
       = match dict_lookup k (reverse b) with
         | Some v => Some v
         | None => dict_lookup k a
         end.
Proof.
  unfold dict_merge.
  induction b as [|[k' v'] b IH]; intros a; simpl; [done|].
  rewrite IH, reverse_cons, dict_lookup_app.
  destruct (dict_lookup k (reverse b)); [done|]. simpl.
  destruct (decide (k = k')) as [->|Hne].
  - apply dict_lookup_set_eq.
  - by apply dict_lookup_set_ne.
Qed.

Lemma dict_lookup_Some_elem (k : string) (v : Value) (d : Dict) :
  dict_lookup k d = Some v → (k, v) ∈ d.
Proof.
  induction d as [|[k' v'] d IH]; simpl; [done|].
  destruct (decide (k = k')) as [->|Hne].
  - intros [= ->]. apply list_elem_of_here.
  - intros H. by apply list_elem_of_further, IH.
Qed.

Lemma dict_lookup_None_elem (k : string) (d : Dict) :
  dict_lookup k d = None → k ∉ d.*1.
Proof.
  induction d as [|[k' v'] d IH]; simpl.
  - intros _. apply not_elem_of_nil.
  - destruct (decide (k = k')) as [->|Hne]; [done|].
    intros H. apply not_elem_of_cons. split; [done|by apply IH].
Qed.

Lemma dict_lookup_elem_NoDup (k : string) (v : Value) (d : Dict) :
  NoDup d.*1 → (k, v) ∈ d → dict_lookup k d = Some v.
Proof.
  induction d as [|[k' v'] d IH]; simpl.
  - intros _ H. by apply elem_of_nil in H.
  - intros [Hnotin Hnodup]%NoDup_cons [Heq|Hin]%elem_of_cons.
    + simplify_eq. by rewrite decide_True.
    + destruct (decide (k = k')) as [->|Hne]; [|by apply IH].
      destruct Hnotin. apply list_elem_of_fmap. by exists (k', v).
Qed.

Lemma dict_lookup_reverse (k : string) (d : Dict) :
  NoDup d.*1 → dict_lookup k (reverse d) = dict_lookup k d.
Proof.
  intros Hnodup.
  destruct (dict_lookup k d) as [v|] eqn:Hd.
  - apply dict_lookup_elem_NoDup.
    + by rewrite fmap_reverse, reverse_Permutation.
    + rewrite elem_of_reverse. by apply dict_lookup_Some_elem.
  - destruct (dict_lookup k (reverse d)) as [v|] eqn:Hr; [|done].
    apply dict_lookup_Some_elem in Hr. rewrite elem_of_reverse in Hr.
    apply dict_lookup_None_elem in Hd. destruct Hd.
    apply list_elem_of_fmap. exists (k, v). by split.
Qed.

Section facade.
Context (format_TaskType : TaskType → string).
Context (Task_new : Dict → Result Task).
Context (visit_depth : nat).

(** X16: [start_process] on a registered process returns the identifier of
    a new instance that [get_instance_status] then finds: it is [PENDING],
    belongs to the process, has no task result, and its variables are the
    process defaults overridden by the caller's variables (a name the caller
    gives carries the caller's value, any other name the default).  Its run
    is only scheduled: no handler has been invoked and no result object
    created when the call returns, and the other instances and the
    registered processes are left as they were. *)
Theorem start_process_creates_pending_instance
    (process_id : string) (variables : option Dict) (w : World)
    (process : ProcessDefinition.t) :
  WorkflowEngine.processes (engine w) !! process_id = Some process →
  NoDup (default [] variables).*1 →
  ∃ id i w',
    start_process process_id variables w = (Ok id, w') ∧
    get_instance_status id w' = Some i ∧
    WorkflowInstance.id i = id ∧
    WorkflowInstance.process_id i = process_id ∧
    WorkflowInstance.status i = PENDING ∧
    WorkflowInstance.task_results i = ∅ ∧
    (∀ k, dict_lookup k (WorkflowInstance.variables i)
          = match dict_lookup k (default [] variables) with
            | Some v => Some v
            | None => dict_lookup k (ProcessDefinition.variables process)
            end) ∧
    (∀ other, other ≠ id →
              get_instance_status other w' = get_instance_status other w) ∧
    WorkflowEngine.processes (engine w') = WorkflowEngine.processes (engine w) ∧
    objects w' = objects w ∧ calls w' = calls w ∧
    scheduled w' = scheduled w ++ [id].
Proof.
  intros Hp Hnodup. unfold start_process. rewrite Hp.
  eexists _, _, _. split; [reflexivity|]. unfold get_instance_status. cbn.
  rewrite lookup_insert_eq. split_and!; try done.
  - intros k. cbn. by rewrite dict_lookup_merge, dict_lookup_reverse.
  - intros other Hne. by rewrite lookup_insert_ne.
Qed.

(** X17: an instance cannot be cancelled between [start_process] and the
    start of its run: it is still [PENDING], so [cancel_instance] returns
    [False] and changes nothing. *)
Theorem cancel_instance_refuses_just_started
    (process_id : string) (variables : option Dict) (w : World)
    (process : ProcessDefinition.t) :
  WorkflowEngine.processes (engine w) !! process_id = Some process →
  ∃ id w',
    start_process process_id variables w = (Ok id, w') ∧
    cancel_instance id w' = (false, w').
Proof.
  intros Hp. unfold start_process. rewrite Hp.
  eexists _, _. split; [reflexivity|].
  unfold cancel_instance. cbn. by rewrite lookup_insert_eq.
Qed.

(** X18: once [_execute_instance] has returned, the instance cannot be
    cancelled any more: [cancel_instance] returns [False] and changes
    nothing, whatever the outcome of the run was. *)
Theorem cancel_instance_refuses_finished_instance
    (fuel : nat) (w : World) (instance_id : string)
    (i : WorkflowInstance.t) (process : ProcessDefinition.t)
    (res : Result unit) (w' : World) :
  WorkflowEngine.instances (engine w) !! instance_id = Some i →
  WorkflowEngine.processes (engine w) !! WorkflowInstance.process_id i
    = Some process →
  _execute_instance format_TaskType Task_new visit_depth fuel instance_id w
    = Some (res, w') →
  cancel_instance instance_id w' = (false, w').
Proof.
  intros Hi Hp Hrun.
  destruct (execute_instance_inversion _ _ _ _ _ _ _ _ _ _ Hi Hp Hrun)
    as (outcome & r1 & _ & _ & ->).
  unfold cancel_instance. cbn. rewrite lookup_insert_eq. cbn.
  rewrite bool_decide_eq_false_2; [done|].
  destruct outcome; [case_bool_decide|]; done.
Qed.

(** X19: [cancel_instance] on a [RUNNING] instance returns [True] and marks
    that instance [CANCELLED], keeping its variables and task results and
    every other instance; a second call returns [False] and changes
    nothing. *)
Theorem cancel_instance_marks_running_instance
    (instance_id : string) (w : World) (i : WorkflowInstance.t) :
  get_instance_status instance_id w = Some i →
  WorkflowInstance.status i = RUNNING →
  ∃ w',
    cancel_instance instance_id w = (true, w') ∧
    get_instance_status instance_id w'
      = Some (WorkflowInstance.set_status CANCELLED i) ∧
    (∀ other, other ≠ instance_id →
              get_instance_status other w' = get_instance_status other w) ∧
    WorkflowEngine.processes (engine w') = WorkflowEngine.processes (engine w) ∧
    objects w' = objects w ∧ calls w' = calls w ∧
    cancel_instance instance_id w' = (false, w').
Proof.
  unfold get_instance_status. intros Hi Hrunning.
  unfold cancel_instance at 1. rewrite Hi, bool_decide_eq_true_2 by done.
  eexists. split; [reflexivity|]. cbn. rewrite lookup_insert_eq.
  split_and!; try done.
  - intros other Hne. by rewrite lookup_insert_ne.
  - unfold cancel_instance. cbn. by rewrite lookup_insert_eq.
Qed.

(** X20: an exception that escapes [_execute_task] ends the instance
    [FAILED], and the tasks after it are not executed.  Here the first task
    of the execution order has a handler that raises and a retry policy
    whose [max_retries] is a string: the handler is invoked once, its failure
    is recorded, the comparison of the retry counter with the string raises,
    and [_execute_instance] returns with the instance [FAILED]. *)
Theorem execute_instance_fails_on_escaping_exception
    (fuel : nat) (w : World) (instance_id : string)
    (i : WorkflowInstance.t) (process : ProcessDefinition.t)
    (task : Task) (rest : list Task) (s : string)
    (f : Task → WorkflowInstance.t → list TaskResult.t → Effect) :
  WorkflowEngine.instances (engine w) !! instance_id = Some i →
  WorkflowEngine.processes (engine w) !! WorkflowInstance.process_id i
    = Some process →
  _get_execution_order visit_depth (ProcessDefinition.tasks process)
    = Ok (task :: rest) →
  WorkflowEngine.task_handlers (engine w) !! Task.type task = Some (Callable f) →
  Task.dependencies task = [] →
  always_raises f task →
  keeps_retry_counter f task →
  dict_lookup (retry_key task) (WorkflowInstance.variables i) = None →
  dict_lookup "max_retries" (Task.retry_policy task) = Some (VStr s) →
  ∃ w' final,
    _execute_instance format_TaskType Task_new visit_depth (S fuel)
      instance_id w
      = Some (Ok tt, w') ∧
    get_instance_status instance_id w' = Some final ∧
    WorkflowInstance.status final = FAILED ∧
    calls w' = calls w ++ [task] ∧
    TaskResult.status <$>
      (ref ← WorkflowInstance.task_results final !! Task.id task; objects w' !! ref)
      = Some FAILED.
Proof.
  intros Hi Hp Horder Hf Hdeps Hraises Hkeeps Hcounter Hmax.
  set (r0 := Run.mk (WorkflowInstance.set_status RUNNING i)
               (objects w) (time w) (calls w)).
  destruct (Hraises (Run.instance (attempt_started task r0))
              (Run.results (attempt_started task r0))) as [e He].
  fold (attempt_effect f task r0) in He.
  pose proof (Hkeeps (Run.instance (attempt_started task r0))
                (Run.results (attempt_started task r0))) as Hk.
  fold (attempt_effect f task r0) in Hk. cbn in Hk. rewrite Hcounter in Hk.
  assert (_execute_task format_TaskType Task_new
            (WorkflowEngine.task_handlers (engine w)) (S fuel) task r0
          = Some (Raise (not_supported OpLt (VInt 0) (VStr s)),
                  attempt_settled task r0 (attempt_effect f task r0)
                    (failed_result r0 e))) as Hexec.
  { rewrite (execute_task_attempt_raises _ _ _ _ _ _ _ _ Hf
               (no_dependencies_completed _ _ Hdeps) He).
    assert (dict_truthy (Task.retry_policy task) = true) as ->
      by (by destruct (Task.retry_policy task)).
    unfold _handle_retry, retry_key, dict_get in *. rewrite Hmax.
    run_step. by rewrite Hk. }
  unfold _execute_instance. rewrite Hi, Hp, Horder.
  unfold mbind at 1, M_bind at 1, lift at 1.
  unfold mbind at 1, M_bind at 1.
  change (run_tasks format_TaskType Task_new
            (WorkflowEngine.task_handlers (engine w)) (S fuel) (task :: rest))
    with (r ← get_run;
          if bool_decide (WorkflowInstance.status (Run.instance r) = CANCELLED)
          then mret tt
          else _ ← _execute_task format_TaskType Task_new
                     (WorkflowEngine.task_handlers (engine w)) (S fuel) task;
               run_tasks format_TaskType Task_new
                 (WorkflowEngine.task_handlers (engine w)) (S fuel) rest).
  unfold mbind at 1, M_bind at 1, get_run at 1. fold r0.
  rewrite bool_decide_eq_false_2 by done.
  unfold mbind at 1, M_bind at 1. rewrite Hexec.
  eexists _, _. split; [reflexivity|].
  unfold get_instance_status. cbn. rewrite lookup_insert_eq.
  split_and!; [done..|]. cbn. rewrite lookup_insert_eq. cbn.
  by rewrite lookup_app_r, Nat.sub_diag by lia.
Qed.

End facade.

Lemma start_process_creates_pending_instance_witness :
  ∃ id i w',
    start_process "t" (Some triage_variables) triage_registered = (Ok id, w') ∧
    get_instance_status id w' = Some i ∧
    WorkflowInstance.id i = id ∧
    WorkflowInstance.process_id i = "t" ∧
    WorkflowInstance.status i = PENDING ∧
    WorkflowInstance.task_results i = ∅ ∧
    (∀ k, dict_lookup k (WorkflowInstance.variables i)
          = match dict_lookup k (default [] (Some triage_variables)) with
            | Some v => Some v
            | None => dict_lookup k (ProcessDefinition.variables triage_process)
            end) ∧
    (∀ other, other ≠ id →
              get_instance_status other w'
                = get_instance_status other triage_registered) ∧
    WorkflowEngine.processes (engine w')
      = WorkflowEngine.processes (engine triage_registered) ∧
    objects w' = objects triage_registered ∧
    calls w' = calls triage_registered ∧
    scheduled w' = scheduled triage_registered ++ [id].
Proof.
  apply (start_process_creates_pending_instance
           "t" (Some triage_variables) triage_registered triage_process).
  - by vm_compute.
  - cbn. repeat constructor; set_solver.
Defined.

(** The caller's [threshold] replaces the default, in the default's place;
    the caller's new name comes last. *)
Example started_instance_variables :
  WorkflowInstance.variables <$>
    get_instance_status "t_0"
      (start_process "t" (Some triage_variables) triage_registered).2
  = Some [("threshold", VInt 9); ("unit", VStr "mmol"); ("patient", VStr "p1")].
Proof. by vm_compute. Qed.

Lemma cancel_instance_refuses_just_started_witness :
  ∃ id w',
    start_process "t" (Some triage_variables) triage_registered = (Ok id, w') ∧
    cancel_instance id w' = (false, w').
Proof.
  apply (cancel_instance_refuses_just_started
           "t" (Some triage_variables) triage_registered triage_process).
  by vm_compute.
Defined.

Lemma cancel_instance_refuses_finished_instance_witness :
  _execute_instance TaskType_value decode_task ample_depth 1 "p_0" approval_world
    = Some (Ok tt, approval_done) ∧
  cancel_instance "p_0" approval_done = (false, approval_done).
Proof.
  assert (_execute_instance TaskType_value decode_task ample_depth 1 "p_0" approval_world
          = Some (Ok tt, approval_done)) as Hrun by (by vm_compute).
  split; [exact Hrun|].
  apply (cancel_instance_refuses_finished_instance
           TaskType_value decode_task ample_depth 1 approval_world "p_0"
           (WorkflowInstance.mk "p_0" "p" PENDING [] ∅ 1 2)
           approval_process (Ok tt) approval_done).
  - by vm_compute.
  - by vm_compute.
  - exact Hrun.
Defined.

Lemma cancel_instance_marks_running_instance_witness :
  ∃ w',
    cancel_instance "p_0" approval_running = (true, w') ∧
    get_instance_status "p_0" w'
      = Some (WorkflowInstance.set_status CANCELLED
                (WorkflowInstance.mk "p_0" "p" RUNNING [] ∅ 1 2)) ∧
    (∀ other, other ≠ "p_0" →
              get_instance_status other w'
                = get_instance_status other approval_running) ∧
    WorkflowEngine.processes (engine w')
      = WorkflowEngine.processes (engine approval_running) ∧
    objects w' = objects approval_running ∧
    calls w' = calls approval_running ∧
    cancel_instance "p_0" w' = (false, w').
Proof.
  apply (cancel_instance_marks_running_instance "p_0" approval_running
           (WorkflowInstance.mk "p_0" "p" RUNNING [] ∅ 1 2)).
  - by vm_compute.
  - reflexivity.
Defined.

Lemma execute_instance_fails_on_escaping_exception_witness :
  ∃ w' final,
    _execute_instance TaskType_value decode_task ample_depth 1 "f_0" flaky_text_world
      = Some (Ok tt, w') ∧
    get_instance_status "f_0" w' = Some final ∧
    WorkflowInstance.status final = FAILED ∧
    calls w' = calls flaky_text_world ++ [flaky_text] ∧
    TaskResult.status <$>
      (ref ← WorkflowInstance.task_results final !! Task.id flaky_text;
       objects w' !! ref)
      = Some FAILED.
Proof.
  apply (execute_instance_fails_on_escaping_exception
           TaskType_value decode_task ample_depth 0 flaky_text_world "f_0"
           (WorkflowInstance.mk "f_0" "f" PENDING [] ∅ 1 2)
           flaky_text_process flaky_text [approval] "2" failing_handler).
  - by vm_compute.
  - by vm_compute.
  - by vm_compute.
  - by vm_compute.
  - reflexivity.
  - intros j rs. by eexists.
  - by intros j rs.
  - reflexivity.
  - reflexivity.
Defined.

(** ** Conditions in general *)

Lemma substring_whole (s : string) : String.substring 0 (String.length s) s = s.
Proof. induction s as [|c s IH]; simpl; [done|]. by rewrite IH. Qed.

(** A reference [$name] evaluates to [variables.get(name)]. *)
Lemma get_variable_value_reference (name : string) (variables : Dict) :
  _get_variable_value (VStr ("$" +:+ name)) variables
    = Ok (dict_get variables name VNone).
Proof.
  unfold _get_variable_value.
  change ("$" +:+ name) with (String (Ascii.ascii_of_nat 36) name). simpl.
  assert (String.prefix EmptyString name = true) as -> by (by destruct name).
  by rewrite Nat.sub_0_r, substring_whole.
Qed.

Lemma evaluate_condition_ordering (condition variables : Dict)
    (operator : string) (op : CmpOp) (l r lv rv : Value) :
  dict_get condition "operator" (VStr "eq") = VStr operator →
  ordering_operator operator = Some op →
  dict_get condition "left" (VStr "") = l →
  dict_get condition "right" (VStr "") = r →
  _get_variable_value l variables = Ok lv →
  _get_variable_value r variables = Ok rv →
  _evaluate_condition condition variables = py_order op lv rv.
Proof.
  intros Hop Hord <- <- Hl Hr. unfold _evaluate_condition.
  rewrite Hop, Hl. cbn. rewrite Hr. cbn.
  unfold ordering_operator in Hord.
  repeat case_decide; simplify_eq; done.
Qed.

(** X21: an ordering comparison ([gt], [lt], [gte], [lte]) of a variable
    that holds a number with a literal operand raises a [TypeError]: a
    literal operand is a string (anything else has no [startswith]), it is
    never converted, and Python does not order a number and a string.  This
    is the shape of the conditions of the clinical decision example,
    [$risk_score] against ["0.8"]. *)
Theorem evaluate_condition_number_against_literal
    (condition variables : Dict) (name operator literal : string)
    (op : CmpOp) (x : Num) :
  dict_get condition "operator" (VStr "eq") = VStr operator →
  ordering_operator operator = Some op →
  dict_get condition "left" (VStr "") = VStr ("$" +:+ name) →
  dict_get condition "right" (VStr "") = VStr literal →
  String.prefix "$" literal = false →
  as_num (dict_get variables name VNone) = Some x →
  _evaluate_condition condition variables
    = Raise (not_supported op (dict_get variables name VNone) (VStr literal)).
Proof.
  intros Hop Hord Hl Hr Hlit Hnum.
  rewrite (evaluate_condition_ordering _ _ _ _ _ _
             (dict_get variables name VNone) (VStr literal) Hop Hord Hl Hr).
  - destruct (dict_get variables name VNone); try done;
      destruct op; cbn in *; by rewrite ?Hnum.
  - apply get_variable_value_reference.
  - unfold _get_variable_value. by rewrite Hlit.
Qed.

(** X22: an ordering comparison whose left operand refers to a variable
    that is unset (or set to [None]) raises a [TypeError], whatever the
    right operand evaluates to: [variables.get] gives [None], and [None] is
    not ordered against anything. *)
Theorem evaluate_condition_unset_variable
    (condition variables : Dict) (name operator : string)
    (op : CmpOp) (r rv : Value) :
  dict_get condition "operator" (VStr "eq") = VStr operator →
  ordering_operator operator = Some op →
  dict_get condition "left" (VStr "") = VStr ("$" +:+ name) →
  dict_get condition "right" (VStr "") = r →
  dict_get variables name VNone = VNone →
  _get_variable_value r variables = Ok rv →
  _evaluate_condition condition variables = Raise (not_supported op VNone rv).
Proof.
  intros Hop Hord Hl Hr Hunset Hrv.
  rewrite (evaluate_condition_ordering _ _ _ _ _ _ VNone rv Hop Hord Hl Hr);
    [by destruct op, rv| |done].
  by rewrite get_variable_value_reference, Hunset.
Qed.

Lemma evaluate_condition_number_against_literal_witness :
  _evaluate_condition risk_above_text [("risk_score", VFloat 0.9)]
    = Raise (not_supported OpGt
               (dict_get [("risk_score", VFloat 0.9)] "risk_score" VNone)
               (VStr "0.8")).
Proof.
  apply (evaluate_condition_number_against_literal
           risk_above_text [("risk_score", VFloat 0.9)] "risk_score" "gt" "0.8"
           OpGt (NFloat 0.9)); reflexivity.
Defined.

Lemma evaluate_condition_unset_variable_witness :
  _evaluate_condition risk_above_text [] = Raise (not_supported OpGt VNone (VStr "0.8")).
Proof.
  apply (evaluate_condition_unset_variable
           risk_above_text [] "risk_score" "gt" OpGt (VStr "0.8") (VStr "0.8"));
    reflexivity.
Defined.

(** ** Variables by path and the transformation handler *)

Lemma split_first_plain (sep : Ascii.ascii) (s : string) :
  mentions sep s = false → split_first sep s = (s, []).
Proof.
  induction s as [|c s IH]; simpl; [done|].
  intros [Hc Hs]%orb_false_elim. rewrite (IH Hs).
  apply bool_decide_eq_false in Hc. by rewrite decide_False.
Qed.

Lemma str_split_app (sep : Ascii.ascii) (p name : string) :
  mentions sep name = false →
  str_split sep (p +:+ String sep name) = str_split sep p ++ [name].
Proof.
  intros Hname. unfold str_split.
  induction p as [|c p IH].
  - change (EmptyString +:+ String sep name) with (String sep name). simpl.
    by rewrite (split_first_plain _ _ Hname), decide_True.
  - change (String c p +:+ String sep name) with (String c (p +:+ String sep name)).
    simpl.
    destruct (split_first sep (p +:+ String sep name)) as [q qs].
    destruct (split_first sep p) as [q' qs'].
    simplify_list_eq. by destruct (decide (c = sep)).
Qed.

Lemma get_path_None (parts : list string) :
  parts ≠ [] → get_path parts VNone = VNone.
Proof. by destruct parts. Qed.

Lemma get_path_app (ps qs : list string) :
  qs ≠ [] → ∀ v, get_path (ps ++ qs) v = get_path qs (get_path ps v).
Proof.
  intros Hqs. induction ps as [|p ps IH]; intros v; simpl; [done|].
  destruct v; by rewrite ?get_path_None.
Qed.

(** X23: how [_get_variable] reads a dotted path.  A name without a dot is
    looked up in the instance's variables ([None] when unset).  Appending
    [.name] to a path steps into the value the path leads to: the entry
    [name] of that value when it is a dictionary ([None] when it has no such
    entry), and [None] when it is anything else.  So the path [a.b] reads
    the entry [b] of the variable [a], not a variable named [a.b]. *)
Theorem get_variable_follows_path (instance : WorkflowInstance.t) (name : string) :
  mentions dot name = false →
  _get_variable instance (VStr name)
    = Ok (dict_get (WorkflowInstance.variables instance) name VNone) ∧
  ∀ path v,
    _get_variable instance (VStr path) = Ok v →
    _get_variable instance (VStr (path +:+ "." +:+ name))
      = Ok (match v with VDict d => dict_get d name VNone | _ => VNone end).
Proof.
  intros Hname. split.
  - unfold _get_variable, str_split.
    by rewrite (split_first_plain _ _ Hname).
  - intros path v [= <-]. unfold _get_variable.
    change ("." +:+ name) with (String dot name).
    by rewrite (str_split_app _ _ _ Hname), get_path_app.
Qed.

Section transformation.
Context (format_TaskType : TaskType → string).
Context (Task_new : Dict → Result Task).
Context (task_handlers : gmap TaskType Handler).

(** X24: a transformation task transforms nothing.  With a string (or no)
    [input] and a dictionary (or no) [transform] in its configuration,
    whatever the [type] of that transform, [_execute_task] records the task
    as [COMPLETED] with the value that [_get_variable] finds at the input
    path as its output, and leaves the instance's variables and status as
    they were. *)
Theorem execute_transformation_returns_input
    (fuel : nat) (task : Task) (r : Run) (path : string) (transform : Dict) :
  task_handlers !! Task.type task = Some (Callable transformation_callable) →
  dependencies_completed r task →
  dict_get (Task.config task) "input" (VStr "") = VStr path →
  dict_get (Task.config task) "transform" (VDict []) = VDict transform →
  ∃ v r',
    _get_variable (Run.instance r) (VStr path) = Ok v ∧
    _execute_task format_TaskType Task_new task_handlers (S fuel) task r
      = Some (Ok (length (Run.results r)), r') ∧
    recorded_result r' (Task.id task) = Some (completed_result r v) ∧
    WorkflowInstance.variables (Run.instance r')
      = WorkflowInstance.variables (Run.instance r) ∧
    WorkflowInstance.status (Run.instance r')
      = WorkflowInstance.status (Run.instance r).
Proof.
  intros Hhandler Hdeps Hinput Htransform.
  set (v := get_path (str_split dot path)
              (VDict (WorkflowInstance.variables (Run.instance r)))).
  assert (returned (attempt_effect transformation_callable task r) = Ok v) as Hv.
  { unfold attempt_effect, transformation_callable, _handle_transformation.
    cbn. rewrite Hinput, Htransform. cbn.
    by destruct (py_eq (dict_get transform "type" VNone) (VStr "fhir_mapping")). }
  exists v. eexists. split; [done|]. split.
  - apply (execute_task_attempt_returns _ _ _ _ _ _ _ _ Hhandler Hdeps Hv).
  - unfold recorded_result. cbn. rewrite lookup_insert_eq. cbn.
    by rewrite lookup_app_r, Nat.sub_diag by lia.
Qed.

End transformation.

Lemma get_variable_follows_path_witness :
  mentions dot "age" = false ∧
  _get_variable patient_instance (VStr "age")
    = Ok (dict_get (WorkflowInstance.variables patient_instance) "age" VNone) ∧
  ∀ path v,
    _get_variable patient_instance (VStr path) = Ok v →
    _get_variable patient_instance (VStr (path +:+ "." +:+ "age"))
      = Ok (match v with VDict d => dict_get d "age" VNone | _ => VNone end).
Proof.
  split; [reflexivity|].
  apply (get_variable_follows_path patient_instance "age"). reflexivity.
Defined.

(** The path [patient.age] leads into the dictionary held by [patient],
    not to the variable that is itself named [patient.age]. *)
Example get_variable_prefers_nesting :
  _get_variable patient_instance (VStr "patient.age") = Ok (VInt 42) ∧
  dict_lookup "patient.age" (WorkflowInstance.variables patient_instance)
    = Some (VInt 7).
Proof. split; by vm_compute. Qed.

Lemma execute_transformation_returns_input_witness :
  ∃ v r',
    _get_variable (Run.instance patient_run) (VStr "patient.age") = Ok v ∧
    _execute_task TaskType_value decode_task handlers_with_transformation 1
      risk_assessment patient_run
      = Some (Ok (length (Run.results patient_run)), r') ∧
    recorded_result r' (Task.id risk_assessment)
      = Some (completed_result patient_run v) ∧
    WorkflowInstance.variables (Run.instance r')
      = WorkflowInstance.variables (Run.instance patient_run) ∧
    WorkflowInstance.status (Run.instance r')
      = WorkflowInstance.status (Run.instance patient_run).
Proof.
  apply (execute_transformation_returns_input
           TaskType_value decode_task handlers_with_transformation 0
           risk_assessment patient_run "patient.age"
           [("type", VStr "ai_risk_prediction");
            ("model", VStr "chronic-disease-predictor")]).
  - reflexivity.
  - by apply no_dependencies_completed.
  - reflexivity.
  - reflexivity.
Defined.

(** ** The decision handler *)

Lemma run_actions_binds (actions : list Value) :
  ∀ (bindings : list (list (string * Value))) (variables : Dict),
    Forall2 action_binds actions bindings →
    run_actions actions variables
      = Some (Ok tt, dict_merge variables (concat bindings)).
Proof.
  induction actions as [|action actions IH]; intros bindings variables Hall.
  - by apply Forall2_nil_inv_l in Hall as ->.
  - apply Forall2_cons_inv_l in Hall as (b & bs & Hb & Hbs & ->).
    simpl. destruct Hb as [a name Htype Hname|a Htype]; simpl.
    + rewrite Htype, Hname. simpl. by rewrite (IH bs _ Hbs).
    + rewrite Htype. by rewrite (IH bs _ Hbs).
Qed.

Lemma decision_loop_skips (variables : Dict) (pre : list Dict) (rest : list Value) :
  Forall (rule_evaluates variables (Ok false)) pre →
  decision_loop ((VDict <$> pre) ++ rest) variables = decision_loop rest variables.
Proof.
  induction 1 as [|rule pre (c & Hc & Hfalse) _ IH]; [done|].
  change ((VDict <$> rule :: pre) ++ rest)
    with (VDict rule :: ((VDict <$> pre) ++ rest)).
  cbn [decision_loop py_get]. rewrite Hc.
  cbn [mbind Result_bind evaluate_rule_condition]. by rewrite Hfalse.
Qed.

(** X25: the decision handler applies the first rule whose condition holds,
    and only that one.  When the conditions of the rules before it evaluate
    to false and its own to true, the handler returns [True] after running
    the rule's actions in order: each [set_variable] action binds its
    variable, later bindings of a name replacing earlier ones, and an action
    of any other type does nothing.  The rules after it are not looked at,
    whatever they are. *)
Theorem handle_decision_applies_first_matching_rule
    (task : Task) (variables : Dict) (pre : list Dict) (rule : Dict)
    (post actions : list Value) (bindings : list (list (string * Value))) :
  dict_get (Task.config task) "rules" (VList [])
    = VList ((VDict <$> pre) ++ VDict rule :: post) →
  Forall (rule_evaluates variables (Ok false)) pre →
  rule_evaluates variables (Ok true) rule →
  dict_get rule "actions" (VList []) = VList actions →
  Forall2 action_binds actions bindings →
  _handle_decision task variables
    = Some (Ok (VBool true), dict_merge variables (concat bindings)).
Proof.
  intros Hrules Hpre (c & Hc & Htrue) Hactions Hbinds.
  unfold _handle_decision. rewrite Hrules. cbn [py_iter].
  rewrite (decision_loop_skips _ _ _ Hpre).
  cbn [decision_loop py_get]. rewrite Hc, Hactions.
  cbn [mbind Result_bind evaluate_rule_condition py_iter]. rewrite Htrue.
  by rewrite (run_actions_binds _ _ _ Hbinds).
Qed.

(** X26: when the condition of every rule evaluates to false (in
    particular when there is no rule), the decision handler returns [False]
    and leaves the variables as they were. *)
Theorem handle_decision_without_matching_rule
    (task : Task) (variables : Dict) (rules : list Dict) :
  dict_get (Task.config task) "rules" (VList []) = VList (VDict <$> rules) →
  Forall (rule_evaluates variables (Ok false)) rules →
  _handle_decision task variables = Some (Ok (VBool false), variables).
Proof.
  intros Hrules Hall. unfold _handle_decision. rewrite Hrules. cbn [py_iter].
  rewrite <- (app_nil_r (VDict <$> rules)).
  by rewrite (decision_loop_skips _ _ _ Hall).
Qed.

(** X27: a condition that raises ends the decision.  When the conditions of
    the rules before it evaluate to false and the evaluation of its own
    condition raises, the handler raises that exception; no action has run
    (the variables are as they were) and the rules after it are not looked
    at, so a later rule whose condition would hold is not applied. *)
Theorem handle_decision_raises_with_condition
    (task : Task) (variables : Dict) (pre : list Dict) (rule : Dict)
    (post : list Value) (e : Exn) :
  dict_get (Task.config task) "rules" (VList [])
    = VList ((VDict <$> pre) ++ VDict rule :: post) →
  Forall (rule_evaluates variables (Ok false)) pre →
  rule_evaluates variables (Raise e) rule →
  _handle_decision task variables = Some (Raise e, variables).
Proof.
  intros Hrules Hpre (c & Hc & Hraise).
  unfold _handle_decision. rewrite Hrules. cbn [py_iter].
  rewrite (decision_loop_skips _ _ _ Hpre).
  cbn [decision_loop py_get]. rewrite Hc.
  cbn [mbind Result_bind evaluate_rule_condition]. by rewrite Hraise.
Qed.

Lemma handle_decision_applies_first_matching_rule_witness :
  _handle_decision graded_decision moderate_risk
    = Some (Ok (VBool true),
            dict_merge moderate_risk
              (concat [[("priority",
                         dict_get
                           [("type", VStr "set_variable");
                            ("variable", VStr "priority");
                            ("value", VStr "moderate")] "value" (VStr ""))]])).
Proof.
  apply (handle_decision_applies_first_matching_rule
           graded_decision moderate_risk [urgent_rule] moderate_rule []
           [VDict [("type", VStr "set_variable");
                   ("variable", VStr "priority");
                   ("value", VStr "moderate")]]).
  - reflexivity.
  - constructor; [|constructor]. eexists. split; [reflexivity|]. by vm_compute.
  - eexists. split; [reflexivity|]. by vm_compute.
  - reflexivity.
  - constructor; [|constructor]. by apply binds_variable.
Defined.

Lemma handle_decision_without_matching_rule_witness :
  _handle_decision graded_decision low_risk = Some (Ok (VBool false), low_risk).
Proof.
  apply (handle_decision_without_matching_rule
           graded_decision low_risk [urgent_rule; moderate_rule]).
  - reflexivity.
  - repeat constructor; (eexists; split; [reflexivity|]; by vm_compute).
Defined.

(** The decision of the chronic care example, whose thresholds are text,
    raises for a numeric score. *)
Lemma handle_decision_raises_with_condition_witness :
  _handle_decision clinical_decision [("risk_score", VFloat 0.9)]
    = Some (Raise (not_supported OpGt (VFloat 0.9) (VStr "0.8")),
            [("risk_score", VFloat 0.9)]).
Proof.
  apply (handle_decision_raises_with_condition
           clinical_decision [("risk_score", VFloat 0.9)] []
           [("condition",
             VDict [("operator", VStr "gt"); ("left", VStr "$risk_score");
                    ("right", VStr "0.8")]);
            ("actions",
             VList
               [VDict [("type", VStr "notification");
                       ("template", VStr "high_risk_alert")];
                VDict [("type", VStr "set_variable");
                       ("variable", VStr "priority");
                       ("value", VStr "urgent")]])]
           [VDict
              [("condition",
                VDict [("operator", VStr "gt"); ("left", VStr "$risk_score");
                       ("right", VStr "0.6")]);
               ("actions",
                VList
                  [VDict [("type", VStr "set_variable");
                          ("variable", VStr "priority");
                          ("value", VStr "moderate")]])]]).
  - reflexivity.
  - constructor.
  - eexists. split; [reflexivity|]. by vm_compute.
Defined.

(** ** Variable substitution *)

Lemma prefix_empty (s : string) : String.prefix EmptyString s = true.
Proof. by destruct s. Qed.

Lemma prefix_cons (a b : Ascii.ascii) (s t : string) :
  String.prefix (String a s) (String b t)
    = bool_decide (a = b) && String.prefix s t.
Proof.
  simpl. destruct (Ascii.ascii_dec a b) as [->|Hne].
  - by rewrite bool_decide_eq_true_2.
  - by rewrite bool_decide_eq_false_2.
Qed.

Lemma prefix_append (s t : string) : String.prefix s (s +:+ t) = true.
Proof.
  induction s as [|c s IH]; [apply prefix_empty|].
  change (String c s +:+ t) with (String c (s +:+ t)).
  by rewrite prefix_cons, bool_decide_eq_true_2, IH.
Qed.

Lemma prefix_shorter (a b : string) :
  ∀ t, String.prefix (a +:+ b) t = true → String.prefix a t = true.
Proof.
  induction a as [|c a IH]; intros t; [by rewrite prefix_empty|].
  change (String c a +:+ b) with (String c (a +:+ b)).
  destruct t as [|d t]; [done|]. rewrite !prefix_cons.
  intros [Hc Ht]%andb_prop. by rewrite Hc, (IH _ Ht).
Qed.

Lemma occurs_shorter (a b s : string) :
  occurs a s = false → occurs (a +:+ b) s = false.
Proof.
  induction s as [|c s IH]; cbn [occurs].
  - rewrite !orb_false_r. intros Ha.
    destruct (String.prefix (a +:+ b) EmptyString) eqn:Hab; [|done].
    by rewrite (prefix_shorter _ _ _ Hab) in Ha.
  - intros [Ha Hs]%orb_false_elim. rewrite (IH Hs), orb_false_r.
    destruct (String.prefix (a +:+ b) (String c s)) eqn:Hab; [|done].
    by rewrite (prefix_shorter _ _ _ Hab) in Ha.
Qed.

Lemma replace_from_absent (old new s : string) :
  occurs old s = false → replace_from old new 0 s = s.
Proof.
  induction s as [|c s IH]; [done|].
  cbn [occurs replace_from]. intros [Hp Hs]%orb_false_elim.
  by rewrite Hp, (IH Hs).
Qed.

Lemma replace_from_skip (old new a b : string) :
  replace_from old new (String.length a) (a +:+ b) = replace_from old new 0 b.
Proof. induction a as [|c a IH]; [done|]. exact IH. Qed.

Lemma occurs_without_first (c : Ascii.ascii) (old s : string) :
  mentions c s = false → occurs (String c old) s = false.
Proof.
  induction s as [|d s IH]; [done|]. cbn [mentions occurs].
  intros [Hd Hs]%orb_false_elim. apply bool_decide_eq_false in Hd.
  rewrite prefix_cons, (IH Hs), bool_decide_eq_false_2; [done|].
  by intros ->.
Qed.

Lemma mentions_append (c : Ascii.ascii) (s t : string) :
  mentions c (s +:+ t) = mentions c s || mentions c t.
Proof.
  induction s as [|d s IH]; [done|].
  change (String d s +:+ t) with (String d (s +:+ t)). simpl.
  by rewrite IH, orb_assoc.
Qed.

Lemma placeholder_unfold (key : string) :
  placeholder key
    = String dollar (String (Ascii.ascii_of_nat 123) (key +:+ "}")).
Proof. reflexivity. Qed.

Lemma str_replace_placeholder (key new s : string) :
  str_replace (placeholder key) new s = replace_from (placeholder key) new 0 s.
Proof. reflexivity. Qed.

(** A placeholder does not occur in a text without [$]. *)
Lemma placeholder_absent (key s : string) :
  mentions dollar s = false → occurs (placeholder key) s = false.
Proof. rewrite placeholder_unfold. apply occurs_without_first. Qed.

(** Two plain names whose closed placeholders start alike are equal. *)
Lemma closed_name_prefix (k' : string) :
  ∀ k post,
    mentions closing_brace k' = false → mentions closing_brace k = false →
    String.prefix (k' +:+ "}") ((k +:+ "}") +:+ post) = true → k' = k.
Proof.
  induction k' as [|c' k' IH]; intros k post Hk' Hk Hpre.
  - destruct k as [|c k]; [done|].
    change ((String c k +:+ "}") +:+ post)
      with (String c ((k +:+ "}") +:+ post)) in Hpre.
    change (EmptyString +:+ "}") with (String closing_brace EmptyString) in Hpre.
    rewrite prefix_cons in Hpre. apply andb_prop in Hpre as [Hc _].
    apply bool_decide_eq_true in Hc as <-.
    cbn [mentions] in Hk. by rewrite bool_decide_eq_true_2 in Hk.
  - change (String c' k' +:+ "}") with (String c' (k' +:+ "}")) in Hpre.
    simpl in Hk'. apply orb_false_elim in Hk' as [Hc' Hk'].
    destruct k as [|c k].
    + change ((EmptyString +:+ "}") +:+ post)
        with (String closing_brace post) in Hpre.
      rewrite prefix_cons in Hpre. apply andb_prop in Hpre as [Hc _].
      apply bool_decide_eq_true in Hc as ->.
      by rewrite bool_decide_eq_true_2 in Hc'.
    + change ((String c k +:+ "}") +:+ post)
        with (String c ((k +:+ "}") +:+ post)) in Hpre.
      rewrite prefix_cons in Hpre. apply andb_prop in Hpre as [Hc Hpre].
      apply bool_decide_eq_true in Hc as ->.
      simpl in Hk. apply orb_false_elim in Hk as [_ Hk].
      by rewrite (IH k post Hk' Hk Hpre).
Qed.

(** The placeholder of another name does not occur in a text whose only
    [$] opens the placeholder of [k]. *)
Lemma other_placeholder_absent (k' k pre post : string) :
  k' ≠ k →
  mentions closing_brace k' = false → plain_name k →
  mentions dollar pre = false → mentions dollar post = false →
  occurs (placeholder k') (pre +:+ placeholder k +:+ post) = false.
Proof.
  intros Hne Hk' [Hk1 Hk2] Hpre Hpost.
  induction pre as [|c pre IH].
  - change (EmptyString +:+ placeholder k +:+ post)
      with (String dollar (String (Ascii.ascii_of_nat 123)
                             ((k +:+ "}") +:+ post))).
    cbn [occurs]. apply orb_false_intro.
    + rewrite placeholder_unfold, !prefix_cons, !bool_decide_eq_true_2 by done.
      cbn [andb].
      destruct (String.prefix (k' +:+ "}") ((k +:+ "}") +:+ post)) eqn:Hp;
        [|done].
      by destruct Hne; apply (closed_name_prefix _ _ post).
    + rewrite placeholder_unfold. apply occurs_without_first.
      change (mentions dollar
                (String (Ascii.ascii_of_nat 123) ((k +:+ "}") +:+ post))
              = false).
      cbn [mentions].
      rewrite !mentions_append, Hk1, Hpost. by vm_compute.
  - change (String c pre +:+ placeholder k +:+ post)
      with (String c (pre +:+ placeholder k +:+ post)).
    simpl in Hpre. apply orb_false_elim in Hpre as [Hc Hpre].
    cbn [occurs]. rewrite (IH Hpre), orb_false_r.
    rewrite placeholder_unfold, prefix_cons.
    apply bool_decide_eq_false in Hc.
    rewrite bool_decide_eq_false_2; [done|]. by intros <-.
Qed.

(** Replacing the one placeholder of a text that has no other [$]. *)
Lemma replace_placeholder (k new pre post : string) :
  mentions dollar pre = false → mentions dollar post = false →
  replace_from (placeholder k) new 0 (pre +:+ placeholder k +:+ post)
    = pre +:+ new +:+ post.
Proof.
  intros Hpre Hpost. induction pre as [|c pre IH].
  - change (EmptyString +:+ placeholder k +:+ post)
      with (String dollar (String (Ascii.ascii_of_nat 123) (k +:+ "}") +:+ post)).
    cbn [replace_from].
    change (String dollar (String (Ascii.ascii_of_nat 123) (k +:+ "}") +:+ post))
      with (placeholder k +:+ post).
    rewrite prefix_append.
    change (String.length (placeholder k) - 1)
      with (String.length (String (Ascii.ascii_of_nat 123) (k +:+ "}")) - 0).
    rewrite Nat.sub_0_r, replace_from_skip.
    by rewrite (replace_from_absent _ _ _ (placeholder_absent k _ Hpost)).
  - change (String c pre +:+ placeholder k +:+ post)
      with (String c (pre +:+ placeholder k +:+ post)).
    simpl in Hpre. apply orb_false_elim in Hpre as [Hc Hpre].
    cbn [replace_from]. rewrite placeholder_unfold at 1. rewrite prefix_cons.
    apply bool_decide_eq_false in Hc.
    rewrite bool_decide_eq_false_2 by (by intros <-). cbn [andb].
    by rewrite (IH Hpre).
Qed.

Section substitution_properties.
Context (py_str : Value → string).

Lemma substitute_text_absent (variables : Dict) (s : string) :
  (∀ key, occurs (placeholder key) s = false) →
  substitute_text py_str variables s = s.
Proof.
  intros Habsent. unfold substitute_text.
  induction variables as [|[k v] variables IH]; [done|].
  cbn [fold_left fst snd].
  by rewrite str_replace_placeholder, (replace_from_absent _ _ _ (Habsent k)).
Qed.

(** X28: a template without placeholders is returned as it is.  When no
    string of the template, at any depth of its lists and dictionaries,
    contains [${], [_substitute_variables] returns the template unchanged,
    whatever the variables are. *)
Theorem substitute_variables_keeps_plain_template
    (template : Value) (variables : Dict) :
  placeholder_free template = true →
  _substitute_variables py_str template variables = template.
Proof.
  induction template as [| | | |s|xs IH|d IH] using Value_nested_ind;
    intros Hfree; try done.
  - cbn in *. f_equal. apply substitute_text_absent. intros key.
    apply negb_true_iff in Hfree.
    by apply (occurs_shorter "${" (key +:+ "}")).
  - cbn in *. f_equal. induction IH as [|x xs Hx _ IHxs]; [done|].
    cbn in Hfree. apply andb_prop in Hfree as [Hfx Hfxs].
    cbn. by rewrite (Hx Hfx), (IHxs Hfxs).
  - cbn in *. f_equal. induction IH as [|[k v] d Hv _ IHd]; [done|].
    cbn in Hfree. apply andb_prop in Hfree as [Hfv Hfd].
    cbn in *. by rewrite (Hv Hfv), (IHd Hfd).
Qed.

(** X29: a placeholder is replaced by the text of its variable.  For
    variable names without [$] and [}], a template that consists of a text
    without [$], the placeholder of a variable, and another text without
    [$], becomes the first text, [str] of the variable's value, and the
    second text, provided that rendering of the value has no [$] either. *)
Theorem substitute_variables_fills_placeholder
    (variables : Dict) (k pre post : string) (v : Value) :
  Forall (λ kv, plain_name kv.1) variables →
  dict_lookup k variables = Some v →
  mentions dollar pre = false → mentions dollar post = false →
  mentions dollar (py_str v) = false →
  _substitute_variables py_str (VStr (pre +:+ placeholder k +:+ post)) variables
    = VStr (pre +:+ py_str v +:+ post).
Proof.
  intros Hplain Hk Hpre Hpost Hv. cbn. f_equal.
  unfold substitute_text.
  induction variables as [|[k' v'] variables IH]; [done|].
  apply Forall_cons in Hplain as [Hk' Hplain].
  cbn [fold_left fst snd]. rewrite str_replace_placeholder.
  cbn in Hk. destruct (decide (k = k')) as [<-|Hne].
  - injection Hk as ->. rewrite (replace_placeholder _ _ _ _ Hpre Hpost).
    apply (substitute_text_absent variables). intros key.
    apply placeholder_absent.
    by rewrite !mentions_append, Hpre, Hv, Hpost.
  - rewrite replace_from_absent; [by apply IH|].
    apply other_placeholder_absent; [by intros ->|apply Hk'| |done..].
    apply dict_lookup_Some_elem in Hk.
    by apply (proj1 (Forall_forall _ _) Hplain (k, v)).
Qed.

End substitution_properties.

Lemma substitute_variables_keeps_plain_template_witness :
  placeholder_free (VDict [("resourceType", VStr "Observation");
                           ("price", VStr "$5 {net}")]) = true ∧
  _substitute_variables display
    (VDict [("resourceType", VStr "Observation"); ("price", VStr "$5 {net}")])
    order_variables
  = VDict [("resourceType", VStr "Observation"); ("price", VStr "$5 {net}")].
Proof.
  split; [reflexivity|].
  by apply (substitute_variables_keeps_plain_template display).
Defined.

Lemma substitute_variables_fills_placeholder_witness :
  _substitute_variables display
    (VStr ("Patient/" +:+ placeholder "patient_id" +:+ "/vitals")) order_variables
  = VStr ("Patient/" +:+ display (VStr "p1") +:+ "/vitals").
Proof.
  apply (substitute_variables_fills_placeholder
           display order_variables "patient_id" "Patient/" "/vitals" (VStr "p1")).
  - repeat constructor.
  - reflexivity.
  - reflexivity.
  - reflexivity.
  - reflexivity.
Defined.

(** The body of a request, filled from the variables: the placeholder inside
    the dictionary is replaced, keys and other values stay. *)
Example substitute_variables_order_body :
  _substitute_variables display order_body order_variables
  = VDict [("resourceType", VStr "Observation");
           ("subject", VStr "Patient/p1");
           ("codes", VList [VStr "8867-4"; VInt 3])].
Proof. by vm_compute. Qed.

(** ** The handlers a fresh engine registers *)

Section default_engine.
Context (format_TaskType : TaskType → string).
Context (Task_new : Dict → Result Task).
Context (api_call transformation decision notification parallel
           : Task → WorkflowInstance.t → list TaskResult.t → Effect).

(** X30: a fresh engine cannot run two of the eight task types.
    [_register_default_handlers] registers a handler for every type except
    [HUMAN_TASK] and [SCRIPT]; a task of one of these two types (its
    dependencies completed, no retry policy) is therefore recorded as
    [FAILED] with the text [No handler for task type ...], and no handler is
    invoked. *)
Theorem default_engine_fails_human_and_script_tasks :
  (∀ ty,
     _register_default_handlers
       api_call transformation decision notification parallel !! ty = None
     ↔ ty = HUMAN_TASK ∨ ty = SCRIPT) ∧
  ∀ fuel task r,
    Task.type task = HUMAN_TASK ∨ Task.type task = SCRIPT →
    dependencies_completed r task →
    Task.retry_policy task = [] →
    ∃ r',
      _execute_task format_TaskType Task_new
        (_register_default_handlers
           api_call transformation decision notification parallel)
        (S fuel) task r
        = Some (Ok (length (Run.results r)), r') ∧
      recorded_result r' (Task.id task)
        = Some (TaskResult.mk FAILED (OValue VNone)
                  (Some (no_handler_message format_TaskType task))
                  (Some (Run.clock r)) (Some (S (Run.clock r)))) ∧
      Run.invoked r' = Run.invoked r.
Proof.
  assert (∀ ty,
            _register_default_handlers
              api_call transformation decision notification parallel !! ty = None
            ↔ ty = HUMAN_TASK ∨ ty = SCRIPT) as Hunhandled.
  { intros ty. unfold _register_default_handlers.
    destruct ty; (split; [intros H; try (by left); try (by right);
                          by vm_compute in H
                         |intros [H|H]; try discriminate H; by vm_compute]). }
  split; [exact Hunhandled|].
  intros fuel task r Hty Hdeps Hpolicy.
  apply Hunhandled in Hty. apply find_unmet_None in Hdeps.
  rewrite execute_task_unfold, Hdeps, Hpolicy.
  unfold handler_phase. rewrite Hty. unfold raise. cbn [dict_truthy].
  unfold mret, M_ret. eexists. split; [reflexivity|].
  unfold recorded_result, settle, try_entered, no_handler_message. cbn.
  rewrite lookup_insert_eq. cbn. rewrite !alter_snoc. cbn.
  split; [|done].
  by rewrite lookup_app_r, Nat.sub_diag by lia.
Qed.

End default_engine.
